(** * ibs-tracker: the log repository, the chart aggregation and the export

    A shallow embedding of the TypeScript sources
    - [types.ts] and [utils/dateUtils.ts] (in [src/unnamed/part_000]):
      the [LogEntry] union, [ChartDataPoint], [isToday],
      [formatTimestampToDateString], [parseInputTimestamp];
    - [components/DataChart.tsx] (in [src/unnamed/part_001]):
      [processChartData];
    - [src/src/App.tsx]: the CRUD operations, the save handlers, the
      stress status and the export;
    - [components/StressForm.tsx] (in [src/unnamed/part_003]),
      [src/src/components/IntakeForm.tsx] and [components/SymptomForm.tsx]
      (in [src/unnamed/part_002]): [handleSubmit];
    together with the properties the specification states about them.

    Conventions.  Timestamps are integer milliseconds ([Z]); a JavaScript
    number that may be [NaN] is a [jsnum].  Severities and levels are
    integers ([Z]).  A JavaScript string is a [string] holding the UTF-8
    encoding of its code points.  The host's notion of local time and its date parser
    belong to the JavaScript runtime, not to the repository, and are taken
    as a [Host] record; [utcHost] is the instance used for the examples.
    React state is passed explicitly: a handler is a function from the
    state of the render it runs in to the state after its updates. *)

From Stdlib Require Import ZArith List String Ascii Bool Lia Permutation Sorted.
Import ListNotations.

Local Open Scope string_scope.
Local Open Scope list_scope.
Local Open Scope Z_scope.

(** ** JavaScript primitives used by the sources *)

Module JS.

(** A number that can be [NaN] ([Date.prototype.getTime],
    [parseInputTimestamp]). *)
Inductive jsnum : Type :=
| Num (z : Z)
| NaN.

Definition isNaN (n : jsnum) : bool :=
  match n with NaN => true | Num _ => false end.

(** Truthiness of a number: [0] and [NaN] are falsy. *)
Definition truthyNum (n : jsnum) : bool :=
  match n with NaN => false | Num z => negb (z =? 0) end.

(** Truthiness of a string: only the empty string is falsy. *)
Definition truthyStr (s : string) : bool :=
  match s with EmptyString => false | String _ _ => true end.

(** [x ?? d] on a nullable number. *)
Definition nullish (x : option Z) (d : Z) : Z :=
  match x with Some v => v | None => d end.

(** [Array.prototype.sort(cmp)]: a stable sort; [cmp a b <= 0] keeps [a]
    before [b].  Insertion from the right keeps equal elements in their
    original order. *)
Section Sort.
Context {A : Type} (cmp : A -> A -> Z).

Fixpoint insert (x : A) (l : list A) : list A :=
  match l with
  | [] => [x]
  | y :: l' => if cmp x y <=? 0 then x :: y :: l' else y :: insert x l'
  end.

Fixpoint sort (l : list A) : list A :=
  match l with
  | [] => []
  | x :: l' => insert x (sort l')
  end.
End Sort.

(** [Number.prototype.toString] on an integer: decimal digits, a leading
    minus sign for negatives. *)
Definition digitChar (d : Z) : ascii := ascii_of_N (48 + Z.to_N d).

Fixpoint digitsAux (fuel : nat) (n : Z) (acc : string) : string :=
  match fuel with
  | O => acc
  | S fuel' =>
      let acc' := String (digitChar (n mod 10)) acc in
      if n <? 10 then acc' else digitsAux fuel' (n / 10) acc'
  end.

Definition digits (n : Z) : string :=
  digitsAux (S (Z.to_nat (Z.log2 n))) n "".

Definition toString (z : Z) : string :=
  if z <? 0 then String "-" (digits (- z)) else digits z.

(** [String.prototype.padStart(n, c)] with a one-character filler. *)
Fixpoint repeatChar (k : nat) (c : ascii) (s : string) : string :=
  match k with
  | O => s
  | S k' => String c (repeatChar k' c s)
  end.

Definition padStart (n : nat) (c : ascii) (s : string) : string :=
  repeatChar (n - String.length s) c s.

(** [a.localeCompare(b)]: negative, zero or positive.  On the strings
    the aggregation compares (digits and hyphens) collation order is the
    order of the character codes. *)
Definition localeCompare (a b : string) : Z :=
  match String.compare a b with
  | Lt => -1
  | Eq => 0
  | Gt => 1
  end.

(** [String.prototype.trim].  A string is held as the UTF-8 encoding of
    its code points.  [trim] removes, at both ends, the characters that
    ECMAScript calls WhiteSpace (TAB, VT, FF, ZWNBSP and the Unicode
    category Zs) and LineTerminator (LF, CR, LS, PS). *)
Definition whiteSpace : list Z :=
  [ 0x0009; 0x000B; 0x000C; 0xFEFF;
    0x0020; 0x00A0; 0x1680;
    0x2000; 0x2001; 0x2002; 0x2003; 0x2004; 0x2005; 0x2006; 0x2007; 0x2008;
    0x2009; 0x200A; 0x202F; 0x205F; 0x3000;
    0x000A; 0x000D; 0x2028; 0x2029 ].

Definition byte (z : Z) : ascii := ascii_of_N (Z.to_N z).

(** The UTF-8 encoding of a code point below [0x10000]. *)
Definition utf8 (c : Z) : string :=
  if c <? 0x80 then String (byte c) ""
  else if c <? 0x800
  then String (byte (0xC0 + c / 64)) (String (byte (0x80 + c mod 64)) "")
  else String (byte (0xE0 + c / 4096))
         (String (byte (0x80 + c / 64 mod 64))
            (String (byte (0x80 + c mod 64)) "")).

(** Is [s] one white space character? *)
Definition isWhiteSpace (s : string) : bool :=
  existsb (fun c => String.eqb s (utf8 c)) whiteSpace.

(** A white space character takes one, two or three bytes. *)
Fixpoint trimStart (s : string) : string :=
  match s with
  | EmptyString => EmptyString
  | String a s1 =>
      if isWhiteSpace (String a "") then trimStart s1
      else
        match s1 with
        | EmptyString => s
        | String b s2 =>
            if isWhiteSpace (String a (String b "")) then trimStart s2
            else
              match s2 with
              | EmptyString => s
              | String c s3 =>
                  if isWhiteSpace (String a (String b (String c "")))
                  then trimStart s3
                  else s
              end
        end
  end.

(** The string without its longest suffix of white space: what is left
    of the string goes once it is white space throughout. *)
Fixpoint trimEnd (s : string) : string :=
  match s with
  | EmptyString => EmptyString
  | String a s1 =>
      match trimStart s with
      | EmptyString => EmptyString
      | String _ _ => String a (trimEnd s1)
      end
  end.

Definition trim (s : string) : string := trimEnd (trimStart s).

(** [s || undefined] on a string. *)
Definition orUndefined (s : string) : option string :=
  if truthyStr s then Some s else None.

End JS.

(** ** The host: local time and the date parser *)

(** What [new Date(t)] exposes of an instant in local time. *)
Record DateFields : Type := mkDateFields {
  getFullYear : Z;
  getMonth : Z;      (* 0-indexed *)
  getDate : Z        (* day of the month *)
}.

Record Host : Type := mkHost {
  localTime : Z -> DateFields;       (* the fields of [new Date(t)] *)
  dateParse : string -> JS.jsnum     (* [new Date(s).getTime()] *)
}.

(** Every JavaScript host keeps [getMonth] in 0..11 and [getDate] in
    1..31. *)
Definition hostInRange (h : Host) : Prop :=
  forall t, 0 <= getMonth (localTime h t) <= 11 /\
            1 <= getDate (localTime h t) <= 31.

(** The proleptic Gregorian calendar: the civil date of a day number
  counted from 1970-01-01. *)
Module Civil.

Definition msPerDay : Z := 86400000.

Definition day (t : Z) : Z := t / msPerDay.

Definition dayOfEra (z : Z) : Z := (z + 719468) mod 146097.

Definition yearOfEra (doe : Z) : Z :=
  (doe - doe / 1460 + doe / 36524 - doe / 146096) / 365.

Definition dayOfYear (doe : Z) : Z :=
  let yoe := yearOfEra doe in
  doe - (365 * yoe + yoe / 4 - yoe / 100).

Definition monthIndex (doy : Z) : Z := (5 * doy + 2) / 153.

Definition fromDays (z : Z) : DateFields :=
  let era := (z + 719468) / 146097 in
  let doe := dayOfEra z in
  let yoe := yearOfEra doe in
  let doy := dayOfYear doe in
  let mp := monthIndex doy in
  let d := doy - (153 * mp + 2) / 5 + 1 in
  let m := if mp <? 10 then mp + 3 else mp - 9 in
  let y := yoe + era * 400 in
  {| getFullYear := if m <=? 2 then y + 1 else y;
     getMonth := m - 1;
     getDate := d |}.

(** The inverse: day number of a civil date ([m] in 1..12). *)
Definition toDays (y m d : Z) : Z :=
  let y' := if m <=? 2 then y - 1 else y in
  let era := y' / 400 in
  let yoe := y' - era * 400 in
  let mp := if m <=? 2 then m + 9 else m - 3 in
  let doy := (153 * mp + 2) / 5 + d - 1 in
  let doe := yoe * 365 + yoe / 4 - yoe / 100 + doy in
  era * 146097 + doe - 719468.

End Civil.

(** A host in a fixed time zone; [offset] is what [getTimezoneOffset]
    returns (minutes, UTC minus local time). *)
Module FixedZone.

Definition digitValue (c : ascii) : option Z :=
  let n := Z.of_N (N_of_ascii c) in
  if (48 <=? n) && (n <=? 57) then Some (n - 48) else None.

Fixpoint number (acc : Z) (cs : list ascii) : option Z :=
  match cs with
  | [] => Some acc
  | c :: cs' =>
      match digitValue c with
      | Some d => number (10 * acc + d) cs'
      | None => None
      end
  end.

(** The value of a [datetime-local] input, [YYYY-MM-DDTHH:mm], read as
    local time; anything else is an invalid date. *)
Definition parse (offset : Z) (s : string) : JS.jsnum :=
  match list_ascii_of_string s with
  | [y1; y2; y3; y4; "-"; m1; m2; "-"; d1; d2; "T"; h1; h2; ":"; n1; n2]%char =>
      match number 0 [y1; y2; y3; y4], number 0 [m1; m2],
            number 0 [d1; d2], number 0 [h1; h2], number 0 [n1; n2] with
      | Some y, Some m, Some d, Some h, Some n =>
          if (1 <=? m) && (m <=? 12) && (1 <=? d) && (d <=? 31)
             && (h <=? 23) && (n <=? 59)
          then JS.Num (Civil.toDays y m d * Civil.msPerDay
                       + (h * 60 + n + offset) * 60000)
          else JS.NaN
      | _, _, _, _, _ => JS.NaN
      end
  | _ => JS.NaN
  end.

Definition host (offset : Z) : Host :=
  {| localTime := fun t => Civil.fromDays (Civil.day (t - offset * 60000));
     dateParse := parse offset |}.

End FixedZone.

Definition utcHost : Host := FixedZone.host 0.

(** ** [src/types.ts] *)

Inductive BristolStoolType : Type :=
| type1 | type2 | type3 | type4 | type5 | type6 | type7.

Inductive EntryType : Type := symptom | intake | stress.

(** The fields each variant adds to [LogEntryBase]; [None] is an absent
    optional field. *)
Record SymptomFields : Type := mkSymptom {
  bowelMovement : option BristolStoolType;
  crampsSeverity : option Z;
  bloatingSeverity : option Z;
  urgency : option bool;
  symptomNotes : option string
}.

Record IntakeFields : Type := mkIntake {
  item : string;
  quantity : option string;
  intakeNotes : option string
}.

Record StressFields : Type := mkStress {
  level : Z;
  stressNotes : option string
}.

Inductive EntryBody : Type :=
| SymptomBody (f : SymptomFields)
| IntakeBody (f : IntakeFields)
| StressBody (f : StressFields).

Record LogEntry : Type := mkLogEntry {
  id : string;
  timestamp : Z;
  body : EntryBody
}.

(** The discriminant [type]. *)
Definition type (e : LogEntry) : EntryType :=
  match body e with
  | SymptomBody _ => symptom
  | IntakeBody _ => intake
  | StressBody _ => stress
  end.

Definition isStress (e : LogEntry) : bool :=
  match body e with StressBody _ => true | _ => false end.

Record ChartDataPoint : Type := mkPoint {
  date : string;
  cramps : option Z;
  bloating : option Z;
  stressLevel : option Z      (* the [stress] channel *)
}.

(** ** [src/utils/dateUtils.ts] *)

Section DateUtils.
Variable h : Host.

(** [now] is the instant [new Date()] returns. *)
Definition isToday (now timestamp : Z) : bool :=
  let today := localTime h now in
  let dateFromTimestamp := localTime h timestamp in
  (getDate dateFromTimestamp =? getDate today)
  && (getMonth dateFromTimestamp =? getMonth today)
  && (getFullYear dateFromTimestamp =? getFullYear today).

Definition formatTimestampToDateString (timestamp : Z) : string :=
  let d := localTime h timestamp in
  let year := getFullYear d in
  let month := JS.padStart 2 "0" (JS.toString (getMonth d + 1)) in
  let day := JS.padStart 2 "0" (JS.toString (getDate d)) in
  (JS.toString year ++ "-" ++ month ++ "-" ++ day)%string.

Definition parseInputTimestamp (dateTimeString : string) : JS.jsnum :=
  dateParse h dateTimeString.

End DateUtils.

(** ** [src/components/DataChart.tsx]: the aggregation *)

(** The object [dailyData]: string keys in insertion order, which is the
    order [Object.values] enumerates. *)
Definition DailyData : Type := list (string * ChartDataPoint).

Fixpoint lookup (k : string) (d : DailyData) : option ChartDataPoint :=
  match d with
  | [] => None
  | (k', v) :: d' => if String.eqb k' k then Some v else lookup k d'
  end.

(** [dailyData[k] = v] for a key that is not present yet. *)
Definition addKey (k : string) (v : ChartDataPoint) (d : DailyData) : DailyData :=
  d ++ [(k, v)].

(** An assignment to a field of the object stored under [k]. *)
Fixpoint modify (k : string) (f : ChartDataPoint -> ChartDataPoint)
  (d : DailyData) : DailyData :=
  match d with
  | [] => []
  | (k', v) :: d' =>
      if String.eqb k' k then (k', f v) :: d' else (k', v) :: modify k f d'
  end.

Definition values (d : DailyData) : list ChartDataPoint := map snd d.

Definition setCramps (x : Z) (p : ChartDataPoint) : ChartDataPoint :=
  {| date := date p; cramps := Some x; bloating := bloating p;
     stressLevel := stressLevel p |}.

Definition setBloating (x : Z) (p : ChartDataPoint) : ChartDataPoint :=
  {| date := date p; cramps := cramps p; bloating := Some x;
     stressLevel := stressLevel p |}.

Definition setStress (x : Z) (p : ChartDataPoint) : ChartDataPoint :=
  {| date := date p; cramps := cramps p; bloating := bloating p;
     stressLevel := Some x |}.

Definition emptyPoint (dateStr : string) : ChartDataPoint :=
  {| date := dateStr; cramps := None; bloating := None; stressLevel := None |}.

(** The comparators handed to [sort]. *)
Definition byTimestampAsc (a b : LogEntry) : Z := timestamp a - timestamp b.
Definition byTimestampDesc (a b : LogEntry) : Z := timestamp b - timestamp a.
Definition byDate (a b : ChartDataPoint) : Z := JS.localeCompare (date a) (date b).

Section Chart.
Variable h : Host.

(** What one iteration of [sortedLogs.forEach] does to the bucket of its
    date, once the bucket exists. *)
Definition updatePoint (log : LogEntry) (p : ChartDataPoint) : ChartDataPoint :=
  match body log with
  | SymptomBody f =>
      let p :=
        match crampsSeverity f with
        | Some s => setCramps (Z.max (JS.nullish (cramps p) 0) s) p
        | None => p
        end in
      match bloatingSeverity f with
      | Some s => setBloating (Z.max (JS.nullish (bloating p) 0) s) p
      | None => p
      end
  | StressBody f => setStress (level f) p
  | IntakeBody _ => p
  end.

(** The body of [sortedLogs.forEach]. *)
Definition forEachLog (dailyData : DailyData) (log : LogEntry) : DailyData :=
  let dateStr := formatTimestampToDateString h (timestamp log) in
  let dailyData :=
    match lookup dateStr dailyData with
    | None => addKey dateStr (emptyPoint dateStr) dailyData
    | Some _ => dailyData
    end in
  modify dateStr (updatePoint log) dailyData.

Definition processChartData (logs : list LogEntry) : list ChartDataPoint :=
  let sortedLogs := JS.sort byTimestampAsc logs in
  let dailyData := fold_left forEachLog sortedLogs [] in
  JS.sort byDate (values dailyData).

End Chart.

(** ** [src/App.tsx]: state, CRUD operations, save handlers *)

Inductive View : Type := viewLog | addSymptom | addIntake | addStress | chart.

(** The state of [App] a handler reads and writes, and the messages it
    has shown with [alert] (oldest first). *)
Record AppState : Type := mkApp {
  logs : list LogEntry;
  activeView : View;
  editingEntry : option LogEntry;
  stressLoggedToday : bool;
  alerts : list string
}.

(** What one handler call draws from the environment: [Date.now()] (also
    [new Date()]) and the result of [uuidv4()]. *)
Record Env : Type := mkEnv {
  now : Z;
  uuidv4 : string
}.

(** The object a form passes to [onSave]: [Omit<XLog, 'type'>], with the
    variant's own fields in [formFields]. *)
Record FormData (F : Type) : Type := mkFormData {
  formId : string;
  formTimestamp : JS.jsnum;
  formFields : F
}.
Arguments mkFormData {F} _ _ _.
Arguments formId {F} _.
Arguments formTimestamp {F} _.
Arguments formFields {F} _.

(** [{ ...data, type: ... }]: the form data with its discriminant. *)
Record EntryData : Type := mkEntryData {
  dataId : string;
  dataTimestamp : JS.jsnum;
  dataBody : EntryBody
}.

Definition setLogs (f : list LogEntry -> list LogEntry) (st : AppState) : AppState :=
  {| logs := f (logs st); activeView := activeView st;
     editingEntry := editingEntry st;
     stressLoggedToday := stressLoggedToday st; alerts := alerts st |}.

Definition setActiveView (v : View) (st : AppState) : AppState :=
  {| logs := logs st; activeView := v; editingEntry := editingEntry st;
     stressLoggedToday := stressLoggedToday st; alerts := alerts st |}.

Definition setEditingEntry (e : option LogEntry) (st : AppState) : AppState :=
  {| logs := logs st; activeView := activeView st; editingEntry := e;
     stressLoggedToday := stressLoggedToday st; alerts := alerts st |}.

Definition setStressLoggedToday (b : bool) (st : AppState) : AppState :=
  {| logs := logs st; activeView := activeView st;
     editingEntry := editingEntry st;
     stressLoggedToday := b; alerts := alerts st |}.

Definition alert (msg : string) (st : AppState) : AppState :=
  {| logs := logs st; activeView := activeView st;
     editingEntry := editingEntry st;
     stressLoggedToday := stressLoggedToday st; alerts := alerts st ++ [msg] |}.

Section App.
Variable h : Host.

(** The most recent stress entry: [logs.filter(stress).sort(desc)[0]]. *)
Definition lastStressLog (logs : list LogEntry) : option LogEntry :=
  hd_error (JS.sort byTimestampDesc (filter isStress logs)).

(** [checkStressLogStatus]; [closureLogs] is the [logs] of the render the
    callback was created in. *)
Definition checkStressLogStatus (now : Z) (closureLogs : list LogEntry)
  (st : AppState) : AppState :=
  setStressLoggedToday
    match lastStressLog closureLogs with
    | Some l => isToday h now (timestamp l)
    | None => false
    end st.

(** The effect that runs after every render in which [logs] changed (and
    on mount): it calls [checkStressLogStatus] on the new [logs]. *)
Definition afterRender (now : Z) (st : AppState) : AppState :=
  checkStressLogStatus now (logs st) st.

(** The callback of the five-minute [setInterval], as far as the state
    above goes (the reminder notification it may also show touches none of
    it). *)
Definition timerTick (now : Z) (st : AppState) : AppState :=
  let needsReset :=
    match lastStressLog (logs st) with
    | Some l => negb (isToday h now (timestamp l))
    | None => true
    end in
  if needsReset && stressLoggedToday st
  then setStressLoggedToday false st
  else if negb needsReset && negb (stressLoggedToday st)
       then checkStressLogStatus now (logs st) st
       else st.

Definition createLogEntry (env : Env) (entryData : EntryData)
  (st : AppState) : AppState :=
  let newEntry :=
    {| id := uuidv4 env; timestamp := now env; body := dataBody entryData |} in
  let st := setLogs (fun prevLogs =>
                       JS.sort byTimestampDesc (prevLogs ++ [newEntry])) st in
  let st := setActiveView viewLog st in
  let st := setEditingEntry None st in
  if isStress newEntry then setStressLoggedToday true st else st.

Definition updateLogEntry (env : Env) (updatedEntryData : LogEntry)
  (st : AppState) : AppState :=
  let closureLogs := logs st in
  let st := setLogs (fun prevLogs =>
              JS.sort byTimestampDesc
                (map (fun log => if String.eqb (id log) (id updatedEntryData)
                                 then updatedEntryData else log) prevLogs)) st in
  let st := setActiveView viewLog st in
  let st := setEditingEntry None st in
  if isStress updatedEntryData
  then checkStressLogStatus (now env) closureLogs st
  else st.

Definition deleteLogEntry (env : Env) (id' : string) (st : AppState) : AppState :=
  let closureLogs := logs st in
  let entryToDelete := find (fun log => String.eqb (id log) id') closureLogs in
  let st := setLogs (fun prevLogs =>
              filter (fun log => negb (String.eqb (id log) id')) prevLogs) st in
  let st := setActiveView viewLog st in
  let st := setEditingEntry None st in
  match entryToDelete with
  | Some e =>
      if isStress e && isToday h (now env) (timestamp e)
      then checkStressLogStatus (now env) closureLogs st
      else st
  | None => st
  end.

(** [{ ...data, type: ... }]. *)
Definition withType {F : Type} (tag : F -> EntryBody) (data : FormData F) : EntryData :=
  {| dataId := formId data; dataTimestamp := formTimestamp data;
     dataBody := tag (formFields data) |}.

(** [entryData] as the [LogEntry] handed to [updateLogEntry].  The
    handlers do so only under [data.id && data.timestamp], where the
    timestamp is a number other than [0]; the [NaN] case is never used. *)
Definition asLogEntry (entryData : EntryData) : LogEntry :=
  {| id := dataId entryData;
     timestamp := match dataTimestamp entryData with
                  | JS.Num ts => ts
                  | JS.NaN => 0
                  end;
     body := dataBody entryData |}.

Definition handleSaveSymptom (env : Env) (data : FormData SymptomFields)
  (st : AppState) : AppState :=
  let entryData := withType SymptomBody data in
  if JS.truthyStr (formId data) && JS.truthyNum (formTimestamp data)
  then updateLogEntry env (asLogEntry entryData) st
  else createLogEntry env entryData st.

Definition handleSaveIntake (env : Env) (data : FormData IntakeFields)
  (st : AppState) : AppState :=
  let entryData := withType IntakeBody data in
  if JS.truthyStr (formId data) && JS.truthyNum (formTimestamp data)
  then updateLogEntry env (asLogEntry entryData) st
  else createLogEntry env entryData st.

Definition handleSaveStress (env : Env) (data : FormData StressFields)
  (st : AppState) : AppState :=
  let entryData := withType StressBody data in
  if JS.truthyStr (formId data) && JS.truthyNum (formTimestamp data)
  then updateLogEntry env (asLogEntry entryData) st
  else
    if stressLoggedToday st
    then setActiveView viewLog
           (alert "You have already logged your stress level for today." st)
    else createLogEntry env entryData st.

End App.

(** ** The forms' [handleSubmit]

    A form is a component with props ([onSave], [initialData]) and state
    (the [useState] variables); [handleSubmit] either alerts and returns, or
    calls [onSave] with the data it assembled. *)

Definition invalidDateMessage : string :=
  "Invalid date and time selected. Please check the format.".

(** [initialData?.id || ''] and [initialData?.timestamp || 0]. *)
Definition initialId (initialData : option LogEntry) : string :=
  match initialData with
  | Some e => if JS.truthyStr (id e) then id e else ""
  | None => ""
  end.

Definition initialTimestamp (initialData : option LogEntry) : Z :=
  match initialData with
  | Some e => if JS.truthyNum (JS.Num (timestamp e)) then timestamp e else 0
  | None => 0
  end.

Definition isEditing (initialData : option LogEntry) : bool :=
  match initialData with Some _ => true | None => false end.

Module StressForm.
Section Component.
Variable h : Host.
Variable onSave : FormData StressFields -> AppState -> AppState.
Variable initialData : option LogEntry.
Variables (level : Z) (notes editedDateTime : string).

(** The part of [handleSubmit] after [timestampToSave] is settled. *)
Definition save (timestampToSave : JS.jsnum) (st : AppState) : AppState :=
  let dataToSave :=
    {| formId := initialId initialData;
       formTimestamp := timestampToSave;
       formFields := mkStress level (JS.orUndefined (JS.trim notes)) |} in
  onSave dataToSave st.

Definition handleSubmit (st : AppState) : AppState :=
  if isEditing initialData
  then
    let timestampToSave := parseInputTimestamp h editedDateTime in
    if JS.isNaN timestampToSave
    then alert invalidDateMessage st
    else save timestampToSave st
  else save (JS.Num (initialTimestamp initialData)) st.

End Component.
End StressForm.

Module IntakeForm.
Section Component.
Variable h : Host.
Variable onSave : FormData IntakeFields -> AppState -> AppState.
Variable initialData : option LogEntry.
Variables (item quantity notes editedDateTime : string).

(** The part of [handleSubmit] after [timestampToSave] is settled. *)
Definition save (timestampToSave : JS.jsnum) (st : AppState) : AppState :=
  let dataToSave :=
    {| formId := initialId initialData;
       formTimestamp := timestampToSave;
       formFields := mkIntake (JS.trim item)
                              (JS.orUndefined (JS.trim quantity))
                              (JS.orUndefined (JS.trim notes)) |} in
  onSave dataToSave st.

Definition handleSubmit (st : AppState) : AppState :=
  if negb (JS.truthyStr (JS.trim item))
  then alert "Please enter the item consumed." st
  else
    if isEditing initialData
    then
      let timestampToSave := parseInputTimestamp h editedDateTime in
      if JS.isNaN timestampToSave
      then alert invalidDateMessage st
      else save timestampToSave st
    else save (JS.Num (initialTimestamp initialData)) st.

End Component.
End IntakeForm.

Module SymptomForm.
Section Component.
Variable h : Host.
Variable onSave : FormData SymptomFields -> AppState -> AppState.
Variable initialData : option LogEntry.
Variable bowelMovement : option BristolStoolType.
Variables (crampsSeverity bloatingSeverity : Z) (urgency : bool).
Variables (notes editedDateTime : string).

(** The part of [handleSubmit] after [timestampToSave] is settled. *)
Definition save (timestampToSave : JS.jsnum) (st : AppState) : AppState :=
  let dataToSave :=
    {| formId := initialId initialData;
       formTimestamp := timestampToSave;
       formFields :=
         mkSymptom bowelMovement
           (if crampsSeverity >? 0 then Some crampsSeverity else None)
           (if bloatingSeverity >? 0 then Some bloatingSeverity else None)
           (if urgency then Some true else None)
           (JS.orUndefined (JS.trim notes)) |} in
  onSave dataToSave st.

Definition handleSubmit (st : AppState) : AppState :=
  if isEditing initialData
  then
    let timestampToSave := parseInputTimestamp h editedDateTime in
    if JS.isNaN timestampToSave
    then alert invalidDateMessage st
    else save timestampToSave st
  else save (JS.Num (initialTimestamp initialData)) st.

End Component.
End SymptomForm.

(** ** [handleExportData]

    [Array.prototype.sort] sorts its receiver in place, so whether the
    export touches the stored collection depends on which array object it
    sorts.  Arrays are therefore objects in a store here: a reference is the
    index of its allocation. *)
Module ExportData.

Definition Ref : Type := nat.
Definition Store : Type := list (list LogEntry).

Definition read (s : Store) (r : Ref) : list LogEntry := nth r s [].

Definition alloc (a : list LogEntry) (s : Store) : Ref * Store :=
  (List.length s, s ++ [a]).

Fixpoint write (r : Ref) (a : list LogEntry) (s : Store) {struct s} : Store :=
  match s, r with
  | [], _ => []
  | _ :: s', O => a :: s'
  | x :: s', S r' => x :: write r' a s'
  end.

(** [[...a]]: a new array with the elements of [a]. *)
Definition spread (a : Ref) (s : Store) : Ref * Store := alloc (read s a) s.

(** [a.sort(cmp)]: sorts [a] in place (and returns [a]). *)
Definition sortInPlace (cmp : LogEntry -> LogEntry -> Z) (a : Ref) (s : Store) : Store :=
  write a (JS.sort cmp (read s a)) s.

(** A file offered for download: its name and the entries of the JSON
    array it holds, in document order. *)
Record Download : Type := mkDownload {
  fileName : string;
  document : list LogEntry
}.

Record World : Type := mkWorld {
  store : Store;
  shown : list string;          (* [alert] messages, oldest first *)
  downloads : list Download
}.

(** [new Date(t).toISOString().split('T')[0]]: the UTC date, the year on
    four digits, or signed on six outside 0..9999. *)
Definition isoDate (t : Z) : string :=
  let d := Civil.fromDays (Civil.day t) in
  let y := getFullYear d in
  let year :=
    if (0 <=? y) && (y <=? 9999) then JS.padStart 4 "0" (JS.toString y)
    else String (if y <? 0 then "-"%char else "+"%char)
                (JS.padStart 6 "0" (JS.toString (Z.abs y))) in
  (year ++ "-" ++ JS.padStart 2 "0" (JS.toString (getMonth d + 1))
        ++ "-" ++ JS.padStart 2 "0" (JS.toString (getDate d)))%string.

(** [logs] is the array held in the component's state. *)
Definition handleExportData (now : Z) (logs : Ref) (w : World) : World :=
  if (List.length (read (store w) logs) =? 0)%nat
  then {| store := store w; shown := shown w ++ ["No data to export."];
          downloads := downloads w |}
  else
    let (sortedLogs, s1) := spread logs (store w) in
    let s2 := sortInPlace byTimestampAsc sortedLogs s1 in
    let jsonData := read s2 sortedLogs in
    let dateStr := isoDate now in
    {| store := s2; shown := shown w;
       downloads := downloads w ++
         [{| fileName := ("ibs_tracker_data_" ++ dateStr ++ ".json")%string;
             document := jsonData |}] |}.

End ExportData.

(** ** More JavaScript primitives *)

Module JSString.

(** [s.split(sep)] for a one-character separator: the pieces between the
    separators, [[""]] on the empty string. *)
Fixpoint split (sep : ascii) (s : string) : list string :=
  match s with
  | EmptyString => [EmptyString]
  | String c s' =>
      if Ascii.eqb c sep then EmptyString :: split sep s'
      else
        match split sep s' with
        | [] => [String c EmptyString]
        | w :: ws => String c w :: ws
        end
  end.

(** [l.join(sep)]. *)
Fixpoint join (sep : string) (l : list string) : string :=
  match l with
  | [] => EmptyString
  | [x] => x
  | x :: l' => (x ++ sep ++ join sep l')%string
  end.

End JSString.

(** ** [src/utils/cn.ts] *)

(** An argument of [cn] is a string, or one of [undefined], [null] and
    [false] ([None]); [filter(Boolean)] also drops the empty string. *)
Definition cn (classes : list (option string)) : string :=
  JSString.join " "
    (flat_map (fun c => match c with
                        | Some s => if JS.truthyStr s then [s] else []
                        | None => []
                        end) classes).

(** ** [formatShortDate] of [src/utils/dateUtils.ts] *)

Definition formatShortDate (dateString : string) : string :=
  match JSString.split "-" dateString with
  | [_; p1; p2] => (p1 ++ "/" ++ p2)%string
  | _ => dateString
  end.

(** ** [DataChart] and [LogList]: what the components decide to show *)

Module DataChart.

(** [None] is the "Not enough data" message, [Some chartData] the line
    chart over [chartData]. *)
Definition render (h : Host) (logs : list LogEntry) : option (list ChartDataPoint) :=
  let chartData := processChartData h logs in
  if (List.length chartData <? 2)%nat then None else Some chartData.

End DataChart.

Module LogList.

Definition sortedEntries (entries : list LogEntry) : list LogEntry :=
  JS.sort byTimestampDesc entries.

(** [None] is the "No entries yet" message, [Some l] the items in the
    order shown. *)
Definition render (entries : list LogEntry) : option (list LogEntry) :=
  if (List.length (sortedEntries entries) =? 0)%nat then None
  else Some (sortedEntries entries).

End LogList.

(** ** [src/App.tsx]: navigation and rendering *)

Definition viewEqb (a b : View) : bool :=
  match a, b with
  | viewLog, viewLog | addSymptom, addSymptom | addIntake, addIntake
  | addStress, addStress | chart, chart => true
  | _, _ => false
  end.

(** [activeView.startsWith('add')]. *)
Definition startsWithAdd (v : View) : bool :=
  match v with
  | addSymptom | addIntake | addStress => true
  | viewLog | chart => false
  end.

Definition isSome {A : Type} (o : option A) : bool :=
  match o with Some _ => true | None => false end.

Definition handleEditEntry (entry : LogEntry) (st : AppState) : AppState :=
  let st := setEditingEntry (Some entry) st in
  match type entry with
  | symptom => setActiveView addSymptom st
  | intake => setActiveView addIntake st
  | stress => setActiveView addStress st
  end.

Definition handleCancelEdit (st : AppState) : AppState :=
  setActiveView viewLog (setEditingEntry None st).

(** The tests read [activeView], [editingEntry] and [stressLoggedToday]
    of the render the handler belongs to, that is of [st0]; of several
    updates of one state variable the last one stays. *)
Definition handleNavClick (id' : View) (st0 : AppState) : AppState :=
  if viewEqb id' addStress && stressLoggedToday st0
     && negb (isSome (editingEntry st0))
  then st0
  else
    let isEditingFormActive :=
      isSome (editingEntry st0) && startsWithAdd (activeView st0) in
    let toLogOrChart (st : AppState) : AppState :=
      if viewEqb id' viewLog || viewEqb id' chart
      then setEditingEntry None st else st in
    if isEditingFormActive && negb (viewEqb id' (activeView st0))
    then
      let st := handleCancelEdit st0 in
      if negb (viewEqb (activeView st0) viewLog)
      then setActiveView id' st
      else setActiveView id' (toLogOrChart st)
    else setActiveView id' (toLogOrChart st0).

(** What [renderActiveView] returns: the component and the props that
    matter. *)
Inductive Screen : Type :=
| SymptomFormScreen (initialData : option LogEntry)
| IntakeFormScreen (initialData : option LogEntry)
| StressFormScreen (initialData : option LogEntry)
| AlreadyLoggedScreen
| ChartScreen (logs : list LogEntry)
| LogListScreen (entries : list LogEntry).

(** [editingEntry?.type === t ? editingEntry : null]. *)
Definition editingOfType (t : EntryType) (st : AppState) : option LogEntry :=
  match editingEntry st with
  | Some e =>
      match type e, t with
      | symptom, symptom | intake, intake | stress, stress => Some e
      | _, _ => None
      end
  | None => None
  end.

(** The screen, and the state after the [setEditingEntry(null)] the
    [log] case performs. *)
Definition renderActiveView (st : AppState) : Screen * AppState :=
  match activeView st with
  | addSymptom => (SymptomFormScreen (editingOfType symptom st), st)
  | addIntake => (IntakeFormScreen (editingOfType intake st), st)
  | addStress =>
      if stressLoggedToday st && negb (isSome (editingEntry st))
      then (AlreadyLoggedScreen, st)
      else (StressFormScreen (editingOfType stress st), st)
  | chart => (ChartScreen (logs st), st)
  | viewLog =>
      (LogListScreen (logs st),
       if isSome (editingEntry st) then setEditingEntry None st else st)
  end.

(** The [disabledItems] prop [App] gives to [BottomNav]. *)
Definition disabledItems (st : AppState) : list View :=
  if stressLoggedToday st && negb (isSome (editingOfType stress st))
  then [addStress] else [].

Module BottomNav.

(** The [onClick] of the button of [item]:
    [!isDisabled && onItemClick(item.id)]. *)
Definition onClick (disabled : list View)
  (onItemClick : View -> AppState -> AppState) (item : View)
  (st : AppState) : AppState :=
  let isDisabled := existsb (viewEqb item) disabled in
  if negb isDisabled then onItemClick item st else st.

End BottomNav.

(** A click on a tab of the bottom bar as [App] wires it. *)
Definition clickTab (item : View) (st : AppState) : AppState :=
  BottomNav.onClick (disabledItems st) handleNavClick item st.

(** What the form on the screen holds when it is submitted: the values of
    its [useState] variables. *)
Inductive FormInput : Type :=
| SymptomInput (bowelMovement : option BristolStoolType)
    (crampsSeverity bloatingSeverity : Z) (urgency : bool)
    (notes editedDateTime : string)
| IntakeInput (item quantity notes editedDateTime : string)
| StressInput (level : Z) (notes editedDateTime : string).

(** The submit of the form [renderActiveView] shows, with the props [App]
    gives it: [onSave] is the save handler of the form's type and
    [initialData] the entry under edit when it has that type.  These are
    the only places the save handlers are used, and the save handlers are
    the only callers of [updateLogEntry]. *)
Definition submitForm (h : Host) (env : Env) (input : FormInput)
  (st : AppState) : AppState :=
  match fst (renderActiveView st), input with
  | SymptomFormScreen initialData, SymptomInput bowel c b u notes dt =>
      SymptomForm.handleSubmit h (handleSaveSymptom h env) initialData
        bowel c b u notes dt st
  | IntakeFormScreen initialData, IntakeInput what amount notes dt =>
      IntakeForm.handleSubmit h (handleSaveIntake h env) initialData
        what amount notes dt st
  | StressFormScreen initialData, StressInput lvl notes dt =>
      StressForm.handleSubmit h (handleSaveStress h env) initialData
        lvl notes dt st
  | _, _ => st
  end.

(** ** [src/App.tsx]: the interval callback with the reminder *)

Inductive NotificationPermission : Type := permissionDefault | granted | denied.

Record ReminderState : Type := mkReminder {
  appState : AppState;
  notificationPermission : NotificationPermission;
  lastNotificationDate : option string;
  notifications : list string        (* bodies of the notifications shown *)
}.

Definition reminderBody : string :=
  "Don't forget to log your stress level for today!".

Section Interval.
Variable h : Host.
Variable getHours : Z -> Z.              (* [new Date(t).getHours()] *)
Variable toDateString : Z -> string.     (* [new Date(t).toDateString()] *)

(** The callback of [setInterval]; [rs] is the state of the render that
    installed it, which is what its tests read. *)
Definition intervalCallback (now : Z) (rs : ReminderState) : ReminderState :=
  let st := appState rs in
  let currentHour := getHours now in
  let todayStr := toDateString now in
  let needsReset :=
    match lastStressLog (logs st) with
    | Some l => negb (isToday h now (timestamp l))
    | None => true
    end in
  let last := lastNotificationDate rs in
  let differs := negb match last with
                      | Some s => String.eqb s todayStr
                      | None => false
                      end in
  let rs1 :=
    if needsReset && stressLoggedToday st
    then
      {| appState := setStressLoggedToday false st;
         notificationPermission := notificationPermission rs;
         lastNotificationDate :=
           if match last with Some s => JS.truthyStr s | None => false end
              && differs
           then None else last;
         notifications := notifications rs |}
    else
      if negb needsReset && negb (stressLoggedToday st)
      then
        {| appState := checkStressLogStatus h now (logs st) st;
           notificationPermission := notificationPermission rs;
           lastNotificationDate := last;
           notifications := notifications rs |}
      else rs in
  if match notificationPermission rs with granted => true | _ => false end
     && (currentHour >=? 18) && negb (stressLoggedToday st) && differs
  then
    {| appState := appState rs1;
       notificationPermission := notificationPermission rs1;
       lastNotificationDate := Some todayStr;
       notifications := notifications rs1 ++ [reminderBody] |}
  else rs1.

End Interval.

(** ** [formatTimestampForInput] of [src/utils/dateUtils.ts] *)

(** A [Date] holds a time value of at most 8.64e15 ms in absolute value;
    [new Date(t).getTime()] is [NaN] beyond. *)
Definition maxTime : Z := 8640000000000000.

Definition timeClip (t : Z) : JS.jsnum :=
  if Z.abs t <=? maxTime then JS.Num t else JS.NaN.

(** [new Date(t).toISOString()] for a valid [t]:
    [YYYY-MM-DDTHH:mm:ss.sssZ] in UTC. *)
Definition toISOString (t : Z) : string :=
  let ms := t mod Civil.msPerDay in
  (ExportData.isoDate t ++ "T"
   ++ JS.padStart 2 "0" (JS.toString (ms / 3600000)) ++ ":"
   ++ JS.padStart 2 "0" (JS.toString (ms / 60000 mod 60)) ++ ":"
   ++ JS.padStart 2 "0" (JS.toString (ms / 1000 mod 60)) ++ "."
   ++ JS.padStart 3 "0" (JS.toString (ms mod 1000)) ++ "Z")%string.

Section FormatForInput.
Variable getTimezoneOffset : Z -> Z.    (* [new Date(t).getTimezoneOffset()] *)

(** [now] is the instant [new Date()] returns in the fallback. *)
Definition formatTimestampForInput (now timestamp : Z) : string :=
  let fallback :=
    String.substring 0 16
      (toISOString (now - getTimezoneOffset now * 60000)) in
  match timeClip timestamp with
  | JS.Num date =>
      match timeClip (date - getTimezoneOffset date * 60000) with
      | JS.Num localDate => String.substring 0 16 (toISOString localDate)
      | JS.NaN => fallback
      end
  | JS.NaN => fallback
  end.

End FormatForInput.

(** ** Vocabulary of the specification *)

(** The greatest element of a list, [None] on the empty list. *)
Fixpoint maximum (l : list Z) : option Z :=
  match l with
  | [] => None
  | x :: l' =>
      match maximum l' with
      | None => Some x
      | Some m => Some (Z.max x m)
      end
  end.

(** The running maximum the aggregation keeps in a channel: seeded with
    [0] while the channel is [null]. *)
Definition runningMax (acc : option Z) (vals : list Z) : option Z :=
  fold_left (fun a v => Some (Z.max (JS.nullish a 0) v)) vals acc.

Fixpoint lastOf {A : Type} (l : list A) : option A :=
  match l with
  | [] => None
  | [x] => Some x
  | _ :: l' => lastOf l'
  end.

(** The severities and levels an entry defines. *)
Definition crampsOf (e : LogEntry) : option Z :=
  match body e with SymptomBody f => crampsSeverity f | _ => None end.

Definition bloatingOf (e : LogEntry) : option Z :=
  match body e with SymptomBody f => bloatingSeverity f | _ => None end.

Definition stressOf (e : LogEntry) : option Z :=
  match body e with StressBody f => Some (level f) | _ => None end.

Fixpoint defined {A : Type} (f : A -> option Z) (l : list A) : list Z :=
  match l with
  | [] => []
  | x :: l' =>
      match f x with
      | Some v => v :: defined f l'
      | None => defined f l'
      end
  end.

Section SpecVocabulary.
Variable h : Host.

(** The date string of an entry. *)
Definition dateOf (e : LogEntry) : string :=
  formatTimestampToDateString h (timestamp e).

(** The entries of [logs] whose local calendar date is [d]. *)
Definition entriesOn (d : string) (logs : list LogEntry) : list LogEntry :=
  filter (fun e => String.eqb (formatTimestampToDateString h (timestamp e)) d) logs.

(** The bucket the entries of date [d] build, taken in the order of [l]. *)
Definition bucketOf (d : string) (l : list LogEntry) : ChartDataPoint :=
  fold_left (fun p e => updatePoint e p) (entriesOn d l) (emptyPoint d).

Definition severitiesInRange (logs : list LogEntry) : Prop :=
  forall e, In e logs ->
    (forall v, crampsOf e = Some v -> 0 <= v <= 5) /\
    (forall v, bloatingOf e = Some v -> 0 <= v <= 5).

End SpecVocabulary.

(** A save is a creation unless its data carries a non-empty id and a
    timestamp other than [0] and [NaN]. *)
Definition isUpdate {F : Type} (data : FormData F) : bool :=
  JS.truthyStr (formId data) && JS.truthyNum (formTimestamp data).

(** What a form hands over for a new stress entry. *)
Definition newStress (l : Z) : FormData StressFields :=
  {| formId := ""; formTimestamp := JS.Num 0; formFields := mkStress l None |}.

Definition stressAlready : string :=
  "You have already logged your stress level for today.".

(** Is there a stress entry on the local calendar day of [now]? *)
Definition stressOnDayOf (h : Host) (now : Z) (l : list LogEntry) : bool :=
  existsb (fun e => isStress e && isToday h now (timestamp e)) l.

(** Chronological order of calendar dates. *)
Definition compareDates (a b : DateFields) : comparison :=
  match getFullYear a ?= getFullYear b with
  | Eq =>
      match getMonth a ?= getMonth b with
      | Eq => getDate a ?= getDate b
      | c => c
      end
  | c => c
  end.

(** The number a string of decimal digits denotes, continuing from [a]. *)
Fixpoint valueFrom (a : Z) (s : string) : Z :=
  match s with
  | EmptyString => a
  | String c s' => valueFrom (10 * a + (Z.of_N (N_of_ascii c) - 48)) s'
  end.

Definition sameDate (a b : DateFields) : Prop :=
  getFullYear a = getFullYear b /\ getMonth a = getMonth b /\
  getDate a = getDate b.

(** The ten characters [YYYY-MM-DD] of a year on four digits, a month and
    a day on two. *)
Definition paddedDate (y m d : Z) : string :=
  String (JS.digitChar (y / 10 / 10 / 10))
    (String (JS.digitChar (y / 10 / 10 mod 10))
       (String (JS.digitChar (y / 10 mod 10))
          (String (JS.digitChar (y mod 10))
             (String "-"
                (String (JS.digitChar (m / 10))
                   (String (JS.digitChar (m mod 10))
                      (String "-"
                         (String (JS.digitChar (d / 10))
                            (String (JS.digitChar (d mod 10)) ""))))))))).

Definition fourDigitYear (d : DateFields) : Prop :=
  1000 <= getFullYear d <= 9999.

Definition ascendingByDate (out : list ChartDataPoint) : Prop :=
  StronglySorted (fun p q => String.ltb (date p) (date q) = true) out.

Definition timestampsNonDecreasing (l : list LogEntry) : Prop :=
  StronglySorted (fun a b => timestamp a <= timestamp b) l.

Definition timestampsNonIncreasing (l : list LogEntry) : Prop :=
  StronglySorted (fun a b => timestamp b <= timestamp a) l.

(** ** Sample data for the examples *)

Definition jan1 : Z := 1704067200000.   (* 2024-01-01T00:00Z *)
Definition hour : Z := 3600000.
Definition minute : Z := 60000.

Definition symptomEntry (i : string) (t : Z) (c b : option Z) : LogEntry :=
  {| id := i; timestamp := t; body := SymptomBody (mkSymptom None c b None None) |}.

Definition stressEntry (i : string) (t : Z) (l : Z) : LogEntry :=
  {| id := i; timestamp := t; body := StressBody (mkStress l None) |}.

Definition intakeEntry (i : string) (t : Z) (what : string) : LogEntry :=
  {| id := i; timestamp := t; body := IntakeBody (mkIntake what None None) |}.

Definition sampleLogs : list LogEntry :=
  [ stressEntry "s1" (jan1 + 30 * hour) 2;
    symptomEntry "a" (jan1 + 9 * hour) (Some 3) None;
    intakeEntry "i" (jan1 + 12 * hour) "tea";
    symptomEntry "b" (jan1 + 20 * hour) (Some 5) (Some 0) ].

Definition initialState (l : list LogEntry) : AppState :=
  {| logs := l; activeView := viewLog; editingEntry := None;
     stressLoggedToday := false; alerts := [] |}.

(** ** Vocabulary for the properties of the remaining code *)

Definition idsUnique (l : list LogEntry) : Prop := NoDup (map id l).

(** The form in which an entry of a given type is edited. *)
Definition formFor (t : EntryType) : View :=
  match t with
  | symptom => addSymptom
  | intake => addIntake
  | stress => addStress
  end.

(** While an entry is being edited, the active view is the form of its
    type. *)
Definition editingConsistent (st : AppState) : Prop :=
  match editingEntry st with
  | Some e => activeView st = formFor (type e)
  | None => True
  end.

(** Does the most recent stress entry fall on the local day of [t]? *)
Definition stressStatus (h : Host) (t : Z) (l : list LogEntry) : bool :=
  match lastStressLog l with
  | Some e => isToday h t (timestamp e)
  | None => false
  end.

Definition withAppState (f : AppState -> AppState) (rs : ReminderState) : ReminderState :=
  {| appState := f (appState rs);
     notificationPermission := notificationPermission rs;
     lastNotificationDate := lastNotificationDate rs;
     notifications := notifications rs |}.

Definition noHyphen (s : string) : Prop :=
  forall c, In c (list_ascii_of_string s) -> c <> "-"%char.

Definition noSpace (s : string) : Prop :=
  forall c, In c (list_ascii_of_string s) -> c <> " "%char.

(** The entry with the greatest timestamp; among several with that
    timestamp, the last of the list. *)
Fixpoint winner (l : list LogEntry) : option LogEntry :=
  match l with
  | [] => None
  | x :: l' =>
      match winner l' with
      | None => Some x
      | Some w => if timestamp w <? timestamp x then Some x else Some w
      end
  end.

(** The form of a type, opened on [d]. *)
Definition formScreen (t : EntryType) (d : option LogEntry) : Screen :=
  match t with
  | symptom => SymptomFormScreen d
  | intake => IntakeFormScreen d
  | stress => StressFormScreen d
  end.

(** [st'] is [st] with the entry [e] edited in place: an entry with the
    id and the type of [e] and the timestamp [ts] is stored, the entries
    with other ids are those of [st], and the edit is over. *)
Definition editedInPlace (st st' : AppState) (e : LogEntry) (ts : Z) : Prop :=
  (exists e', In e' (logs st') /\ id e' = id e /\ type e' = type e
              /\ timestamp e' = ts)
  /\ (forall x, id x <> id e -> (In x (logs st') <-> In x (logs st)))
  /\ editingEntry st' = None
  /\ activeView st' = viewLog.

(** The entries of a collection whose id is not [i], in their order. *)
Definition others (i : string) (l : list LogEntry) : list LogEntry :=
  filter (fun e => negb (String.eqb (id e) i)) l.

(** [st'] is [st] after a submit that did not call [updateLogEntry]:
    nothing happened, or a message was shown (and, for the refused stress
    entry, the list opened), or an entry was created. *)
Definition noUpdate (env : Env) (st st' : AppState) : Prop :=
  st' = st
  \/ (exists msg, st' = alert msg st)
  \/ (exists msg, st' = setActiveView viewLog (alert msg st))
  \/ (exists entryData, st' = createLogEntry env entryData st).

(** The form an input belongs to, its date field, and whether it names an
    item where the form asks for one. *)
Definition inputType (input : FormInput) : EntryType :=
  match input with
  | SymptomInput _ _ _ _ _ _ => symptom
  | IntakeInput _ _ _ _ => intake
  | StressInput _ _ _ => stress
  end.

Definition editedDateTimeOf (input : FormInput) : string :=
  match input with
  | SymptomInput _ _ _ _ _ dt => dt
  | IntakeInput _ _ _ dt => dt
  | StressInput _ _ dt => dt
  end.

Definition itemGiven (input : FormInput) : bool :=
  match input with
  | IntakeInput what _ _ _ => JS.truthyStr (JS.trim what)
  | _ => true
  end.

(** A run of white space characters, and strings that begin or end with
    a white space character. *)
Definition whiteRun (cs : list Z) : string :=
  fold_right (fun c s => (JS.utf8 c ++ s)%string) "" cs.

Definition allWhiteSpace (cs : list Z) : Prop :=
  forall c, In c cs -> In c JS.whiteSpace.

Definition startsWithWhiteSpace (s : string) : Prop :=
  exists c r, In c JS.whiteSpace /\ s = (JS.utf8 c ++ r)%string.

Definition endsWithWhiteSpace (s : string) : Prop :=
  exists c r, In c JS.whiteSpace /\ s = (r ++ JS.utf8 c)%string.

(** A byte [10xxxxxx], which continues a character. *)
Definition continuation (b : ascii) : bool :=
  let n := N_of_ascii b in ((128 <=? n) && (n <? 192))%N.

(** A string that does not begin in the middle of a character. *)
Definition atBoundary (s : string) : Prop :=
  match s with
  | EmptyString => True
  | String b _ => continuation b = false
  end.

(** The classes [cn] keeps. *)
Definition truthyClasses (classes : list (option string)) : list string :=
  flat_map (fun c => match c with
                     | Some s => if JS.truthyStr s then [s] else []
                     | None => []
                     end) classes.

Definition noChar (sep : ascii) (s : string) : Prop :=
  forall c, In c (list_ascii_of_string s) -> c <> sep.

(** * Properties *)

(** ** [Array.prototype.sort] *)

Section SortFacts.
Context {A : Type} (cmp : A -> A -> Z).

Lemma insert_perm (x : A) (l : list A) :
  Permutation (JS.insert cmp x l) (x :: l).
Proof.
  induction l as [|y l IH]; simpl.
  - reflexivity.
  - destruct (cmp x y <=? 0).
    + reflexivity.
    + rewrite IH. apply perm_swap.
Qed.

Lemma sort_perm (l : list A) : Permutation (JS.sort cmp l) l.
Proof.
  induction l as [|x l IH]; simpl.
  - constructor.
  - rewrite insert_perm. now constructor.
Qed.

Lemma sort_In (l : list A) (x : A) : In x (JS.sort cmp l) <-> In x l.
Proof.
  split; apply Permutation_in; [|symmetry]; apply sort_perm.
Qed.

Hypothesis cmp_total : forall a b, cmp a b <= 0 \/ cmp b a <= 0.
Hypothesis cmp_trans : forall a b c, cmp a b <= 0 -> cmp b c <= 0 -> cmp a c <= 0.

Lemma insert_sorted (x : A) (l : list A) :
  StronglySorted (fun a b => cmp a b <= 0) l ->
  StronglySorted (fun a b => cmp a b <= 0) (JS.insert cmp x l).
Proof.
  induction 1 as [|y l Hs IH Hy]; simpl.
  - repeat constructor.
  - destruct (Z.leb_spec (cmp x y) 0) as [Hxy|Hxy].
    + constructor; [now constructor|].
      constructor; [exact Hxy|].
      eapply Forall_impl; [|exact Hy]. intros z Hz. eapply cmp_trans; eauto.
    + constructor; [exact IH|].
      eapply Permutation_Forall; [symmetry; apply insert_perm|].
      constructor; [|exact Hy].
      destruct (cmp_total x y); [lia|assumption].
Qed.

Lemma sort_sorted (l : list A) :
  StronglySorted (fun a b => cmp a b <= 0) (JS.sort cmp l).
Proof.
  induction l as [|x l IH]; simpl.
  - constructor.
  - now apply insert_sorted.
Qed.

End SortFacts.

Lemma StronglySorted_weaken {A : Type} (R R' : A -> A -> Prop) (l : list A) :
  (forall a b, R a b -> R' a b) ->
  StronglySorted R l -> StronglySorted R' l.
Proof.
  intros HR. induction 1 as [|x l Hs IH Hx]; constructor.
  - exact IH.
  - eapply Forall_impl; [|exact Hx]. intros y. apply HR.
Qed.

Lemma sort_asc_sorted (l : list LogEntry) :
  timestampsNonDecreasing (JS.sort byTimestampAsc l).
Proof.
  unfold timestampsNonDecreasing.
  eapply StronglySorted_weaken; [|apply (sort_sorted byTimestampAsc)].
  - intros a b. unfold byTimestampAsc. lia.
  - intros a b. unfold byTimestampAsc. lia.
  - intros a b c. unfold byTimestampAsc. lia.
Qed.

Lemma sort_desc_sorted (l : list LogEntry) :
  timestampsNonIncreasing (JS.sort byTimestampDesc l).
Proof.
  unfold timestampsNonIncreasing.
  eapply StronglySorted_weaken; [|apply (sort_sorted byTimestampDesc)].
  - intros a b. unfold byTimestampDesc. lia.
  - intros a b. unfold byTimestampDesc. lia.
  - intros a b c. unfold byTimestampDesc. lia.
Qed.

(** ** The CRUD operations *)

Lemma logs_createLogEntry env entryData st :
  logs (createLogEntry env entryData st) =
  JS.sort byTimestampDesc
    (logs st ++ [{| id := uuidv4 env; timestamp := now env;
                    body := dataBody entryData |}]).
Proof.
  unfold createLogEntry. cbv zeta.
  match goal with |- context [if ?c then _ else _] => destruct c end;
    reflexivity.
Qed.

Lemma logs_updateLogEntry h env u st :
  logs (updateLogEntry h env u st) =
  JS.sort byTimestampDesc
    (map (fun log => if String.eqb (id log) (id u) then u else log) (logs st)).
Proof.
  unfold updateLogEntry. cbv zeta. destruct (isStress u); reflexivity.
Qed.

Lemma logs_deleteLogEntry h env i st :
  logs (deleteLogEntry h env i st) =
  filter (fun log => negb (String.eqb (id log) i)) (logs st).
Proof.
  unfold deleteLogEntry. cbv zeta.
  destruct (find _ (logs st)) as [e|]; [|reflexivity].
  destruct (isStress e && isToday h (now env) (timestamp e)); reflexivity.
Qed.

Lemma createLogEntry_fresh_in env entryData st :
  In {| id := uuidv4 env; timestamp := now env; body := dataBody entryData |}
     (logs (createLogEntry env entryData st)).
Proof.
  rewrite logs_createLogEntry. apply sort_In. apply in_or_app.
  right. now left.
Qed.

(** C2.  [createLogEntry] stores an entry whose id is the one [uuidv4]
    returned and whose timestamp is [Date.now()], whatever id and timestamp
    the caller's data carries; the collection afterwards is the old one plus
    that entry, in non-increasing timestamp order, every old entry still
    present; when the generated id is not in use, the new entry is the only
    one that has it. *)
Theorem createLogEntry_assigns_id_and_now (env : Env) (entryData : EntryData)
  (st : AppState) :
  let newEntry := {| id := uuidv4 env; timestamp := now env;
                     body := dataBody entryData |} in
  let st' := createLogEntry env entryData st in
  In newEntry (logs st')
  /\ Permutation (logs st') (logs st ++ [newEntry])
  /\ timestampsNonIncreasing (logs st')
  /\ (forall e, In e (logs st) -> In e (logs st'))
  /\ (forall callerId callerTimestamp,
        createLogEntry env
          {| dataId := callerId; dataTimestamp := callerTimestamp;
             dataBody := dataBody entryData |} st = st')
  /\ ((forall e, In e (logs st) -> id e <> uuidv4 env) ->
      forall e, In e (logs st') -> id e = uuidv4 env -> e = newEntry).
Proof.
  intros newEntry st'.
  assert (Hperm : Permutation (logs st') (logs st ++ [newEntry])).
  { unfold st'. rewrite logs_createLogEntry. apply sort_perm. }
  assert (Hin : forall e, In e (logs st') <-> In e (logs st) \/ e = newEntry).
  { intros e. split; intros He.
    - apply (Permutation_in _ Hperm) in He. apply in_app_or in He.
      destruct He as [He|[He|[]]]; auto.
    - apply (Permutation_in _ (Permutation_sym Hperm)). apply in_or_app.
      destruct He as [He|He]; [now left|right; left; congruence]. }
  repeat split.
  - apply Hin. now right.
  - exact Hperm.
  - unfold st'. rewrite logs_createLogEntry. apply sort_desc_sorted.
  - intros e He. apply Hin. now left.
  - intros Hfresh e He Hid. apply Hin in He. destruct He as [He|He].
    + exfalso. exact (Hfresh e He Hid).
    + exact He.
Qed.

Lemma createLogEntry_assigns_id_and_now_witness :
  let env := {| now := jan1 + 40 * hour; uuidv4 := "fresh" |} in
  let data := {| dataId := "a"; dataTimestamp := JS.Num 5;
                 dataBody := StressBody (mkStress 4 None) |} in
  let st' := createLogEntry env data (initialState sampleLogs) in
  let newEntry := stressEntry "fresh" (jan1 + 40 * hour) 4 in
  In newEntry (logs st')
  /\ timestampsNonIncreasing (logs st')
  /\ nth 0 (logs st') (intakeEntry "none" 0 "") = newEntry.
Proof.
  intros env data st' newEntry.
  destruct (createLogEntry_assigns_id_and_now env data (initialState sampleLogs))
    as (Hin & _ & Hsorted & _ & _ & Hunique).
  split; [exact Hin|]. split; [exact Hsorted|].
  apply Hunique.
  - intros e He. simpl in He.
    destruct He as [<-|[<-|[<-|[<-|[]]]]]; discriminate.
  - vm_compute. left. reflexivity.
  - reflexivity.
Defined.

(** What [updateLogEntry] does to the collection when its argument
    carries the id of a stored entry. *)
Lemma updateLogEntry_effect (h : Host) (env : Env) (u : LogEntry)
  (st : AppState) (old : LogEntry) :
  In old (logs st) -> id old = id u ->
  let st' := updateLogEntry h env u st in
  In u (logs st')
  /\ (forall e, In e (logs st') -> id e = id u -> e = u)
  /\ (forall e, id e <> id u -> (In e (logs st') <-> In e (logs st)))
  /\ List.length (logs st') = List.length (logs st)
  /\ timestampsNonIncreasing (logs st').
Proof.
  intros Hold Hid st'.
  set (f := fun log : LogEntry =>
              if String.eqb (id log) (id u) then u else log).
  assert (Hperm : Permutation (logs st') (map f (logs st))).
  { unfold st'. rewrite logs_updateLogEntry. apply sort_perm. }
  assert (Hin : forall e, In e (logs st') <-> exists e0, f e0 = e /\ In e0 (logs st)).
  { intros e. rewrite <- in_map_iff. split; apply Permutation_in;
      [exact Hperm|symmetry; exact Hperm]. }
  assert (Hu : In u (logs st')).
  { apply Hin. exists old. split; [|exact Hold].
    unfold f. rewrite Hid, String.eqb_refl. reflexivity. }
  repeat split.
  - exact Hu.
  - intros e He Hide. apply Hin in He. destruct He as (e0 & <- & _).
    unfold f in *. destruct (String.eqb_spec (id e0) (id u)); congruence.
  - intros He. apply Hin in He. destruct He as (e0 & <- & He0).
    unfold f in *. destruct (String.eqb_spec (id e0) (id u)); congruence.
  - intros He. apply Hin. exists e. split; [|exact He].
    unfold f. destruct (String.eqb_spec (id e) (id u)); congruence.
  - rewrite (Permutation_length Hperm). apply length_map.
  - unfold st'. rewrite logs_updateLogEntry. apply sort_desc_sorted.
Qed.

(** C7.  [deleteLogEntry] keeps, in their order, exactly the entries whose
    id differs from the argument; with an id no entry has, the collection
    is the same afterwards. *)
Theorem deleteLogEntry_removes_matching (h : Host) (env : Env) (i : string)
  (st : AppState) :
  let st' := deleteLogEntry h env i st in
  logs st' = filter (fun e => negb (String.eqb (id e) i)) (logs st)
  /\ (forall e, In e (logs st') <-> In e (logs st) /\ id e <> i)
  /\ ((forall e, In e (logs st) -> id e <> i) -> logs st' = logs st).
Proof.
  intros st'. unfold st'. rewrite logs_deleteLogEntry.
  split; [reflexivity|split].
  - intros e. rewrite filter_In.
    destruct (String.eqb_spec (id e) i); simpl; intuition congruence.
  - intros Habsent. induction (logs st) as [|e l IH]; simpl.
    + reflexivity.
    + destruct (String.eqb_spec (id e) i) as [Heq|Hne].
      * exfalso. apply (Habsent e); [now left|exact Heq].
      * simpl. f_equal. apply IH. intros e' He'. apply Habsent. now right.
Qed.

Lemma deleteLogEntry_removes_matching_witness :
  let env := {| now := jan1 + 40 * hour; uuidv4 := "unused" |} in
  logs (deleteLogEntry utcHost env "nobody" (initialState sampleLogs)) = sampleLogs.
Proof.
  intros env.
  apply (deleteLogEntry_removes_matching utcHost env "nobody"
           (initialState sampleLogs)).
  intros e He. simpl in He.
  destruct He as [<-|[<-|[<-|[<-|[]]]]]; discriminate.
Defined.

(** ** The export *)

Module ExportFacts.
Import ExportData.

Lemma read_alloc (a : list LogEntry) (s : Store) (r : Ref) :
  (r < List.length s)%nat -> read (snd (alloc a s)) r = read s r.
Proof.
  intros Hr. unfold read, alloc. simpl. now rewrite app_nth1.
Qed.

Lemma read_alloc_new (a : list LogEntry) (s : Store) :
  read (snd (alloc a s)) (fst (alloc a s)) = a.
Proof.
  unfold read, alloc. simpl. rewrite app_nth2, Nat.sub_diag; [reflexivity|lia].
Qed.

Lemma read_write_other (r r' : Ref) (a : list LogEntry) (s : Store) :
  r <> r' -> read (write r a s) r' = read s r'.
Proof.
  unfold read. revert r r'.
  induction s as [|x s IH]; intros r r' Hne; simpl.
  - reflexivity.
  - destruct r as [|r]; destruct r' as [|r']; simpl; try reflexivity.
    + congruence.
    + apply IH. congruence.
Qed.

Lemma read_write_same (r : Ref) (a : list LogEntry) (s : Store) :
  (r < List.length s)%nat -> read (write r a s) r = a.
Proof.
  unfold read. revert r.
  induction s as [|x s IH]; intros r Hr; simpl in *.
  - lia.
  - destruct r as [|r]; simpl; [reflexivity|]. apply IH. lia.
Qed.

Lemma read_beyond (s : Store) (r : Ref) :
  (List.length s <= r)%nat -> read s r = [].
Proof. intros Hr. unfold read. now apply nth_overflow. Qed.

End ExportFacts.

(** C5.  On an empty collection [handleExportData] offers no file and
    shows the notice; on a non-empty one it offers exactly one file, whose
    entries are those of the collection in non-decreasing timestamp order;
    either way the array held in the state, like every array that existed
    before, has the contents it had. *)
Theorem handleExportData_read_only (t : Z) (logs : ExportData.Ref)
  (w : ExportData.World) :
  let w' := ExportData.handleExportData t logs w in
  let stored := ExportData.read (ExportData.store w) logs in
  (stored = [] ->
     ExportData.downloads w' = ExportData.downloads w /\
     ExportData.shown w' = ExportData.shown w ++ ["No data to export."])
  /\ (stored <> [] ->
      exists f, ExportData.downloads w' = ExportData.downloads w ++ [f] /\
                Permutation (ExportData.document f) stored /\
                timestampsNonDecreasing (ExportData.document f) /\
                ExportData.shown w' = ExportData.shown w)
  /\ ExportData.read (ExportData.store w') logs = stored
  /\ (forall r, (r < List.length (ExportData.store w))%nat ->
        ExportData.read (ExportData.store w') r =
        ExportData.read (ExportData.store w) r).
Proof.
  intros w' stored.
  assert (Hsorted :
    stored <> [] ->
    ExportData.store w' =
      ExportData.write (List.length (ExportData.store w))
        (JS.sort byTimestampAsc stored) (ExportData.store w ++ [stored]) /\
    ExportData.downloads w' = ExportData.downloads w ++
      [{| ExportData.fileName :=
            ("ibs_tracker_data_" ++ ExportData.isoDate t ++ ".json")%string;
          ExportData.document := JS.sort byTimestampAsc stored |}] /\
    ExportData.shown w' = ExportData.shown w).
  { intros Hne. unfold w', ExportData.handleExportData. fold stored.
    destruct stored as [|e l] eqn:Hst; [congruence|]. simpl Nat.eqb. cbv iota.
    unfold ExportData.spread, ExportData.alloc. fold stored. rewrite Hst.
    unfold ExportData.sortInPlace.
    assert (Hnew : ExportData.read (ExportData.store w ++ [e :: l])
                     (List.length (ExportData.store w)) = e :: l).
    { rewrite <- Hst. apply (ExportFacts.read_alloc_new stored). }
    rewrite Hnew. cbv zeta. simpl ExportData.store. simpl ExportData.downloads.
    simpl ExportData.shown.
    rewrite ExportFacts.read_write_same
      by (rewrite length_app; simpl; lia).
    repeat split. }
  assert (Hempty : stored = [] -> w' =
    {| ExportData.store := ExportData.store w;
       ExportData.shown := ExportData.shown w ++ ["No data to export."];
       ExportData.downloads := ExportData.downloads w |}).
  { intros He. unfold w', ExportData.handleExportData. fold stored.
    rewrite He. reflexivity. }
  assert (Hframe : forall r, (r < List.length (ExportData.store w))%nat ->
            ExportData.read (ExportData.store w') r =
            ExportData.read (ExportData.store w) r).
  { intros r Hr. destruct stored as [|e l] eqn:Hst.
    - rewrite Hempty by reflexivity. reflexivity.
    - destruct Hsorted as (-> & _ & _); [discriminate|].
      rewrite ExportFacts.read_write_other by lia.
      apply (ExportFacts.read_alloc (e :: l)). exact Hr. }
  split; [|split; [|split]].
  - intros He. rewrite (Hempty He). split; reflexivity.
  - intros Hne. destruct (Hsorted Hne) as (_ & Hd & Hs).
    eexists. split; [exact Hd|]. simpl. split; [apply sort_perm|].
    split; [apply sort_asc_sorted|exact Hs].
  - destruct (Nat.lt_ge_cases logs (List.length (ExportData.store w))) as [Hr|Hr].
    + now apply Hframe.
    + assert (He : stored = []) by (now apply ExportFacts.read_beyond).
      rewrite (Hempty He). reflexivity.
  - exact Hframe.
Qed.

Lemma handleExportData_read_only_witness :
  let w := {| ExportData.store := [sampleLogs]; ExportData.shown := [];
              ExportData.downloads := [] |} in
  exists f,
    ExportData.downloads (ExportData.handleExportData (jan1 + 40 * hour) 0%nat w)
      = [f] /\
    Permutation (ExportData.document f) sampleLogs /\
    timestampsNonDecreasing (ExportData.document f) /\
    ExportData.shown (ExportData.handleExportData (jan1 + 40 * hour) 0%nat w) = [].
Proof.
  intros w.
  refine (proj1 (proj2 (handleExportData_read_only (jan1 + 40 * hour) 0%nat w)) _).
  discriminate.
Defined.

(** ** The forms: an edited date that does not parse *)

(** C4.  When an existing entry is edited and the date/time string parses
    to [NaN], [handleSubmit] of each form does nothing but show an alert:
    its result is the state with one more alert whatever [onSave] is, so
    [onSave] is not called and the collection is the stored one. *)
Theorem unparseable_edit_is_blocked (h : Host) (e : LogEntry)
  (editedDateTime : string) :
  parseInputTimestamp h editedDateTime = JS.NaN ->
  (forall onSave lvl notes st,
     StressForm.handleSubmit h onSave (Some e) lvl notes editedDateTime st
     = alert invalidDateMessage st)
  /\ (forall onSave what amount notes st,
        exists msg,
          IntakeForm.handleSubmit h onSave (Some e) what amount notes
            editedDateTime st = alert msg st)
  /\ (forall onSave bowel c b u notes st,
        SymptomForm.handleSubmit h onSave (Some e) bowel c b u notes
          editedDateTime st = alert invalidDateMessage st)
  /\ (forall env lvl notes st,
        let st' := StressForm.handleSubmit h (handleSaveStress h env) (Some e)
                     lvl notes editedDateTime st in
        logs st' = logs st /\ alerts st' = alerts st ++ [invalidDateMessage])
  /\ (forall env what amount notes st,
        let st' := IntakeForm.handleSubmit h (handleSaveIntake h env) (Some e)
                     what amount notes editedDateTime st in
        logs st' = logs st /\ exists msg, alerts st' = alerts st ++ [msg]).
Proof.
  intros Hnan.
  assert (HS : forall onSave lvl notes st,
     StressForm.handleSubmit h onSave (Some e) lvl notes editedDateTime st
     = alert invalidDateMessage st).
  { intros. unfold StressForm.handleSubmit. simpl isEditing. cbv iota.
    rewrite Hnan. reflexivity. }
  assert (HI : forall onSave what amount notes st,
        exists msg,
          IntakeForm.handleSubmit h onSave (Some e) what amount notes
            editedDateTime st = alert msg st).
  { intros. unfold IntakeForm.handleSubmit.
    destruct (negb (JS.truthyStr (JS.trim what))).
    - eexists. reflexivity.
    - simpl isEditing. cbv iota. rewrite Hnan. eexists. reflexivity. }
  repeat split.
  - exact HS.
  - exact HI.
  - intros. unfold SymptomForm.handleSubmit. simpl isEditing. cbv iota.
    rewrite Hnan. reflexivity.
  - rewrite HS. reflexivity.
  - rewrite HS. reflexivity.
  - destruct (HI (handleSaveIntake h env) what amount notes st) as [msg ->].
    reflexivity.
  - destruct (HI (handleSaveIntake h env) what amount notes st) as [msg ->].
    exists msg. reflexivity.
Qed.

Lemma unparseable_edit_is_blocked_witness :
  let env := {| now := jan1 + 40 * hour; uuidv4 := "unused" |} in
  let st' := StressForm.handleSubmit utcHost (handleSaveStress utcHost env)
               (Some (stressEntry "s1" (jan1 + 30 * hour) 2))
               5 "worse" "2024-13-01T10:00" (initialState sampleLogs) in
  logs st' = sampleLogs /\ alerts st' = [] ++ [invalidDateMessage].
Proof.
  intros env.
  refine (proj1 (proj2 (proj2 (proj2
    (unparseable_edit_is_blocked utcHost
       (stressEntry "s1" (jan1 + 30 * hour) 2) "2024-13-01T10:00" _))))
    env 5 "worse" (initialState sampleLogs)).
  reflexivity.
Defined.

(** ** The once-a-day guard on stress entries *)

Lemma hd_sorted_desc_max (l : list LogEntry) (x : LogEntry) :
  hd_error (JS.sort byTimestampDesc l) = Some x ->
  In x l /\ forall e, In e l -> timestamp e <= timestamp x.
Proof.
  intros Hhd.
  pose proof (sort_desc_sorted l) as Hs.
  pose proof (sort_perm byTimestampDesc l) as Hp.
  destruct (JS.sort byTimestampDesc l) as [|y s]; [discriminate|].
  injection Hhd as ->.
  split.
  - apply (Permutation_in _ Hp). now left.
  - intros e He. apply (Permutation_in _ (Permutation_sym Hp)) in He.
    inversion Hs as [|? ? _ Hall]; subst.
    destruct He as [<-|He]; [lia|].
    rewrite Forall_forall in Hall. now apply Hall.
Qed.

Lemma lastStressLog_most_recent (l : list LogEntry) (x : LogEntry) :
  lastStressLog l = Some x ->
  In x l /\ isStress x = true /\
  forall e, In e l -> isStress e = true -> timestamp e <= timestamp x.
Proof.
  intros Hx. apply hd_sorted_desc_max in Hx. destruct Hx as [Hin Hmax].
  apply filter_In in Hin. destruct Hin as [Hin Hst].
  repeat split; try assumption.
  intros e He Hse. apply Hmax. apply filter_In. now split.
Qed.

(** C3 (as amended).  [handleSaveStress] decides on the flag
    [stressLoggedToday]: with the flag set, a creation is refused, the
    collection stays as it is and the user is told; with the flag clear, the
    creation goes through; a save that carries a non-empty id and a
    timestamp other than 0 is an update and is not subject to the flag.
    The flag is what [checkStressLogStatus] last stored: whether the most
    recent stress entry (the one no stress entry is later than) fell on the
    local calendar day of that check.  So when the flag has been refreshed
    at the instant of the save, a creation is refused if the most recent
    stress entry is of the current day and goes through if no stress entry
    is. *)
Theorem handleSaveStress_guard (h : Host) (env : Env)
  (data : FormData StressFields) (st : AppState) :
  let st' := handleSaveStress h env data st in
  (isUpdate data = false -> stressLoggedToday st = true ->
     logs st' = logs st /\ alerts st' = alerts st ++ [stressAlready])
  /\ (isUpdate data = false -> stressLoggedToday st = false ->
      st' = createLogEntry env (withType StressBody data) st /\
      In {| id := uuidv4 env; timestamp := now env;
            body := StressBody (formFields data) |} (logs st'))
  /\ (isUpdate data = true ->
      exists ts, formTimestamp data = JS.Num ts /\ ts <> 0 /\
        formId data <> "" /\
        st' = updateLogEntry h env
                {| id := formId data; timestamp := ts;
                   body := StressBody (formFields data) |} st)
  /\ (forall t, stressLoggedToday (afterRender h t st) = true <->
        exists l, lastStressLog (logs st) = Some l /\
                  isToday h t (timestamp l) = true)
  /\ (forall l, lastStressLog (logs st) = Some l ->
        In l (logs st) /\ isStress l = true /\
        forall e, In e (logs st) -> isStress e = true ->
                  timestamp e <= timestamp l)
  /\ (let fresh := handleSaveStress h env data (afterRender h (now env) st) in
      isUpdate data = false ->
      ((exists l, lastStressLog (logs st) = Some l /\
                  isToday h (now env) (timestamp l) = true) ->
       logs fresh = logs st /\ alerts fresh = alerts st ++ [stressAlready])
      /\ (stressOnDayOf h (now env) (logs st) = false ->
          Permutation (logs fresh)
            (logs st ++ [{| id := uuidv4 env; timestamp := now env;
                            body := StressBody (formFields data) |}]))).
Proof.
  intros st'.
  assert (Hsynced : forall t,
    stressLoggedToday (afterRender h t st) = true <->
    exists l, lastStressLog (logs st) = Some l /\
              isToday h t (timestamp l) = true).
  { intros t. unfold afterRender, checkStressLogStatus. simpl.
    destruct (lastStressLog (logs st)) as [l|].
    + split; [intros Ht; exists l; now split|].
      intros (l' & Hl' & Ht). now injection Hl' as ->.
    + split; [discriminate|]. intros (l' & Hl' & _). discriminate. }
  assert (Hcreate : isUpdate data = false ->
    st' = if stressLoggedToday st
          then setActiveView viewLog (alert stressAlready st)
          else createLogEntry env (withType StressBody data) st).
  { unfold st', handleSaveStress, isUpdate. cbv zeta.
    intros ->. reflexivity. }
  split; [|split; [|split; [|split; [|split]]]].
  - intros Hc Hflag. rewrite (Hcreate Hc), Hflag. split; reflexivity.
  - intros Hc Hflag. rewrite (Hcreate Hc), Hflag. split; [reflexivity|].
    apply (createLogEntry_fresh_in env (withType StressBody data) st).
  - unfold st', handleSaveStress, isUpdate. cbv zeta. intros Hu. rewrite Hu.
    apply andb_prop in Hu. destruct Hu as [Hid Hts].
    unfold asLogEntry, withType. cbn [dataTimestamp dataId dataBody].
    destruct (formTimestamp data) as [ts|]; [|discriminate].
    exists ts. repeat split.
    + simpl in Hts. intros ->. discriminate.
    + intros Hempty. rewrite Hempty in Hid. discriminate.
  - exact Hsynced.
  - apply lastStressLog_most_recent.
  - intros fresh Hc.
    assert (Hfresh : fresh =
      if stressLoggedToday (afterRender h (now env) st)
      then setActiveView viewLog
             (alert stressAlready (afterRender h (now env) st))
      else createLogEntry env (withType StressBody data)
             (afterRender h (now env) st)).
    { unfold fresh, handleSaveStress. cbv zeta.
      unfold isUpdate in Hc. rewrite Hc. reflexivity. }
    split.
    + intros Hlast. apply Hsynced in Hlast. rewrite Hfresh, Hlast.
      split; reflexivity.
    + intros Hnone.
      destruct (stressLoggedToday (afterRender h (now env) st)) eqn:Hflag.
      * exfalso. apply Hsynced in Hflag. destruct Hflag as (l & Hl & Ht).
        apply lastStressLog_most_recent in Hl. destruct Hl as (Hin & Hs & _).
        unfold stressOnDayOf in Hnone.
        assert (Hex : existsb (fun e => isStress e &&
                        isToday h (now env) (timestamp e)) (logs st) = true).
        { apply existsb_exists. exists l. split; [exact Hin|].
          now rewrite Hs, Ht. }
        congruence.
      * rewrite Hfresh, logs_createLogEntry. apply sort_perm.
Qed.

Lemma handleSaveStress_guard_witness :
  let env := {| now := jan1 + 31 * hour; uuidv4 := "u2" |} in
  let st := afterRender utcHost (now env) (initialState sampleLogs) in
  let st' := handleSaveStress utcHost env (newStress 4) st in
  logs st' = logs st /\ alerts st' = alerts st ++ [stressAlready].
Proof.
  intros env st.
  refine (proj1 (handleSaveStress_guard utcHost env (newStress 4) st) _ _);
    reflexivity.
Defined.

(** C3, the claim as stated fails both ways, on states the handlers
    themselves produce.  (a) A stress entry is created at 23:58; at 00:01
    of the next day, before the timer has run, there is no stress entry on
    the current day and yet a creation is refused.  (b) A stress entry is
    moved by an edit to 10:00 of the next day; at 00:01 of that day the
    most recent stress entry is on the current day and yet a creation goes
    through. *)
Lemma stress_guard_follows_stale_flag :
  (let env1 := {| now := jan1 + 23 * hour + 58 * minute; uuidv4 := "u1" |} in
   let env2 := {| now := jan1 + 24 * hour + minute; uuidv4 := "u2" |} in
   let st1 := afterRender utcHost (now env1)
                (handleSaveStress utcHost env1 (newStress 3) (initialState [])) in
   let st2 := handleSaveStress utcHost env2 (newStress 1) st1 in
   logs st1 = [stressEntry "u1" (now env1) 3]
   /\ stressOnDayOf utcHost (now env2) (logs st1) = false
   /\ logs st2 = logs st1
   /\ alerts st2 = [stressAlready])
  /\
  (let env1 := {| now := jan1 + 11 * hour; uuidv4 := "unused" |} in
   let env2 := {| now := jan1 + 24 * hour + minute; uuidv4 := "u2" |} in
   let st0 := afterRender utcHost (now env1)
                (initialState [stressEntry "s1" (jan1 + 10 * hour) 2]) in
   let edit := {| formId := "s1"; formTimestamp := JS.Num (jan1 + 34 * hour);
                  formFields := mkStress 2 None |} in
   let st1 := afterRender utcHost (now env1)
                (handleSaveStress utcHost env1 edit st0) in
   let st2 := timerTick utcHost (jan1 + 23 * hour + 58 * minute) st1 in
   let st3 := handleSaveStress utcHost env2 (newStress 4) st2 in
   lastStressLog (logs st2) = Some (stressEntry "s1" (jan1 + 34 * hour) 2)
   /\ isToday utcHost (now env2) (jan1 + 34 * hour) = true
   /\ logs st3 = [ stressEntry "s1" (jan1 + 34 * hour) 2;
                   stressEntry "u2" (now env2) 4 ]
   /\ alerts st3 = []).
Proof.
  split; vm_compute; repeat split.
Qed.

(** ** The aggregation: the object [dailyData] *)

Lemma lookup_app (k : string) (d d' : DailyData) :
  lookup k (d ++ d') =
  match lookup k d with Some v => Some v | None => lookup k d' end.
Proof.
  induction d as [|[k0 v0] d IH]; simpl; [reflexivity|].
  destruct (String.eqb k0 k); [reflexivity|exact IH].
Qed.

Lemma lookup_modify (k k' : string) (f : ChartDataPoint -> ChartDataPoint)
  (d : DailyData) :
  lookup k (modify k' f d) =
  if String.eqb k' k then option_map f (lookup k d) else lookup k d.
Proof.
  induction d as [|[k0 v0] d IH]; simpl.
  - now destruct (String.eqb k' k).
  - destruct (String.eqb_spec k0 k') as [->|Hne]; simpl.
    + destruct (String.eqb_spec k' k) as [->|Hne']; reflexivity.
    + destruct (String.eqb_spec k0 k) as [->|Hne'].
      * destruct (String.eqb_spec k' k); [congruence|reflexivity].
      * exact IH.
Qed.

Lemma keys_modify (k : string) (f : ChartDataPoint -> ChartDataPoint)
  (d : DailyData) : map fst (modify k f d) = map fst d.
Proof.
  induction d as [|[k0 v0] d IH]; simpl; [reflexivity|].
  destruct (String.eqb k0 k); simpl; [reflexivity|now rewrite IH].
Qed.

Lemma lookup_None (k : string) (d : DailyData) :
  lookup k d = None <-> ~ In k (map fst d).
Proof.
  induction d as [|[k0 v0] d IH]; simpl.
  - tauto.
  - destruct (String.eqb_spec k0 k) as [->|Hne].
    + split; [discriminate|]. intros Hn. exfalso. apply Hn. now left.
    + rewrite IH. tauto.
Qed.

Lemma lookup_Some_In (k : string) (v : ChartDataPoint) (d : DailyData) :
  lookup k d = Some v -> In (k, v) d.
Proof.
  induction d as [|[k0 v0] d IH]; simpl; [discriminate|].
  destruct (String.eqb_spec k0 k) as [->|Hne].
  - intros [= ->]. now left.
  - intros Hl. right. now apply IH.
Qed.

Lemma In_lookup (k : string) (v : ChartDataPoint) (d : DailyData) :
  NoDup (map fst d) -> In (k, v) d -> lookup k d = Some v.
Proof.
  induction d as [|[k0 v0] d IH]; simpl; [tauto|].
  intros Hnd [Heq|Hin].
  - injection Heq as -> ->. now rewrite String.eqb_refl.
  - inversion Hnd as [|? ? Hnotin Hnd']; subst.
    destruct (String.eqb_spec k0 k) as [->|Hne].
    + exfalso. apply Hnotin. change k with (fst (k, v)). now apply in_map.
    + now apply IH.
Qed.

Section ChartFacts.
Variable h : Host.

Lemma lookup_forEachLog (k : string) (d : DailyData) (log : LogEntry) :
  lookup k (forEachLog h d log) =
  if String.eqb (dateOf h log) k
  then Some (updatePoint log
               match lookup k d with Some p => p | None => emptyPoint k end)
  else lookup k d.
Proof.
  unfold forEachLog. fold (dateOf h log). rewrite lookup_modify.
  destruct (String.eqb_spec (dateOf h log) k) as [Heq|Hne].
  - rewrite Heq. destruct (lookup k d) as [p|] eqn:Hl.
    + now rewrite Hl.
    + unfold addKey. rewrite lookup_app, Hl. simpl.
      now rewrite String.eqb_refl.
  - destruct (lookup (dateOf h log) d) as [p|]; [reflexivity|].
    unfold addKey. rewrite lookup_app. destruct (lookup k d); [reflexivity|].
    simpl. destruct (String.eqb_spec (dateOf h log) k); [contradiction|reflexivity].
Qed.

Lemma keys_forEachLog (d : DailyData) (log : LogEntry) :
  NoDup (map fst d) -> NoDup (map fst (forEachLog h d log)).
Proof.
  intros Hnd. unfold forEachLog. fold (dateOf h log). rewrite keys_modify.
  destruct (lookup (dateOf h log) d) as [p|] eqn:Hl; [exact Hnd|].
  unfold addKey. rewrite map_app. simpl.
  apply lookup_None in Hl.
  apply NoDup_rev in Hnd. rewrite <- (rev_involutive (_ ++ _)).
  apply NoDup_rev. rewrite rev_app_distr. simpl. constructor; [|exact Hnd].
  now rewrite <- in_rev.
Qed.

Lemma keys_fold (l : list LogEntry) (d : DailyData) :
  NoDup (map fst d) -> NoDup (map fst (fold_left (forEachLog h) l d)).
Proof.
  revert d. induction l as [|e l IH]; intros d Hnd; simpl; [exact Hnd|].
  apply IH. now apply keys_forEachLog.
Qed.

Lemma lookup_fold (k : string) (l : list LogEntry) (d : DailyData) :
  lookup k (fold_left (forEachLog h) l d) =
  match entriesOn h k l with
  | [] => lookup k d
  | es => Some (fold_left (fun p e => updatePoint e p) es
                  match lookup k d with Some p => p | None => emptyPoint k end)
  end.
Proof.
  revert d. induction l as [|e l IH]; intros d; simpl; [reflexivity|].
  rewrite IH, lookup_forEachLog. unfold entriesOn at 2. simpl filter.
  fold (dateOf h e). fold (entriesOn h k l).
  destruct (String.eqb (dateOf h e) k); [|reflexivity].
  simpl. now destruct (entriesOn h k l).
Qed.

(** The buckets of the result are exactly the buckets of the dates that
    occur, each built from that date's entries in sorted order. *)
Lemma In_processChartData (logs : list LogEntry) (p : ChartDataPoint) :
  In p (processChartData h logs) <->
  exists k, entriesOn h k (JS.sort byTimestampAsc logs) <> [] /\
            p = bucketOf h k (JS.sort byTimestampAsc logs).
Proof.
  unfold processChartData. cbv zeta. rewrite sort_In. unfold values.
  set (sorted := JS.sort byTimestampAsc logs).
  set (dd := fold_left (forEachLog h) sorted []).
  assert (Hnd : NoDup (map fst dd)) by (apply keys_fold; constructor).
  assert (Hl : forall k, lookup k dd =
            match entriesOn h k sorted with
            | [] => None
            | _ => Some (bucketOf h k sorted)
            end).
  { intros k. unfold dd. rewrite lookup_fold. unfold bucketOf.
    now destruct (entriesOn h k sorted). }
  rewrite in_map_iff. split.
  - intros ([k v] & <- & Hin). simpl. exists k.
    apply (In_lookup _ _ _ Hnd) in Hin. rewrite Hl in Hin.
    destruct (entriesOn h k sorted); [discriminate|].
    injection Hin as <-. split; [discriminate|reflexivity].
  - intros (k & Hne & ->). exists (k, bucketOf h k sorted). split; [reflexivity|].
    apply lookup_Some_In. rewrite Hl.
    destruct (entriesOn h k sorted); [congruence|reflexivity].
Qed.

End ChartFacts.

(** ** The aggregation: the channels of a bucket *)

Lemma maximum_None (l : list Z) : maximum l = None <-> l = [].
Proof.
  destruct l as [|x l]; simpl; [tauto|].
  destruct (maximum l); split; discriminate.
Qed.

Lemma maximum_spec (l : list Z) (m : Z) :
  maximum l = Some m -> In m l /\ Forall (fun v => v <= m) l.
Proof.
  revert m. induction l as [|x l IH]; simpl; [discriminate|].
  intros m. destruct (maximum l) as [m'|] eqn:Hm.
  - intros [= <-]. destruct (IH m' eq_refl) as [Hin Hall]. split.
    + destruct (Z.max_spec x m') as [[_ ->]|[_ ->]]; auto.
    + constructor; [lia|].
      eapply Forall_impl; [|exact Hall]. simpl. intros; lia.
  - intros [= <-]. apply maximum_None in Hm. subst l.
    split; [now left|]. constructor; [lia|constructor].
Qed.

Lemma maximum_perm (l l' : list Z) :
  Permutation l l' -> maximum l = maximum l'.
Proof.
  induction 1 as [|x l l' _ IH|x y l|l l' l'' _ IH1 _ IH2]; simpl.
  - reflexivity.
  - now rewrite IH.
  - destruct (maximum l); f_equal; lia.
  - congruence.
Qed.

Lemma runningMax_maximum (vals : list Z) (acc : option Z) :
  runningMax acc vals =
  match maximum vals with
  | None => acc
  | Some m => Some (Z.max (JS.nullish acc 0) m)
  end.
Proof.
  unfold runningMax. revert acc.
  induction vals as [|v vals IH]; intros acc; simpl; [reflexivity|].
  rewrite IH. destruct (maximum vals); simpl; f_equal; lia.
Qed.

Lemma Permutation_filter {A : Type} (f : A -> bool) (l l' : list A) :
  Permutation l l' -> Permutation (filter f l) (filter f l').
Proof.
  induction 1 as [|x l l' _ IH|x y l|l l' l'' _ IH1 _ IH2]; simpl.
  - constructor.
  - destruct (f x); [now constructor|exact IH].
  - destruct (f x), (f y); try reflexivity. apply perm_swap.
  - now transitivity (filter f l').
Qed.

Lemma Permutation_defined {A : Type} (f : A -> option Z) (l l' : list A) :
  Permutation l l' -> Permutation (defined f l) (defined f l').
Proof.
  induction 1 as [|x l l' _ IH|x y l|l l' l'' _ IH1 _ IH2]; simpl.
  - constructor.
  - destruct (f x); [now constructor|exact IH].
  - destruct (f x), (f y); try reflexivity. apply perm_swap.
  - now transitivity (defined f l').
Qed.

Lemma In_defined {A : Type} (f : A -> option Z) (l : list A) (v : Z) :
  In v (defined f l) <-> exists x, In x l /\ f x = Some v.
Proof.
  induction l as [|x l IH]; simpl.
  - split; [tauto|]. intros (x & [] & _).
  - destruct (f x) as [w|] eqn:Hfx; simpl; rewrite IH; split.
    + intros [<-|(y & Hy & Hfy)]; [exists x|exists y]; auto.
    + intros (y & [<-|Hy] & Hfy); [left; congruence|right; exists y; auto].
    + intros (y & Hy & Hfy). exists y. auto.
    + intros (y & [<-|Hy] & Hfy); [congruence|exists y; auto].
Qed.

Lemma cramps_updatePoint (e : LogEntry) (p : ChartDataPoint) :
  cramps (updatePoint e p) =
  match crampsOf e with
  | Some s => Some (Z.max (JS.nullish (cramps p) 0) s)
  | None => cramps p
  end.
Proof.
  unfold updatePoint, crampsOf. destruct (body e) as [f|f|f]; try reflexivity.
  destruct (crampsSeverity f), (bloatingSeverity f); reflexivity.
Qed.

Lemma bloating_updatePoint (e : LogEntry) (p : ChartDataPoint) :
  bloating (updatePoint e p) =
  match bloatingOf e with
  | Some s => Some (Z.max (JS.nullish (bloating p) 0) s)
  | None => bloating p
  end.
Proof.
  unfold updatePoint, bloatingOf. destruct (body e) as [f|f|f]; try reflexivity.
  destruct (crampsSeverity f), (bloatingSeverity f); reflexivity.
Qed.

Lemma stress_updatePoint (e : LogEntry) (p : ChartDataPoint) :
  stressLevel (updatePoint e p) =
  match stressOf e with
  | Some v => Some v
  | None => stressLevel p
  end.
Proof.
  unfold updatePoint, stressOf. destruct (body e) as [f|f|f]; try reflexivity.
  destruct (crampsSeverity f), (bloatingSeverity f); reflexivity.
Qed.

Lemma date_updatePoint (e : LogEntry) (p : ChartDataPoint) :
  date (updatePoint e p) = date p.
Proof.
  unfold updatePoint. destruct (body e) as [f|f|f]; try reflexivity.
  destruct (crampsSeverity f), (bloatingSeverity f); reflexivity.
Qed.

Lemma lastOf_cons {A : Type} (x : A) (l : list A) :
  lastOf (x :: l) = match lastOf l with Some y => Some y | None => Some x end.
Proof.
  destruct l as [|y l]; [reflexivity|].
  change (lastOf (x :: y :: l)) with (lastOf (y :: l)).
  destruct (lastOf (y :: l)) eqn:Hl; [reflexivity|].
  exfalso. revert y Hl. induction l as [|z l IH]; intros y Hl.
  - discriminate.
  - apply (IH z). exact Hl.
Qed.

Lemma bucket_fields (es : list LogEntry) (p : ChartDataPoint) :
  let q := fold_left (fun p e => updatePoint e p) es p in
  date q = date p
  /\ cramps q = runningMax (cramps p) (defined crampsOf es)
  /\ bloating q = runningMax (bloating p) (defined bloatingOf es)
  /\ stressLevel q = match lastOf (defined stressOf es) with
                     | Some v => Some v
                     | None => stressLevel p
                     end.
Proof.
  revert p. induction es as [|e es IH]; intros p; simpl.
  - repeat split.
  - destruct (IH (updatePoint e p)) as (Hd & Hc & Hb & Hs).
    rewrite Hd, Hc, Hb, Hs, date_updatePoint, cramps_updatePoint,
      bloating_updatePoint, stress_updatePoint.
    unfold runningMax.
    repeat split.
    + now destruct (crampsOf e).
    + now destruct (bloatingOf e).
    + destruct (stressOf e) as [v|]; [|reflexivity].
      rewrite lastOf_cons. now destruct (lastOf (defined stressOf es)).
Qed.

Section ChannelFacts.
Variable h : Host.

Lemma entriesOn_sorted (d : string) (logs : list LogEntry) :
  Permutation (entriesOn h d (JS.sort byTimestampAsc logs)) (entriesOn h d logs).
Proof. apply Permutation_filter, sort_perm. Qed.

(** What each channel of a bucket of the result holds. *)
Lemma channels_of_point (logs : list LogEntry) (p : ChartDataPoint) :
  In p (processChartData h logs) ->
  let today := entriesOn h (date p) logs in
  today <> []
  /\ cramps p = option_map (Z.max 0) (maximum (defined crampsOf today))
  /\ bloating p = option_map (Z.max 0) (maximum (defined bloatingOf today))
  /\ stressLevel p =
     lastOf (defined stressOf
               (entriesOn h (date p) (JS.sort byTimestampAsc logs))).
Proof.
  intros Hin. apply In_processChartData in Hin. destruct Hin as (k & Hne & ->).
  destruct (bucket_fields (entriesOn h k (JS.sort byTimestampAsc logs))
              (emptyPoint k)) as (Hd & Hc & Hb & Hs).
  fold (bucketOf h k (JS.sort byTimestampAsc logs)) in Hd, Hc, Hb, Hs.
  simpl in Hd. rewrite Hd. cbv zeta.
  pose proof (entriesOn_sorted k logs) as Hp.
  repeat split.
  - intros He. rewrite He in Hp. apply Permutation_sym, Permutation_nil in Hp.
    contradiction.
  - rewrite Hc, runningMax_maximum.
    rewrite (maximum_perm _ _ (Permutation_defined crampsOf _ _ Hp)).
    now destruct (maximum _).
  - rewrite Hb, runningMax_maximum.
    rewrite (maximum_perm _ _ (Permutation_defined bloatingOf _ _ Hp)).
    now destruct (maximum _).
  - rewrite Hs. now destruct (lastOf _).
Qed.

End ChannelFacts.

Lemma nonneg_maximum (l : list Z) :
  (forall v, In v l -> 0 <= v) ->
  option_map (Z.max 0) (maximum l) = maximum l.
Proof.
  intros Hl. destruct (maximum l) as [m|] eqn:Hm; [|reflexivity].
  apply maximum_spec in Hm. destruct Hm as [Hin _].
  simpl. f_equal. specialize (Hl m Hin). lia.
Qed.

(** C1.  When every defined severity lies in 0..5, the [cramps] channel of
    each bucket is the greatest [crampsSeverity] that the symptom entries of
    the bucket's date define, and [null] exactly when none of them defines
    one (so a recorded 0 gives 0, not [null]); likewise [bloating].  The
    example of the specification aggregates as stated, on any host and for
    any instants that fall on the two dates. *)
Theorem processChartData_daily_maximum (h : Host) :
  (forall logs, severitiesInRange logs ->
     forall p, In p (processChartData h logs) ->
       let today := entriesOn h (date p) logs in
       cramps p = maximum (defined crampsOf today)
       /\ bloating p = maximum (defined bloatingOf today)
       /\ (cramps p = None <-> defined crampsOf today = [])
       /\ (bloating p = None <-> defined bloatingOf today = []))
  /\ (forall i1 i2 i3 t1 t2 t3,
        formatTimestampToDateString h t1 = "2024-01-01" ->
        formatTimestampToDateString h t2 = "2024-01-01" ->
        formatTimestampToDateString h t3 = "2024-01-02" ->
        processChartData h
          [ symptomEntry i1 t1 (Some 3) None;
            symptomEntry i2 t2 (Some 5) None;
            stressEntry i3 t3 2 ]
        = [ {| date := "2024-01-01"; cramps := Some 5; bloating := None;
               stressLevel := None |};
            {| date := "2024-01-02"; cramps := None; bloating := None;
               stressLevel := Some 2 |} ]).
Proof.
  split.
  - intros logs Hrange p Hin today.
    destruct (channels_of_point h logs p Hin) as (_ & Hc & Hb & _).
    fold today in Hc, Hb.
    assert (Hcn : forall v, In v (defined crampsOf today) -> 0 <= v).
    { intros v Hv. apply In_defined in Hv. destruct Hv as (e & He & Hv).
      apply filter_In in He. destruct He as [He _].
      apply (Hrange e He) in Hv. lia. }
    assert (Hbn : forall v, In v (defined bloatingOf today) -> 0 <= v).
    { intros v Hv. apply In_defined in Hv. destruct Hv as (e & He & Hv).
      apply filter_In in He. destruct He as [He _].
      apply (Hrange e He) in Hv. lia. }
    rewrite (nonneg_maximum _ Hcn) in Hc.
    rewrite (nonneg_maximum _ Hbn) in Hb.
    rewrite Hc, Hb. repeat split; try apply maximum_None.
  - intros i1 i2 i3 t1 t2 t3 H1 H2 H3.
    unfold processChartData, symptomEntry, stressEntry. cbv zeta.
    cbn [JS.sort JS.insert]. unfold byTimestampAsc. cbn [timestamp].
    repeat match goal with
           | |- context [?a - ?b <=? 0] =>
               destruct (a - b <=? 0); cbn [JS.insert]
           end;
      cbn [fold_left]; unfold forEachLog; cbn [timestamp];
      rewrite ?H1, ?H2, ?H3; reflexivity.
Qed.

Lemma processChartData_daily_maximum_witness :
  (let p := {| date := "2024-01-01"; cramps := Some 5; bloating := Some 0;
               stressLevel := None |} in
   let today := entriesOn utcHost (date p) sampleLogs in
   cramps p = maximum (defined crampsOf today)
   /\ bloating p = maximum (defined bloatingOf today)
   /\ (cramps p = None <-> defined crampsOf today = [])
   /\ (bloating p = None <-> defined bloatingOf today = []))
  /\ processChartData utcHost
       [ symptomEntry "x" (jan1 + 8 * hour) (Some 3) None;
         symptomEntry "y" (jan1 + 2 * hour) (Some 5) None;
         stressEntry "z" (jan1 + 25 * hour) 2 ]
     = [ {| date := "2024-01-01"; cramps := Some 5; bloating := None;
            stressLevel := None |};
         {| date := "2024-01-02"; cramps := None; bloating := None;
            stressLevel := Some 2 |} ].
Proof.
  split.
  - refine (proj1 (processChartData_daily_maximum utcHost) sampleLogs _ _ _).
    + intros e He. simpl in He.
      destruct He as [<-|[<-|[<-|[<-|[]]]]];
        split; intros v Hv; vm_compute in Hv; try discriminate;
        injection Hv as <-; lia.
    + vm_compute. left. reflexivity.
  - refine (proj2 (processChartData_daily_maximum utcHost)
              "x" "y" "z" (jan1 + 8 * hour) (jan1 + 2 * hour)
              (jan1 + 25 * hour) _ _ _); reflexivity.
Defined.

(** C10.  Whatever the severities, a [cramps] or [bloating] channel that
    is not [null] is at least 0: the running maximum starts from 0, so a
    lone negative severity gives the value 0. *)
Theorem processChartData_channels_nonnegative (h : Host) :
  (forall logs p, In p (processChartData h logs) ->
     (forall v, cramps p = Some v -> 0 <= v) /\
     (forall v, bloating p = Some v -> 0 <= v))
  /\ (forall i t v w, v < 0 -> w < 0 ->
        processChartData h [symptomEntry i t (Some v) (Some w)]
        = [ {| date := formatTimestampToDateString h t; cramps := Some 0;
               bloating := Some 0; stressLevel := None |} ]).
Proof.
  split.
  - intros logs p Hin.
    destruct (channels_of_point h logs p Hin) as (_ & Hc & Hb & _).
    split; intros v Hv.
    + clear Hb. rewrite Hv in Hc.
      destruct (maximum _); simpl in Hc; [|discriminate].
      injection Hc as ->. lia.
    + clear Hc. rewrite Hv in Hb.
      destruct (maximum _); simpl in Hb; [|discriminate].
      injection Hb as ->. lia.
  - intros i t v w Hv Hw.
    unfold processChartData, symptomEntry. cbv zeta.
    cbn [JS.sort JS.insert fold_left]. unfold forEachLog. cbn [timestamp lookup].
    unfold addKey. cbn [app modify]. rewrite String.eqb_refl.
    cbn [values map snd JS.sort JS.insert].
    unfold updatePoint, emptyPoint, setCramps, setBloating. simpl.
    rewrite !Z.max_l by lia. reflexivity.
Qed.

Lemma processChartData_channels_nonnegative_witness :
  processChartData utcHost [symptomEntry "n" jan1 (Some (-3)) (Some (-1))]
  = [ {| date := "2024-01-01"; cramps := Some 0; bloating := Some 0;
         stressLevel := None |} ].
Proof.
  refine (proj2 (processChartData_channels_nonnegative utcHost)
            "n" jan1 (-3) (-1) _ _); reflexivity.
Defined.

(** ** Date strings and chronological order *)

Lemma digitsAux_unfold (fuel : nat) (n : Z) (acc : string) :
  JS.digitsAux (S fuel) n acc =
  if n <? 10 then String (JS.digitChar (n mod 10)) acc
  else JS.digitsAux fuel (n / 10) (String (JS.digitChar (n mod 10)) acc).
Proof. reflexivity. Qed.

Lemma digits_fuel (n : Z) (k : nat) :
  2 ^ Z.of_nat k <= n -> exists f, S (Z.to_nat (Z.log2 n)) = (S k + f)%nat.
Proof.
  intros Hn.
  assert (H0 : 0 < n) by (pose proof (Z.pow_pos_nonneg 2 (Z.of_nat k)); lia).
  apply Z.log2_le_pow2 in Hn; [|exact H0].
  exists (Z.to_nat (Z.log2 n) - k)%nat. lia.
Qed.

Lemma toString_one_digit (n : Z) :
  0 <= n < 10 -> JS.toString n = String (JS.digitChar n) "".
Proof.
  intros Hn. unfold JS.toString, JS.digits.
  destruct (Z.ltb_spec n 0); [lia|].
  rewrite digitsAux_unfold.
  destruct (Z.ltb_spec n 10); [|lia].
  now rewrite Z.mod_small.
Qed.

Lemma toString_two_digits (n : Z) :
  10 <= n < 100 ->
  JS.toString n =
  String (JS.digitChar (n / 10)) (String (JS.digitChar (n mod 10)) "").
Proof.
  intros Hn. unfold JS.toString, JS.digits.
  destruct (Z.ltb_spec n 0); [lia|].
  destruct (digits_fuel n 1) as [f ->]; [simpl; lia|].
  simpl plus. rewrite !digitsAux_unfold.
  destruct (Z.ltb_spec n 10); [lia|].
  destruct (Z.ltb_spec (n / 10) 10);
    [|exfalso; Z.div_mod_to_equations; lia].
  rewrite (Z.mod_small (n / 10)) by (Z.div_mod_to_equations; lia).
  reflexivity.
Qed.

Lemma toString_four_digits (n : Z) :
  1000 <= n <= 9999 ->
  JS.toString n =
  String (JS.digitChar (n / 10 / 10 / 10))
    (String (JS.digitChar (n / 10 / 10 mod 10))
       (String (JS.digitChar (n / 10 mod 10))
          (String (JS.digitChar (n mod 10)) ""))).
Proof.
  intros Hn. unfold JS.toString, JS.digits.
  destruct (Z.ltb_spec n 0); [lia|].
  destruct (digits_fuel n 3) as [f ->]; [simpl; lia|].
  simpl plus. rewrite !digitsAux_unfold.
  destruct (Z.ltb_spec n 10); [lia|].
  destruct (Z.ltb_spec (n / 10) 10);
    [exfalso; Z.div_mod_to_equations; lia|].
  destruct (Z.ltb_spec (n / 10 / 10) 10);
    [exfalso; Z.div_mod_to_equations; lia|].
  destruct (Z.ltb_spec (n / 10 / 10 / 10) 10);
    [|exfalso; Z.div_mod_to_equations; lia].
  rewrite (Z.mod_small (n / 10 / 10 / 10)) by (Z.div_mod_to_equations; lia).
  reflexivity.
Qed.

Lemma padStart_two (n : Z) :
  0 <= n < 100 ->
  JS.padStart 2 "0" (JS.toString n) =
  String (JS.digitChar (n / 10)) (String (JS.digitChar (n mod 10)) "").
Proof.
  intros Hn. destruct (Z.lt_ge_cases n 10) as [Hs|Hl].
  - rewrite toString_one_digit by lia.
    rewrite Z.div_small, Z.mod_small by lia. reflexivity.
  - rewrite toString_two_digits by lia. reflexivity.
Qed.

Lemma formatTimestampToDateString_padded (h : Host) (t : Z) :
  hostInRange h -> fourDigitYear (localTime h t) ->
  formatTimestampToDateString h t =
  paddedDate (getFullYear (localTime h t)) (getMonth (localTime h t) + 1)
    (getDate (localTime h t)).
Proof.
  intros Hh Hy. destruct (Hh t) as [Hm Hd].
  unfold formatTimestampToDateString. cbv zeta.
  rewrite toString_four_digits by exact Hy.
  rewrite !padStart_two by lia.
  reflexivity.
Qed.

Lemma digitChar_compare (a b : Z) :
  0 <= a <= 9 -> 0 <= b <= 9 ->
  Ascii.compare (JS.digitChar a) (JS.digitChar b) = (a ?= b).
Proof.
  intros Ha Hb. unfold Ascii.compare, JS.digitChar.
  rewrite !N_ascii_embedding by lia.
  rewrite <- N2Z.inj_compare, !N2Z.inj_add, !Z2N.id by lia.
  apply Z.add_compare_mono_l.
Qed.

Lemma compare_base10 (a b : Z) :
  (a ?= b) =
  match a / 10 ?= b / 10 with
  | Eq => a mod 10 ?= b mod 10
  | Lt => Lt
  | Gt => Gt
  end.
Proof.
  destruct (Z.compare_spec (a / 10) (b / 10)) as [He|Hl|Hg].
  - destruct (Z.compare_spec (a mod 10) (b mod 10)) as [He'|Hl'|Hg'].
    + apply Z.compare_eq_iff. Z.div_mod_to_equations. lia.
    + apply Z.compare_lt_iff. Z.div_mod_to_equations. lia.
    + apply Z.compare_gt_iff. Z.div_mod_to_equations. lia.
  - apply Z.compare_lt_iff. Z.div_mod_to_equations. lia.
  - apply Z.compare_gt_iff. Z.div_mod_to_equations. lia.
Qed.

Lemma paddedDate_compare (y1 m1 d1 y2 m2 d2 : Z) :
  1000 <= y1 <= 9999 -> 1000 <= y2 <= 9999 ->
  0 <= m1 < 100 -> 0 <= m2 < 100 -> 0 <= d1 < 100 -> 0 <= d2 < 100 ->
  String.compare (paddedDate y1 m1 d1) (paddedDate y2 m2 d2) =
  match y1 ?= y2 with
  | Eq => match m1 ?= m2 with
          | Eq => d1 ?= d2
          | c => c
          end
  | c => c
  end.
Proof.
  intros Hy1 Hy2 Hm1 Hm2 Hd1 Hd2.
  unfold paddedDate. cbn [String.compare].
  change (Ascii.compare "-" "-") with Eq. cbv iota.
  rewrite !digitChar_compare by (Z.div_mod_to_equations; lia).
  rewrite (compare_base10 y1 y2), (compare_base10 (y1 / 10) (y2 / 10)),
    (compare_base10 (y1 / 10 / 10) (y2 / 10 / 10)),
    (compare_base10 m1 m2), (compare_base10 d1 d2).
  destruct (y1 / 10 / 10 / 10 ?= y2 / 10 / 10 / 10); try reflexivity.
  destruct (y1 / 10 / 10 mod 10 ?= y2 / 10 / 10 mod 10); try reflexivity.
  destruct (y1 / 10 mod 10 ?= y2 / 10 mod 10); try reflexivity.
  destruct (y1 mod 10 ?= y2 mod 10); try reflexivity.
  destruct (m1 / 10 ?= m2 / 10); try reflexivity.
  destruct (m1 mod 10 ?= m2 mod 10); try reflexivity.
  destruct (d1 / 10 ?= d2 / 10); try reflexivity.
  destruct (d1 mod 10 ?= d2 mod 10); reflexivity.
Qed.

(** On four-digit years the order of the date strings is the order of the
    calendar dates. *)
Lemma formatTimestampToDateString_chronological (h : Host) (t1 t2 : Z) :
  hostInRange h ->
  fourDigitYear (localTime h t1) -> fourDigitYear (localTime h t2) ->
  String.compare (formatTimestampToDateString h t1)
                 (formatTimestampToDateString h t2)
  = compareDates (localTime h t1) (localTime h t2).
Proof.
  intros Hh H1 H2.
  rewrite !formatTimestampToDateString_padded by assumption.
  destruct (Hh t1) as [Hm1 Hd1]. destruct (Hh t2) as [Hm2 Hd2].
  rewrite paddedDate_compare by (assumption || lia).
  unfold compareDates.
  now rewrite (Z.add_comm (getMonth (localTime h t1))),
    (Z.add_comm (getMonth (localTime h t2))), Z.add_compare_mono_l.
Qed.

(** [toString] and the date format lose nothing. *)

Lemma digitChar_code (d : Z) :
  0 <= d <= 9 -> Z.of_N (N_of_ascii (JS.digitChar d)) = 48 + d.
Proof.
  intros Hd. unfold JS.digitChar. rewrite N_ascii_embedding by lia. lia.
Qed.

Lemma valueFrom_digitsAux (fuel : nat) (n : Z) (acc : string) (a : Z) :
  0 <= n < 2 ^ Z.of_nat fuel ->
  exists k, 0 <= k /\
    valueFrom a (JS.digitsAux fuel n acc) = valueFrom (a * 10 ^ k + n) acc.
Proof.
  revert n acc a. induction fuel as [|fuel IH]; intros n acc a Hn.
  - exists 0. split; [lia|]. cbn [JS.digitsAux]. f_equal.
    change (2 ^ Z.of_nat 0) with 1 in Hn. rewrite Z.pow_0_r. lia.
  - rewrite digitsAux_unfold.
    assert (Hmod : 0 <= n mod 10 <= 9)
      by (pose proof (Z.mod_pos_bound n 10); lia).
    destruct (Z.ltb_spec n 10) as [Hs|Hl].
    + exists 1. split; [lia|]. cbn [valueFrom].
      rewrite digitChar_code by exact Hmod.
      rewrite Z.mod_small, Z.pow_1_r by lia. f_equal. lia.
    + rewrite Nat2Z.inj_succ, Z.pow_succ_r in Hn by lia.
      destruct (IH (n / 10) (String (JS.digitChar (n mod 10)) acc) a)
        as (k & Hk & ->).
      { Z.div_mod_to_equations. lia. }
      exists (Z.succ k). split; [lia|]. cbn [valueFrom].
      rewrite digitChar_code by exact Hmod.
      rewrite Z.pow_succ_r by exact Hk. f_equal.
      Z.div_mod_to_equations. lia.
Qed.

Lemma valueFrom_digits (n : Z) : 0 <= n -> valueFrom 0 (JS.digits n) = n.
Proof.
  intros Hn. unfold JS.digits.
  destruct (valueFrom_digitsAux (S (Z.to_nat (Z.log2 n))) n "" 0)
    as (k & _ & ->); [|reflexivity].
  split; [exact Hn|].
  rewrite Nat2Z.inj_succ, Z2Nat.id by apply Z.log2_nonneg.
  destruct (Z.eq_dec n 0) as [->|Hne]; [reflexivity|].
  apply Z.log2_spec. lia.
Qed.

Lemma digitsAux_head (fuel : nat) (n : Z) (acc : string) :
  exists d s, 0 <= d <= 9 /\
    JS.digitsAux (S fuel) n acc = String (JS.digitChar d) s.
Proof.
  revert n acc. induction fuel as [|fuel IH]; intros n acc;
    rewrite digitsAux_unfold;
    assert (Hmod : 0 <= n mod 10 <= 9)
      by (pose proof (Z.mod_pos_bound n 10); lia);
    destruct (n <? 10).
  - exists (n mod 10), acc. now split.
  - exists (n mod 10), acc. now split.
  - exists (n mod 10), acc. now split.
  - apply IH.
Qed.

Lemma toString_inj (a b : Z) : JS.toString a = JS.toString b -> a = b.
Proof.
  unfold JS.toString.
  assert (Hmixed : forall x y, 0 <= y ->
            String "-" (JS.digits x) <> JS.digits y).
  { intros x y Hy Heq. unfold JS.digits in Heq at 2.
    destruct (digitsAux_head (Z.to_nat (Z.log2 y)) y "") as (d & s & Hd & Hs).
    rewrite Hs in Heq. injection Heq as Hc _.
    apply (f_equal (fun c => Z.of_N (N_of_ascii c))) in Hc.
    rewrite digitChar_code in Hc by exact Hd.
    change (Z.of_N (N_of_ascii "-")) with 45 in Hc. lia. }
  destruct (Z.ltb_spec a 0), (Z.ltb_spec b 0); intros Heq.
  - injection Heq as Heq. apply (f_equal (valueFrom 0)) in Heq.
    rewrite !valueFrom_digits in Heq by lia. lia.
  - exfalso. apply (Hmixed (- a) b); [lia|exact Heq].
  - exfalso. apply (Hmixed (- b) a); [lia|symmetry; exact Heq].
  - apply (f_equal (valueFrom 0)) in Heq.
    now rewrite !valueFrom_digits in Heq by lia.
Qed.

Lemma length_append (s t : string) :
  String.length (s ++ t) = (String.length s + String.length t)%nat.
Proof. induction s as [|c s IH]; simpl; [reflexivity|now rewrite IH]. Qed.

Lemma append_inj_suffix (s1 s2 t1 t2 : string) :
  String.length t1 = String.length t2 ->
  (s1 ++ t1 = s2 ++ t2)%string -> s1 = s2 /\ t1 = t2.
Proof.
  intros Hlen. revert s2.
  induction s1 as [|c s1 IH]; intros [|c' s2] Heq; simpl in Heq.
  - now split.
  - exfalso. rewrite Heq in Hlen. simpl in Hlen. rewrite length_append in Hlen.
    lia.
  - exfalso. rewrite <- Heq in Hlen. simpl in Hlen.
    rewrite length_append in Hlen. lia.
  - injection Heq as -> Heq. destruct (IH s2 Heq) as [-> ->]. now split.
Qed.

Lemma digitChar_inj (a b : Z) :
  0 <= a <= 9 -> 0 <= b <= 9 -> JS.digitChar a = JS.digitChar b -> a = b.
Proof.
  intros Ha Hb Heq. apply (f_equal (fun c => Z.of_N (N_of_ascii c))) in Heq.
  rewrite !digitChar_code in Heq by assumption. lia.
Qed.

(** Two instants get the same date string exactly when they fall on the
    same local calendar date. *)
Lemma formatTimestampToDateString_same_date (h : Host) (t1 t2 : Z) :
  hostInRange h ->
  formatTimestampToDateString h t1 = formatTimestampToDateString h t2 <->
  sameDate (localTime h t1) (localTime h t2).
Proof.
  intros Hh. unfold sameDate, formatTimestampToDateString. cbv zeta.
  split.
  - destruct (Hh t1) as [Hm1 Hd1]. destruct (Hh t2) as [Hm2 Hd2].
    rewrite !padStart_two by lia. intros Heq.
    apply append_inj_suffix in Heq; [|reflexivity].
    destruct Heq as [Hy Heq]. apply toString_inj in Hy.
    simpl in Heq. injection Heq as Hm10 Hm0 Hd10 Hd0.
    apply digitChar_inj in Hm10; [|Z.div_mod_to_equations; lia..].
    apply digitChar_inj in Hm0; [|Z.div_mod_to_equations; lia..].
    apply digitChar_inj in Hd10; [|Z.div_mod_to_equations; lia..].
    apply digitChar_inj in Hd0; [|Z.div_mod_to_equations; lia..].
    split; [exact Hy|]. split; Z.div_mod_to_equations; lia.
  - intros (-> & -> & ->). reflexivity.
Qed.

Lemma fixedZone_in_range (offset : Z) : hostInRange (FixedZone.host offset).
Proof.
  intros t. unfold FixedZone.host, localTime, Civil.fromDays.
  cbv zeta. cbn [getMonth getDate].
  set (z := Civil.day (t - offset * 60000)).
  assert (Hdoe : 0 <= Civil.dayOfEra z <= 146096).
  { unfold Civil.dayOfEra. pose proof (Z.mod_pos_bound (z + 719468) 146097).
    lia. }
  assert (Hdoy : 0 <= Civil.dayOfYear (Civil.dayOfEra z) <= 365).
  { revert Hdoe. generalize (Civil.dayOfEra z). intros doe Hdoe.
    unfold Civil.dayOfYear, Civil.yearOfEra. Z.div_mod_to_equations. lia. }
  revert Hdoy. generalize (Civil.dayOfYear (Civil.dayOfEra z)).
  intros doy Hdoy. unfold Civil.monthIndex.
  destruct (Z.ltb_spec ((5 * doy + 2) / 153) 10);
    Z.div_mod_to_equations; lia.
Qed.

Lemma ascii_compare_refl (a : ascii) : Ascii.compare a a = Eq.
Proof. unfold Ascii.compare. apply N.compare_refl. Qed.

Lemma ascii_compare_lt_trans (a b c : ascii) :
  Ascii.compare a b = Lt -> Ascii.compare b c = Lt -> Ascii.compare a c = Lt.
Proof.
  unfold Ascii.compare. rewrite !N.compare_lt_iff. apply N.lt_trans.
Qed.

Lemma string_le_trans (a b c : string) :
  String.compare a b <> Gt -> String.compare b c <> Gt ->
  String.compare a c <> Gt.
Proof.
  revert b c. induction a as [|x a IH]; intros [|y b] [|z c]; simpl;
    try congruence.
  destruct (Ascii.compare x y) eqn:Hxy; try congruence;
    destruct (Ascii.compare y z) eqn:Hyz; try congruence.
  - apply Ascii.compare_eq_iff in Hxy, Hyz. subst.
    rewrite ascii_compare_refl. apply IH.
  - apply Ascii.compare_eq_iff in Hxy. subst. rewrite Hyz. congruence.
  - apply Ascii.compare_eq_iff in Hyz. subst. rewrite Hxy. congruence.
  - rewrite (ascii_compare_lt_trans _ _ _ Hxy Hyz). congruence.
Qed.

Lemma byDate_le (p q : ChartDataPoint) :
  byDate p q <= 0 <-> String.compare (date p) (date q) <> Gt.
Proof.
  unfold byDate, JS.localeCompare.
  destruct (String.compare (date p) (date q)); split; (congruence || lia).
Qed.

Lemma sort_byDate_sorted (l : list ChartDataPoint) :
  StronglySorted (fun p q => String.compare (date p) (date q) <> Gt)
    (JS.sort byDate l).
Proof.
  eapply StronglySorted_weaken; [|apply (sort_sorted byDate)].
  - intros p q. apply byDate_le.
  - intros p q. rewrite !byDate_le, (String.compare_antisym (date q)).
    destruct (String.compare (date p) (date q)); simpl;
      [left|left|right]; congruence.
  - intros p q r. rewrite !byDate_le. apply string_le_trans.
Qed.

Lemma sorted_distinct_ascending (l : list ChartDataPoint) :
  StronglySorted (fun p q => String.compare (date p) (date q) <> Gt) l ->
  NoDup (map date l) -> ascendingByDate l.
Proof.
  unfold ascendingByDate.
  induction 1 as [|p l Hs IH Hall]; intros Hnd; simpl in *; constructor.
  - apply IH. now inversion Hnd.
  - inversion Hnd as [|? ? Hnotin _]; subst.
    rewrite Forall_forall in *. intros q Hq.
    specialize (Hall q Hq). unfold String.ltb.
    destruct (String.compare (date p) (date q)) eqn:Hc;
      [|reflexivity|congruence].
    apply String.compare_eq_iff in Hc. exfalso. apply Hnotin.
    rewrite Hc. now apply in_map.
Qed.

Section DateBuckets.
Variable h : Host.

Lemma date_bucketOf (k : string) (l : list LogEntry) : date (bucketOf h k l) = k.
Proof.
  unfold bucketOf.
  now destruct (bucket_fields (entriesOn h k l) (emptyPoint k)) as [-> _].
Qed.

Lemma dates_processChartData (logs : list LogEntry) (d : string) :
  In d (map date (processChartData h logs)) <->
  exists e, In e logs /\ formatTimestampToDateString h (timestamp e) = d.
Proof.
  rewrite in_map_iff. split.
  - intros (p & <- & Hp). apply In_processChartData in Hp.
    destruct Hp as (k & Hne & ->). rewrite date_bucketOf.
    destruct (entriesOn h k (JS.sort byTimestampAsc logs)) as [|e es] eqn:He;
      [congruence|].
    assert (Hin : In e (entriesOn h k (JS.sort byTimestampAsc logs)))
      by (rewrite He; now left).
    apply filter_In in Hin. destruct Hin as [Hin Hk].
    exists e. split; [now apply sort_In in Hin|].
    now apply String.eqb_eq.
  - intros (e & He & <-).
    set (k := formatTimestampToDateString h (timestamp e)).
    exists (bucketOf h k (JS.sort byTimestampAsc logs)).
    split; [apply date_bucketOf|].
    apply In_processChartData. exists k. split; [|reflexivity].
    assert (Hin : In e (entriesOn h k (JS.sort byTimestampAsc logs))).
    { apply filter_In. split; [now apply sort_In|]. apply String.eqb_refl. }
    intros Hnil. rewrite Hnil in Hin. exact Hin.
Qed.

Lemma dates_distinct (logs : list LogEntry) :
  NoDup (map date (processChartData h logs)).
Proof.
  unfold processChartData. cbv zeta.
  set (sorted := JS.sort byTimestampAsc logs).
  set (dd := fold_left (forEachLog h) sorted []).
  assert (Hnd : NoDup (map fst dd)) by (apply keys_fold; constructor).
  eapply Permutation_NoDup.
  - apply Permutation_map. symmetry. apply sort_perm.
  - unfold values. rewrite map_map.
    erewrite map_ext_in; [exact Hnd|].
    intros [k v] Hkv. simpl.
    apply (In_lookup _ _ _ Hnd) in Hkv. unfold dd in Hkv.
    rewrite lookup_fold in Hkv. cbn [lookup] in Hkv.
    pose proof (date_bucketOf k sorted) as Hd. unfold bucketOf in Hd.
    destruct (entriesOn h k sorted) as [|e es]; [discriminate|].
    injection Hkv as <-. exact Hd.
Qed.

End DateBuckets.

(** X22.  The result has exactly one point for each local calendar date
    that occurs in the input (two entries get the same date string exactly
    when they fall on the same date), and it is in strictly ascending order
    of the date strings; between entries whose local years have four digits
    (1000..9999) that order is the chronological order of their dates. *)
Theorem processChartData_one_point_per_date (h : Host) (logs : list LogEntry) :
  hostInRange h ->
  let out := processChartData h logs in
  NoDup (map date out)
  /\ (forall d, In d (map date out) <->
        exists e, In e logs /\ formatTimestampToDateString h (timestamp e) = d)
  /\ (forall a b, In a logs -> In b logs ->
        (formatTimestampToDateString h (timestamp a)
         = formatTimestampToDateString h (timestamp b) <->
         sameDate (localTime h (timestamp a)) (localTime h (timestamp b))))
  /\ ascendingByDate out
  /\ (forall a b, In a logs -> In b logs ->
        fourDigitYear (localTime h (timestamp a)) ->
        fourDigitYear (localTime h (timestamp b)) ->
        String.compare (formatTimestampToDateString h (timestamp a))
                       (formatTimestampToDateString h (timestamp b))
        = compareDates (localTime h (timestamp a)) (localTime h (timestamp b))).
Proof.
  intros Hh out.
  assert (Hnd : NoDup (map date out)) by apply dates_distinct.
  split; [exact Hnd|]. split; [apply dates_processChartData|].
  split; [|split].
  - intros a b _ _. now apply formatTimestampToDateString_same_date.
  - apply sorted_distinct_ascending; [|exact Hnd].
    unfold out, processChartData. apply sort_byDate_sorted.
  - intros a b _ _ Ha Hb.
    now apply formatTimestampToDateString_chronological.
Qed.

Lemma processChartData_one_point_per_date_witness :
  let out := processChartData utcHost sampleLogs in
  let a := stressEntry "s1" (jan1 + 30 * hour) 2 in
  let b := symptomEntry "a" (jan1 + 9 * hour) (Some 3) None in
  NoDup (map date out)
  /\ ascendingByDate out
  /\ String.compare (formatTimestampToDateString utcHost (timestamp a))
                    (formatTimestampToDateString utcHost (timestamp b))
     = compareDates (localTime utcHost (timestamp a))
                    (localTime utcHost (timestamp b)).
Proof.
  intros out a b.
  destruct (processChartData_one_point_per_date utcHost sampleLogs
              (fixedZone_in_range 0)) as (Hnd & _ & _ & Hasc & Hchrono).
  split; [exact Hnd|]. split; [exact Hasc|].
  apply Hchrono.
  - simpl. left. reflexivity.
  - simpl. right. left. reflexivity.
  - unfold fourDigitYear. vm_compute. split; discriminate.
  - unfold fourDigitYear. vm_compute. split; discriminate.
Defined.

(** C8.  The year is written without padding, although the function is
    documented to give [YYYY-MM-DD]: an entry of 31 December 999 gets the
    date string [999-12-31], and the aggregation places its point after
    the point of 1 January 2024. *)
Lemma date_order_not_chronological :
  let old := symptomEntry "old" (-30610224000000 - 12 * hour) (Some 1) None in
  let new := symptomEntry "new" jan1 (Some 2) None in
  formatTimestampToDateString utcHost (timestamp old) = "999-12-31"
  /\ formatTimestampToDateString utcHost (timestamp new) = "2024-01-01"
  /\ processChartData utcHost [old; new]
     = [ {| date := "2024-01-01"; cramps := Some 2; bloating := None;
            stressLevel := None |};
         {| date := "999-12-31"; cramps := Some 1; bloating := None;
            stressLevel := None |} ]
  /\ timestamp old < timestamp new
  /\ compareDates (localTime utcHost (timestamp old))
                  (localTime utcHost (timestamp new)) = Lt
  /\ String.compare (formatTimestampToDateString utcHost (timestamp old))
                    (formatTimestampToDateString utcHost (timestamp new)) = Gt.
Proof.
  vm_compute. repeat split.
Qed.

(** * Properties of the remaining code *)

(** ** The order and the ids of the stored collection *)

Lemma sort_of_sorted {A : Type} (cmp : A -> A -> Z) (l : list A) :
  StronglySorted (fun a b => cmp a b <= 0) l -> JS.sort cmp l = l.
Proof.
  induction 1 as [|x l Hs IH Hx]; simpl; [reflexivity|].
  rewrite IH. destruct l as [|y l]; [reflexivity|]. simpl.
  inversion Hx as [|? ? Hxy _]; subst.
  destruct (Z.leb_spec (cmp x y) 0); [reflexivity|lia].
Qed.

Lemma sort_desc_of_sorted (l : list LogEntry) :
  timestampsNonIncreasing l -> JS.sort byTimestampDesc l = l.
Proof.
  intros Hs. apply sort_of_sorted.
  eapply StronglySorted_weaken; [|exact Hs].
  intros a b. unfold byTimestampDesc. lia.
Qed.

Lemma StronglySorted_filter {A : Type} (R : A -> A -> Prop) (f : A -> bool)
  (l : list A) :
  StronglySorted R l -> StronglySorted R (filter f l).
Proof.
  induction 1 as [|x l Hs IH Hx]; simpl; [constructor|].
  destruct (f x); [|exact IH].
  constructor; [exact IH|].
  rewrite Forall_forall in *. intros y Hy. apply Hx.
  apply filter_In in Hy. tauto.
Qed.

(** X1.  The collection is kept in the order the list view shows: after
    a creation or an update the stored array is already what [LogList]
    sorts it to, and a deletion keeps a descending collection descending,
    so [LogList] shows it as stored too. *)
Theorem stored_order_is_display_order (h : Host) (env : Env) (st : AppState) :
  (forall entryData,
     LogList.sortedEntries (logs (createLogEntry env entryData st))
     = logs (createLogEntry env entryData st))
  /\ (forall u,
        LogList.sortedEntries (logs (updateLogEntry h env u st))
        = logs (updateLogEntry h env u st))
  /\ (timestampsNonIncreasing (logs st) ->
      forall i,
        timestampsNonIncreasing (logs (deleteLogEntry h env i st)) /\
        LogList.sortedEntries (logs (deleteLogEntry h env i st))
        = logs (deleteLogEntry h env i st)).
Proof.
  unfold LogList.sortedEntries. repeat split.
  - intros entryData. apply sort_desc_of_sorted.
    rewrite logs_createLogEntry. apply sort_desc_sorted.
  - intros u. apply sort_desc_of_sorted.
    rewrite logs_updateLogEntry. apply sort_desc_sorted.
  - rewrite logs_deleteLogEntry. now apply StronglySorted_filter.
  - apply sort_desc_of_sorted. rewrite logs_deleteLogEntry.
    now apply StronglySorted_filter.
Qed.

Lemma stored_order_is_display_order_witness :
  let env := {| now := jan1 + 40 * hour; uuidv4 := "unused" |} in
  let st := createLogEntry env (mkEntryData "" (JS.Num 0)
                                  (StressBody (mkStress 1 None)))
              (initialState sampleLogs) in
  timestampsNonIncreasing (logs (deleteLogEntry utcHost env "a" st)) /\
  LogList.sortedEntries (logs (deleteLogEntry utcHost env "a" st))
  = logs (deleteLogEntry utcHost env "a" st).
Proof.
  intros env st.
  refine (proj2 (proj2 (stored_order_is_display_order utcHost env st)) _ "a").
  unfold st. rewrite logs_createLogEntry. apply sort_desc_sorted.
Defined.

Lemma ids_of_update (u : LogEntry) (l : list LogEntry) :
  map id (map (fun log => if String.eqb (id log) (id u) then u else log) l)
  = map id l.
Proof.
  rewrite map_map. apply map_ext. intros e.
  destruct (String.eqb_spec (id e) (id u)); congruence.
Qed.

(** X2.  Unique ids are an invariant of the three operations: an update
    leaves the ids of the collection as they are (none added, none lost), a
    deletion leaves no entry with the deleted id, and a creation keeps the
    ids unique when the generated id is not in use. *)
Theorem ids_stay_unique (h : Host) (env : Env) (st : AppState) :
  idsUnique (logs st) ->
  (forall u, Permutation (map id (logs (updateLogEntry h env u st)))
                         (map id (logs st))
             /\ idsUnique (logs (updateLogEntry h env u st)))
  /\ (forall i, idsUnique (logs (deleteLogEntry h env i st))
                /\ ~ In i (map id (logs (deleteLogEntry h env i st))))
  /\ (forall entryData,
        ~ In (uuidv4 env) (map id (logs st)) ->
        idsUnique (logs (createLogEntry env entryData st))).
Proof.
  unfold idsUnique. intros Hnd. repeat split.
  - rewrite logs_updateLogEntry.
    rewrite (Permutation_map id (sort_perm byTimestampDesc _)).
    now rewrite ids_of_update.
  - rewrite logs_updateLogEntry.
    eapply Permutation_NoDup; [|exact Hnd].
    rewrite (Permutation_map id (sort_perm byTimestampDesc _)).
    now rewrite ids_of_update.
  - rewrite logs_deleteLogEntry. clear -Hnd.
    induction (logs st) as [|e l IH]; simpl; [constructor|].
    inversion Hnd as [|? ? Hnotin Hnd']; subst.
    destruct (negb (String.eqb (id e) i)); simpl; [|now apply IH].
    constructor; [|now apply IH].
    intros Hin. apply Hnotin. apply in_map_iff in Hin.
    destruct Hin as (x & Hx & Hin). apply filter_In in Hin.
    apply in_map_iff. exists x. tauto.
  - rewrite logs_deleteLogEntry. intros Hin. apply in_map_iff in Hin.
    destruct Hin as (x & Hx & Hin). apply filter_In in Hin.
    destruct Hin as [_ Hne]. rewrite Hx, String.eqb_refl in Hne. discriminate.
  - intros entryData Hfresh. rewrite logs_createLogEntry.
    eapply Permutation_NoDup.
    + symmetry. apply Permutation_map, sort_perm.
    + rewrite map_app. simpl.
      eapply Permutation_NoDup; [apply Permutation_cons_append|].
      now constructor.
Qed.

Lemma ids_stay_unique_witness :
  let env := {| now := jan1 + 40 * hour; uuidv4 := "fresh" |} in
  idsUnique (logs (createLogEntry env
                     (mkEntryData "a" (JS.Num 7) (StressBody (mkStress 1 None)))
                     (initialState sampleLogs))).
Proof.
  intros env.
  refine (proj2 (proj2 (ids_stay_unique utcHost env (initialState sampleLogs) _))
            _ _).
  - unfold idsUnique. simpl.
    repeat (constructor; [simpl; intuition discriminate|]). constructor.
  - simpl. intuition discriminate.
Defined.

(** X3.  [updateLogEntry] is no upsert: when no entry carries the id of
    its argument, the collection keeps its entries (it is only sorted
    again), and a collection that was in descending order is left exactly
    as it was. *)
Theorem update_of_unknown_id (h : Host) (env : Env) (u : LogEntry)
  (st : AppState) :
  (forall e, In e (logs st) -> id e <> id u) ->
  logs (updateLogEntry h env u st) = JS.sort byTimestampDesc (logs st)
  /\ Permutation (logs (updateLogEntry h env u st)) (logs st)
  /\ (timestampsNonIncreasing (logs st) ->
      logs (updateLogEntry h env u st) = logs st).
Proof.
  intros Habsent.
  assert (Hmap : map (fun log => if String.eqb (id log) (id u) then u else log)
                   (logs st) = logs st).
  { induction (logs st) as [|e l IH]; simpl; [reflexivity|].
    rewrite IH by (intros x Hx; apply Habsent; now right).
    destruct (String.eqb_spec (id e) (id u)) as [Heq|_]; [|reflexivity].
    exfalso. apply (Habsent e); [now left|exact Heq]. }
  rewrite logs_updateLogEntry, Hmap. repeat split.
  - apply sort_perm.
  - apply sort_desc_of_sorted.
Qed.

Lemma update_of_unknown_id_witness :
  let env := {| now := jan1 + 40 * hour; uuidv4 := "unused" |} in
  let u := stressEntry "nobody" (jan1 + 50 * hour) 5 in
  Permutation (logs (updateLogEntry utcHost env u (initialState sampleLogs)))
              sampleLogs.
Proof.
  intros env u.
  refine (proj1 (proj2 (update_of_unknown_id utcHost env u
                          (initialState sampleLogs) _))).
  intros e He. simpl in He.
  destruct He as [<-|[<-|[<-|[<-|[]]]]]; discriminate.
Defined.

(** ** The aggregation in terms of the stored collection *)

Lemma filter_insert_sorted (Q : LogEntry -> bool) (x : LogEntry)
  (l : list LogEntry) :
  timestampsNonDecreasing l ->
  filter Q (JS.insert byTimestampAsc x l) =
  if Q x then JS.insert byTimestampAsc x (filter Q l) else filter Q l.
Proof.
  induction 1 as [|y l Hs IH Hy]; simpl.
  - now destruct (Q x).
  - unfold byTimestampAsc at 1.
    destruct (Z.leb_spec (timestamp x - timestamp y) 0) as [Hxy|Hxy]; simpl.
    + destruct (Q x) eqn:Hqx; [|reflexivity].
      destruct (Q y) eqn:Hqy; simpl.
      * unfold byTimestampAsc at 1.
        destruct (Z.leb_spec (timestamp x - timestamp y) 0); [reflexivity|lia].
      * f_equal. clear IH.
        assert (Hall : Forall (fun z => timestamp x <= timestamp z) (filter Q l)).
        { rewrite Forall_forall in *. intros z Hz. apply filter_In in Hz.
          specialize (Hy z (proj1 Hz)). simpl in Hy. lia. }
        destruct (filter Q l) as [|z r]; [reflexivity|]. simpl.
        inversion Hall; subst. unfold byTimestampAsc.
        destruct (Z.leb_spec (timestamp x - timestamp z) 0); [reflexivity|lia].
    + rewrite IH. destruct (Q y) eqn:Hqy; simpl.
      * destruct (Q x); [|reflexivity]. simpl. unfold byTimestampAsc at 2.
        destruct (Z.leb_spec (timestamp x - timestamp y) 0); [lia|reflexivity].
      * reflexivity.
Qed.

Lemma filter_sort (Q : LogEntry -> bool) (l : list LogEntry) :
  filter Q (JS.sort byTimestampAsc l) = JS.sort byTimestampAsc (filter Q l).
Proof.
  induction l as [|x l IH]; simpl; [reflexivity|].
  rewrite filter_insert_sorted by apply sort_asc_sorted.
  rewrite IH. now destruct (Q x).
Qed.

Lemma lastOf_In {A : Type} (l : list A) (x : A) : lastOf l = Some x -> In x l.
Proof.
  induction l as [|a l IH]; [discriminate|].
  rewrite lastOf_cons. destruct (lastOf l) as [b|].
  - intros [= <-]. right. now apply IH.
  - intros [= <-]. now left.
Qed.

Lemma lastOf_insert (x : LogEntry) (l : list LogEntry) :
  timestampsNonDecreasing l ->
  lastOf (JS.insert byTimestampAsc x l) =
  match lastOf l with
  | None => Some x
  | Some w => if timestamp w <? timestamp x then Some x else Some w
  end.
Proof.
  induction 1 as [|y l Hs IH Hy]; [reflexivity|].
  simpl JS.insert. unfold byTimestampAsc at 1.
  assert (Hlast : forall w, lastOf (y :: l) = Some w -> timestamp y <= timestamp w).
  { intros w Hw. rewrite lastOf_cons in Hw.
    destruct (lastOf l) as [w'|] eqn:Hl.
    - injection Hw as <-. rewrite Forall_forall in Hy. apply Hy.
      now apply lastOf_In.
    - injection Hw as <-. lia. }
  destruct (Z.leb_spec (timestamp x - timestamp y) 0) as [Hxy|Hxy].
  - rewrite lastOf_cons. destruct (lastOf (y :: l)) as [w|] eqn:Hw.
    + specialize (Hlast w eq_refl).
      destruct (Z.ltb_spec (timestamp w) (timestamp x)); [lia|reflexivity].
    + rewrite lastOf_cons in Hw. destruct (lastOf l); discriminate.
  - rewrite lastOf_cons, IH, (lastOf_cons y l).
    destruct (lastOf l) as [w|]; [now destruct (timestamp w <? timestamp x)|].
    destruct (Z.ltb_spec (timestamp y) (timestamp x)); [reflexivity|lia].
Qed.

Lemma lastOf_sort (l : list LogEntry) :
  lastOf (JS.sort byTimestampAsc l) = winner l.
Proof.
  induction l as [|x l IH]; [reflexivity|].
  simpl. rewrite lastOf_insert by apply sort_asc_sorted. now rewrite IH.
Qed.

Lemma winner_spec (l : list LogEntry) (w : LogEntry) :
  winner l = Some w ->
  exists l1 l2, l = l1 ++ w :: l2
    /\ (forall e, In e l1 -> timestamp e <= timestamp w)
    /\ (forall e, In e l2 -> timestamp e < timestamp w).
Proof.
  revert w. induction l as [|x l IH]; intros w; simpl; [discriminate|].
  destruct (winner l) as [v|] eqn:Hv.
  - destruct (IH v eq_refl) as (l1 & l2 & -> & H1 & H2).
    destruct (Z.ltb_spec (timestamp v) (timestamp x)) as [Hlt|Hge];
      intros [= <-].
    + exists [], (l1 ++ v :: l2). repeat split; [intros e []|].
      intros e He. apply in_app_or in He.
      destruct He as [He|[<-|He]]; [specialize (H1 e He)| |specialize (H2 e He)];
        lia.
    + exists (x :: l1), l2. repeat split; [|exact H2].
      intros e [<-|He]; [lia|now apply H1].
  - intros [= <-]. destruct l as [|y l]; [|simpl in Hv; destruct (winner l);
      [destruct (timestamp l0 <? timestamp y)|]; discriminate].
    exists [], []. repeat split; intros e [].
Qed.

Lemma lastOf_defined (f : LogEntry -> option Z) (l : list LogEntry) :
  lastOf (defined f l) =
  match lastOf (filter (fun e => isSome (f e)) l) with
  | Some e => f e
  | None => None
  end.
Proof.
  induction l as [|x l IH]; [reflexivity|]. cbn [defined filter].
  destruct (f x) as [v|] eqn:Hfx; cbn [isSome]; [|exact IH].
  rewrite !lastOf_cons, IH.
  destruct (lastOf (filter (fun e => isSome (f e)) l)) as [e|] eqn:He.
  - apply lastOf_In, filter_In in He. destruct He as [_ He].
    now destruct (f e).
  - now rewrite Hfx.
Qed.

Lemma stressLevel_is_winner (h : Host) (logs : list LogEntry)
  (p : ChartDataPoint) :
  In p (processChartData h logs) ->
  stressLevel p =
  match winner (filter isStress (entriesOn h (date p) logs)) with
  | Some w => stressOf w
  | None => None
  end.
Proof.
  intros Hin.
  destruct (channels_of_point h logs p Hin) as (_ & _ & _ & ->).
  rewrite lastOf_defined. unfold entriesOn. rewrite !filter_sort, lastOf_sort.
  assert (Heq : filter (fun e => isSome (stressOf e))
                  (filter (fun e => String.eqb
                     (formatTimestampToDateString h (timestamp e)) (date p))
                     logs)
                = filter isStress
                    (filter (fun e => String.eqb
                       (formatTimestampToDateString h (timestamp e)) (date p))
                       logs)).
  { apply filter_ext. intros e. unfold stressOf, isStress.
    now destruct (body e). }
  now rewrite Heq.
Qed.

Lemma lastOf_nonempty {A : Type} (l : list A) :
  l <> [] -> exists x, lastOf l = Some x.
Proof.
  induction l as [|x l IH]; [congruence|]. intros _.
  destruct l as [|y l]; [now exists x|].
  rewrite lastOf_cons. destruct IH as [z ->]; [discriminate|]. now exists z.
Qed.

Lemma lastOf_sorted_latest (l : list LogEntry) (w : LogEntry) :
  timestampsNonDecreasing l -> lastOf l = Some w ->
  forall x, In x l -> timestamp x <= timestamp w.
Proof.
  induction 1 as [|y l Hs IH Hy]; [discriminate|].
  rewrite lastOf_cons. destruct (lastOf l) as [z|] eqn:Hz.
  - intros [= ->] x [<-|Hx]; [|now apply IH].
    rewrite Forall_forall in Hy. apply Hy. now apply lastOf_In.
  - intros [= <-] x [<-|Hx]; [lia|].
    destruct l as [|z l]; [destruct Hx|].
    destruct (lastOf_nonempty (z :: l)) as [v Hv]; congruence.
Qed.

(** C9.  The entries are processed in the order of the collection sorted
    by non-decreasing timestamp, and the [stress] channel of each data
    point is the level of the stress entry of its date that comes last in
    that order ([null] without one).  Every date with a stress entry has
    its data point, and the point's [stress] channel is the level of a
    stress entry of that date no other stress entry of the date is later
    than; with a single stress entry on the date it is the level of that
    entry.  Two stress entries on one date, given in either order, make one
    point with the level of the later one. *)
Theorem processChartData_stress_last_wins (h : Host) (logs : list LogEntry) :
  let sortedLogs := JS.sort byTimestampAsc logs in
  let out := processChartData h logs in
  Permutation sortedLogs logs
  /\ timestampsNonDecreasing sortedLogs
  /\ (forall p, In p out ->
        stressLevel p =
        lastOf (defined stressOf (entriesOn h (date p) sortedLogs)))
  /\ (forall e, In e logs -> isStress e = true ->
        exists p w v,
          In p out /\ date p = dateOf h e
          /\ lastOf (filter isStress (entriesOn h (dateOf h e) sortedLogs))
             = Some w
          /\ stressOf w = Some v /\ stressLevel p = Some v
          /\ In w logs /\ dateOf h w = dateOf h e
          /\ (forall x, In x logs -> isStress x = true ->
                dateOf h x = dateOf h e -> timestamp x <= timestamp w))
  /\ (forall p e, In p out ->
        filter isStress (entriesOn h (date p) logs) = [e] ->
        stressLevel p = stressOf e)
  /\ (forall i1 i2 t1 t2 l1 l2,
        formatTimestampToDateString h t2 = formatTimestampToDateString h t1 ->
        t1 < t2 ->
        let point := {| date := formatTimestampToDateString h t1;
                        cramps := None; bloating := None;
                        stressLevel := Some l2 |} in
        processChartData h [stressEntry i1 t1 l1; stressEntry i2 t2 l2]
        = [point]
        /\ processChartData h [stressEntry i2 t2 l2; stressEntry i1 t1 l1]
           = [point]).
Proof.
  intros sortedLogs out.
  assert (Hsorted : timestampsNonDecreasing sortedLogs)
    by apply sort_asc_sorted.
  assert (Hlast : forall p, In p out ->
            stressLevel p =
            lastOf (defined stressOf (entriesOn h (date p) sortedLogs))).
  { intros p Hin.
    now destruct (channels_of_point h logs p Hin) as (_ & _ & _ & Hs). }
  assert (Hstress : forall l,
            filter (fun x => isSome (stressOf x)) l = filter isStress l).
  { intros l. apply filter_ext. intros x. unfold stressOf, isStress.
    now destruct (body x). }
  split; [apply sort_perm|]. split; [exact Hsorted|]. split; [exact Hlast|].
  split; [|split].
  - intros e He Hse.
    assert (Hd : In (dateOf h e) (map date out)).
    { apply dates_processChartData. now exists e. }
    apply in_map_iff in Hd. destruct Hd as (p & Hdate & Hp).
    set (today := filter isStress (entriesOn h (dateOf h e) sortedLogs)).
    assert (Hmem : forall x, In x today <->
              In x logs /\ dateOf h x = dateOf h e /\ isStress x = true).
    { intros x. unfold today, entriesOn. rewrite !filter_In.
      unfold sortedLogs. rewrite sort_In. unfold dateOf.
      rewrite String.eqb_eq. tauto. }
    destruct (lastOf_nonempty today) as [w Hw].
    { intros Hnil. assert (Hin : In e today) by (apply Hmem; tauto).
      rewrite Hnil in Hin. exact Hin. }
    pose proof (lastOf_In _ _ Hw) as Hwin. apply Hmem in Hwin.
    destruct Hwin as (Hwl & Hwd & Hws).
    assert (Hv : exists v, stressOf w = Some v).
    { unfold stressOf. unfold isStress in Hws.
      destruct (body w); try discriminate. eexists. reflexivity. }
    destruct Hv as [v Hv].
    exists p, w, v. split; [exact Hp|]. split; [exact Hdate|].
    split; [exact Hw|]. split; [exact Hv|]. split; [|split; [exact Hwl|split]].
    + rewrite (Hlast p Hp), Hdate, lastOf_defined, Hstress.
      fold today. now rewrite Hw.
    + exact Hwd.
    + intros x Hx Hxs Hxd.
      apply (lastOf_sorted_latest today w); [|exact Hw|apply Hmem; tauto].
      unfold today, entriesOn. now do 2 apply StronglySorted_filter.
  - intros p e Hp Hone.
    rewrite (stressLevel_is_winner h logs p Hp), Hone. reflexivity.
  - intros i1 i2 t1 t2 l1 l2 Hdate Hlt point.
    unfold processChartData, stressEntry. cbv zeta.
    cbn [JS.sort JS.insert]. unfold byTimestampAsc. cbn [timestamp].
    destruct (Z.leb_spec (t1 - t2) 0); [|lia].
    destruct (Z.leb_spec (t2 - t1) 0); [lia|].
    cbn [JS.insert fold_left]. unfold forEachLog. cbn [timestamp].
    rewrite Hdate. unfold addKey.
    repeat (cbn [lookup app modify]; rewrite String.eqb_refl).
    split; reflexivity.
Qed.

Lemma processChartData_stress_last_wins_witness :
  let logs := [ stressEntry "late" (jan1 + 20 * hour) 4;
                stressEntry "early" (jan1 + 7 * hour) 1;
                symptomEntry "a" (jan1 + 9 * hour) (Some 3) None ] in
  (exists p, In p (processChartData utcHost logs)
             /\ date p = "2024-01-01" /\ stressLevel p = Some 4)
  /\ processChartData utcHost
       [stressEntry "late" (jan1 + 20 * hour) 4;
        stressEntry "early" (jan1 + 7 * hour) 1]
     = [ {| date := "2024-01-01"; cramps := None; bloating := None;
            stressLevel := Some 4 |} ].
Proof.
  intros logs. split.
  - destruct (processChartData_stress_last_wins utcHost logs)
      as (_ & _ & _ & Hexists & _).
    destruct (Hexists (stressEntry "early" (jan1 + 7 * hour) 1))
      as (p & w & v & Hp & Hdate & Hw & Hv & Hs & _).
    + simpl. right. left. reflexivity.
    + reflexivity.
    + exists p. split; [exact Hp|]. split; [exact Hdate|].
      vm_compute in Hw. injection Hw as <-. vm_compute in Hv.
      rewrite Hs. exact (eq_sym Hv).
  - refine (proj2 (proj2 (proj2 (proj2 (proj2 (proj2
              (processChartData_stress_last_wins utcHost logs)))))
              "early" "late" (jan1 + 7 * hour) (jan1 + 20 * hour) 1 4 _ _)).
    + reflexivity.
    + reflexivity.
Defined.

(** X4.  In terms of the collection as stored: the [stress] channel of a
    bucket is the level of the stress entry of that date with the greatest
    timestamp, and of the one stored last when several share it; it is
    [null] when the date has no stress entry. *)
Theorem stress_channel_latest_entry (h : Host) (logs : list LogEntry)
  (p : ChartDataPoint) :
  In p (processChartData h logs) ->
  let candidates := filter isStress (entriesOn h (date p) logs) in
  stressLevel p = match winner candidates with
                  | Some w => stressOf w
                  | None => None
                  end
  /\ (candidates = [] -> stressLevel p = None)
  /\ (forall w, winner candidates = Some w ->
        exists before after, candidates = before ++ w :: after
          /\ (forall e, In e before -> timestamp e <= timestamp w)
          /\ (forall e, In e after -> timestamp e < timestamp w)).
Proof.
  intros Hin candidates.
  pose proof (stressLevel_is_winner h logs p Hin) as Hs. fold candidates in Hs.
  split; [exact Hs|]. split.
  - intros Hnil. now rewrite Hs, Hnil.
  - apply winner_spec.
Qed.

Lemma stress_channel_latest_entry_witness :
  let logs := [ stressEntry "first" (jan1 + 7 * hour) 1;
                stressEntry "second" (jan1 + 7 * hour) 4;
                stressEntry "early" (jan1 + 2 * hour) 5 ] in
  let p := {| date := "2024-01-01"; cramps := None; bloating := None;
              stressLevel := Some 4 |} in
  stressLevel p =
  match winner (filter isStress (entriesOn utcHost (date p) logs)) with
  | Some w => stressOf w
  | None => None
  end.
Proof.
  intros logs p.
  refine (proj1 (stress_channel_latest_entry utcHost logs p _)).
  vm_compute. left. reflexivity.
Defined.

Lemma sorted_strict_unique {A : Type} (R : A -> A -> Prop) (l1 l2 : list A) :
  (forall a b, R a b -> R b a -> False) ->
  StronglySorted R l1 -> StronglySorted R l2 -> Permutation l1 l2 -> l1 = l2.
Proof.
  intros Hasym Hs1. revert l2.
  induction Hs1 as [|x l1 Hs1 IH Hx]; intros l2 Hs2 Hp.
  - apply Permutation_nil in Hp. now subst.
  - destruct Hs2 as [|y l2 Hs2 Hy].
    + apply Permutation_sym, Permutation_nil in Hp. discriminate.
    + assert (Hxy : x = y).
      { assert (Hx2 : In x (y :: l2)) by (apply (Permutation_in _ Hp); now left).
        assert (Hy1 : In y (x :: l1))
          by (apply (Permutation_in _ (Permutation_sym Hp)); now left).
        destruct Hx2 as [Hx2|Hx2]; [congruence|].
        destruct Hy1 as [Hy1|Hy1]; [congruence|].
        rewrite Forall_forall in Hx, Hy.
        exfalso. exact (Hasym x y (Hx y Hy1) (Hy x Hx2)). }
      subst y. f_equal. apply IH; [exact Hs2|].
      now apply Permutation_cons_inv in Hp.
Qed.

Lemma sorted_distinct_strict (l : list LogEntry) :
  timestampsNonDecreasing l -> NoDup (map timestamp l) ->
  StronglySorted (fun a b => timestamp a < timestamp b) l.
Proof.
  induction 1 as [|x l Hs IH Hx]; intros Hnd; simpl in *; constructor.
  - apply IH. now inversion Hnd.
  - inversion Hnd as [|? ? Hnotin _]; subst.
    rewrite Forall_forall in *. intros y Hy. specialize (Hx y Hy).
    assert (timestamp x <> timestamp y); [|lia].
    intros Heq. apply Hnotin. rewrite Heq. now apply in_map.
Qed.

(** X5.  With pairwise distinct timestamps the aggregation does not
    depend on the order in which the collection is stored: any
    rearrangement of the entries gives the same data points. *)
Theorem processChartData_order_independent (h : Host) (l l' : list LogEntry) :
  Permutation l l' -> NoDup (map timestamp l) ->
  processChartData h l = processChartData h l'.
Proof.
  intros Hp Hnd. unfold processChartData.
  assert (Hsort : JS.sort byTimestampAsc l = JS.sort byTimestampAsc l').
  { apply (sorted_strict_unique (fun a b => timestamp a < timestamp b)).
    - intros a b. lia.
    - apply sorted_distinct_strict; [apply sort_asc_sorted|].
      eapply Permutation_NoDup; [|exact Hnd].
      symmetry. apply Permutation_map, sort_perm.
    - apply sorted_distinct_strict; [apply sort_asc_sorted|].
      eapply Permutation_NoDup; [|exact Hnd].
      apply Permutation_map. rewrite sort_perm. exact Hp.
    - now rewrite !sort_perm. }
  now rewrite Hsort.
Qed.

Lemma processChartData_order_independent_witness :
  processChartData utcHost sampleLogs = processChartData utcHost (rev sampleLogs).
Proof.
  apply processChartData_order_independent.
  - apply Permutation_rev.
  - simpl. repeat (constructor; [simpl; intuition discriminate|]). constructor.
Defined.

Lemma defined_nothing {A : Type} (g : A -> option Z) (l : list A) :
  (forall x, In x l -> g x = None) -> defined g l = [].
Proof.
  induction l as [|x l IH]; intros Hg; simpl; [reflexivity|].
  rewrite (Hg x (or_introl eq_refl)). apply IH. intros y Hy. apply Hg. now right.
Qed.

Lemma filter_nothing {A : Type} (Q : A -> bool) (l : list A) :
  (forall x, In x l -> Q x = false) -> filter Q l = [].
Proof.
  induction l as [|x l IH]; intros HQ; simpl; [reflexivity|].
  rewrite (HQ x (or_introl eq_refl)). apply IH. intros y Hy. apply HQ. now right.
Qed.

(** X6.  A date on which only intake was logged still gets its data
    point, and all three channels of that point are [null]. *)
Theorem intake_only_date_is_empty_point (h : Host) (logs : list LogEntry)
  (e : LogEntry) :
  In e logs ->
  (forall x, In x logs -> dateOf h x = dateOf h e -> type x = intake) ->
  In (emptyPoint (dateOf h e)) (processChartData h logs).
Proof.
  intros He Honly.
  assert (Hd : In (dateOf h e) (map date (processChartData h logs))).
  { apply dates_processChartData. now exists e. }
  apply in_map_iff in Hd. destruct Hd as (p & Hdate & Hp).
  destruct (channels_of_point h logs p Hp) as (_ & Hc & Hb & _).
  pose proof (stressLevel_is_winner h logs p Hp) as Hs.
  rewrite Hdate in Hc, Hb, Hs.
  assert (Hbody : forall x, In x (entriesOn h (dateOf h e) logs) ->
                            exists f, body x = IntakeBody f).
  { intros x Hx. apply filter_In in Hx. destruct Hx as [Hx Hk].
    apply String.eqb_eq in Hk. specialize (Honly x Hx Hk).
    unfold type in Honly. destruct (body x) as [f|f|f]; try discriminate.
    now exists f. }
  rewrite defined_nothing in Hc
    by (intros x Hx; destruct (Hbody x Hx) as [f Hf];
        unfold crampsOf; now rewrite Hf).
  rewrite defined_nothing in Hb
    by (intros x Hx; destruct (Hbody x Hx) as [f Hf];
        unfold bloatingOf; now rewrite Hf).
  rewrite filter_nothing in Hs
    by (intros x Hx; destruct (Hbody x Hx) as [f Hf];
        unfold isStress; now rewrite Hf).
  simpl in Hc, Hb, Hs.
  destruct p as [d c b s]. simpl in *. subst. exact Hp.
Qed.

Lemma intake_only_date_is_empty_point_witness :
  In (emptyPoint "2024-01-03")
     (processChartData utcHost
        (intakeEntry "j" (jan1 + 50 * hour) "rice" :: sampleLogs)).
Proof.
  refine (intake_only_date_is_empty_point utcHost
            (intakeEntry "j" (jan1 + 50 * hour) "rice" :: sampleLogs)
            (intakeEntry "j" (jan1 + 50 * hour) "rice") _ _).
  - left. reflexivity.
  - intros x Hx. simpl in Hx.
    destruct Hx as [<-|[<-|[<-|[<-|[<-|[]]]]]]; vm_compute;
      intros; (reflexivity || discriminate).
Defined.

Lemma short_list_one_value {A : Type} (l : list A) :
  NoDup l ->
  ((List.length l <? 2)%nat = true <-> forall x y, In x l -> In y l -> x = y).
Proof.
  intros Hnd. destruct l as [|a [|b l]]; simpl; split; try tauto.
  - intros _ x y [<-|[]] [<-|[]]. reflexivity.
  - discriminate.
  - intros H. exfalso.
    assert (Hab : a = b) by (apply H; auto).
    inversion Hnd as [|? ? Hnotin _]; subst. apply Hnotin. now left.
Qed.

(** X7.  [DataChart] shows the "not enough data" message exactly when
    all entries, of whatever type, fall on one local calendar date (or
    there is none); otherwise it charts the aggregation, which then has at
    least two points. *)
Theorem chart_needs_two_dates (h : Host) (logs : list LogEntry) :
  (DataChart.render h logs = None <->
   forall a b, In a logs -> In b logs -> dateOf h a = dateOf h b)
  /\ (forall chartData, DataChart.render h logs = Some chartData ->
        chartData = processChartData h logs /\
        (2 <= List.length chartData)%nat /\
        exists a b, In a logs /\ In b logs /\ dateOf h a <> dateOf h b).
Proof.
  pose proof (dates_distinct h logs) as Hnd.
  pose proof (dates_processChartData h logs) as Hdates.
  pose proof (short_list_one_value _ Hnd) as Hshort.
  rewrite length_map in Hshort.
  assert (Hnone : DataChart.render h logs = None <->
                  (List.length (processChartData h logs) <? 2)%nat = true).
  { unfold DataChart.render. cbv zeta.
    destruct (List.length (processChartData h logs) <? 2)%nat;
      split; congruence. }
  assert (Hiff : (List.length (processChartData h logs) <? 2)%nat = true <->
            forall a b, In a logs -> In b logs -> dateOf h a = dateOf h b).
  { rewrite Hshort. split.
    - intros H a b Ha Hb. apply H; apply Hdates; eauto.
    - intros H x y Hx Hy. apply Hdates in Hx, Hy.
      destruct Hx as (a & Ha & <-). destruct Hy as (b & Hb & <-).
      now apply H. }
  split; [now rewrite Hnone|].
  intros chartData Hsome. unfold DataChart.render in Hsome. cbv zeta in Hsome.
  destruct (Nat.ltb_spec (List.length (processChartData h logs)) 2) as [Hlt|Hge];
    [discriminate|].
  injection Hsome as <-. split; [reflexivity|]. split; [exact Hge|].
  destruct (processChartData h logs) as [|p [|q r]] eqn:Hout;
    simpl in Hge; try lia.
  assert (Hp : In (date p) (map date (p :: q :: r))) by (now left).
  assert (Hq : In (date q) (map date (p :: q :: r))) by (right; now left).
  apply Hdates in Hp, Hq.
  destruct Hp as (a & Ha & Hda). destruct Hq as (b & Hb & Hdb).
  exists a, b. repeat split; try assumption.
  unfold dateOf. rewrite Hda, Hdb. simpl in Hnd.
  inversion Hnd as [|? ? Hnotin _]; subst. intros Heq. apply Hnotin.
  left. congruence.
Qed.

Lemma chart_needs_two_dates_witness :
  exists a b, In a sampleLogs /\ In b sampleLogs /\
              dateOf utcHost a <> dateOf utcHost b.
Proof.
  refine (proj2 (proj2 (proj2 (chart_needs_two_dates utcHost sampleLogs)
                          (processChartData utcHost sampleLogs) _))).
  reflexivity.
Defined.

(** X8.  The stress guard and the chart agree on what a day is: [isToday]
    holds of a timestamp exactly when [formatTimestampToDateString] gives
    it the date string of the current instant. *)
Theorem isToday_iff_same_date_string (h : Host) (now' t : Z) :
  hostInRange h ->
  (isToday h now' t = true <->
   formatTimestampToDateString h t = formatTimestampToDateString h now').
Proof.
  intros Hh. rewrite (formatTimestampToDateString_same_date h t now' Hh).
  unfold isToday, sameDate. cbv zeta.
  rewrite !andb_true_iff, !Z.eqb_eq. tauto.
Qed.

Lemma isToday_iff_same_date_string_witness :
  isToday utcHost (jan1 + 23 * hour) (jan1 + hour) = true <->
  formatTimestampToDateString utcHost (jan1 + hour)
  = formatTimestampToDateString utcHost (jan1 + 23 * hour).
Proof.
  exact (isToday_iff_same_date_string utcHost (jan1 + 23 * hour) (jan1 + hour)
           (fixedZone_in_range 0)).
Defined.

(** ** Navigation and rendering *)

Lemma editingConsistent_none (st : AppState) :
  editingEntry st = None -> editingConsistent st.
Proof. unfold editingConsistent. now intros ->. Qed.

Lemma editingEntry_createLogEntry env d st :
  editingEntry (createLogEntry env d st) = None
  /\ activeView (createLogEntry env d st) = viewLog.
Proof.
  unfold createLogEntry. cbv zeta.
  match goal with |- context [if ?c then _ else _] => destruct c end;
    split; reflexivity.
Qed.

Lemma editingEntry_updateLogEntry h env u st :
  editingEntry (updateLogEntry h env u st) = None
  /\ activeView (updateLogEntry h env u st) = viewLog.
Proof.
  unfold updateLogEntry. cbv zeta. destruct (isStress u); split; reflexivity.
Qed.

Lemma editingEntry_deleteLogEntry h env i st :
  editingEntry (deleteLogEntry h env i st) = None
  /\ activeView (deleteLogEntry h env i st) = viewLog.
Proof.
  unfold deleteLogEntry. cbv zeta.
  destruct (find _ (logs st)) as [e|]; [|split; reflexivity].
  destruct (isStress e && isToday h (now env) (timestamp e)); split; reflexivity.
Qed.

(** X9.  While an entry is being edited the active view is the form of
    that entry's type: [handleEditEntry] establishes this, and cancelling,
    a click on any tab, rendering, and every creation, update and deletion
    keep it (the last three end the edit and return to the list). *)
Theorem editing_view_matches_entry (h : Host) (env : Env) (st : AppState) :
  (forall e, editingConsistent (handleEditEntry e st)
             /\ editingEntry (handleEditEntry e st) = Some e
             /\ activeView (handleEditEntry e st) = formFor (type e))
  /\ editingConsistent (handleCancelEdit st)
  /\ (forall d, editingConsistent (createLogEntry env d st))
  /\ (forall u, editingConsistent (updateLogEntry h env u st))
  /\ (forall i, editingConsistent (deleteLogEntry h env i st))
  /\ (editingConsistent st ->
      (forall item, editingConsistent (handleNavClick item st))
      /\ (forall item, editingConsistent (clickTab item st))
      /\ editingConsistent (snd (renderActiveView st))).
Proof.
  split; [|split; [|split; [|split; [|split]]]].
  - intros e. unfold handleEditEntry, editingConsistent.
    destruct (type e) eqn:Ht; simpl; rewrite Ht; repeat split.
  - exact I.
  - intros d. apply editingConsistent_none, editingEntry_createLogEntry.
  - intros u. apply editingConsistent_none, editingEntry_updateLogEntry.
  - intros i. apply editingConsistent_none, editingEntry_deleteLogEntry.
  - intros Hc.
    assert (Hnav : forall item, editingConsistent (handleNavClick item st)).
    { intros item. unfold editingConsistent in *.
      unfold handleNavClick, handleCancelEdit.
      destruct st as [l v [e|] flag al]; simpl in *.
      - subst v. destruct (type e) eqn:Ht; destruct item, flag; simpl;
          rewrite ?Ht; auto.
      - destruct item, v, flag; simpl; auto. }
    split; [exact Hnav|]. split.
    + intros item. unfold clickTab, BottomNav.onClick.
      destruct (negb _); [apply Hnav|exact Hc].
    + unfold editingConsistent in *. unfold renderActiveView.
      destruct st as [l v [e|] flag al]; simpl in *.
      * subst v. destruct (type e) eqn:Ht; simpl; try rewrite Ht;
          try reflexivity.
        destruct (flag && false); simpl; now rewrite ?Ht.
      * destruct v; simpl; auto. now destruct (flag && true).
Qed.

Lemma editing_view_matches_entry_witness :
  let env := {| now := jan1 + 40 * hour; uuidv4 := "unused" |} in
  let st := handleEditEntry (stressEntry "s1" (jan1 + 30 * hour) 2)
              (initialState sampleLogs) in
  editingConsistent (clickTab chart st).
Proof.
  intros env st.
  refine (proj1 (proj2 (proj2 (proj2 (proj2 (proj2
            (editing_view_matches_entry utcHost env st))))) _) chart).
  reflexivity.
Defined.

(** X10.  What the render shows while the view and the edited entry
    agree: an entry being edited is shown in the form of its own type,
    opened on that entry; and the stress form is opened for a new entry only
    while [stressLoggedToday] is clear. *)
Theorem render_opens_matching_form (st : AppState) :
  editingConsistent st ->
  (forall e, editingEntry st = Some e ->
     fst (renderActiveView st) = formScreen (type e) (Some e))
  /\ (fst (renderActiveView st) = StressFormScreen None ->
      stressLoggedToday st = false /\ editingEntry st = None)
  /\ (forall t e, fst (renderActiveView st) = formScreen t (Some e) ->
      editingEntry st = Some e /\ type e = t).
Proof.
  unfold editingConsistent, renderActiveView, editingOfType, type.
  destruct st as [l v [[i ts [f|f|f]]|] flag al]; simpl; intros Hc;
    try subst v; destruct flag; simpl;
    (split; [|split]);
    try (intros e' H; injection H as <-; reflexivity);
    try (intros; discriminate);
    try (intros t e' H; destruct t; simpl in H; try discriminate;
         injection H as <-; split; reflexivity);
    try (destruct v; simpl; intros; (discriminate || (split; reflexivity)));
    try (intros t e' H; destruct v, t; simpl in H; discriminate).
Qed.

Lemma render_opens_matching_form_witness :
  let e := stressEntry "s1" (jan1 + 30 * hour) 2 in
  fst (renderActiveView (handleEditEntry e (initialState sampleLogs)))
  = formScreen (type e) (Some e).
Proof.
  intros e.
  refine (proj1 (render_opens_matching_form
                   (handleEditEntry e (initialState sampleLogs)) _) e _);
    reflexivity.
Defined.

(** X11.  A click on a tab of the bottom bar either changes nothing, which
    happens only for the stress tab while [stressLoggedToday] is set and no
    stress entry is being edited, or makes that tab the active view; it
    never touches the collection, and an edit in progress survives only a
    click on the tab of its own form. *)
Theorem clickTab_outcome (item : View) (st : AppState) :
  editingConsistent st ->
  let st' := clickTab item st in
  (st' = st /\ item = addStress /\ stressLoggedToday st = true
   /\ editingOfType stress st = None)
  \/ (activeView st' = item /\ logs st' = logs st
      /\ stressLoggedToday st' = stressLoggedToday st
      /\ alerts st' = alerts st
      /\ (editingEntry st' = None
          \/ (item = activeView st /\ editingEntry st' = editingEntry st))).
Proof.
  unfold editingConsistent, clickTab, BottomNav.onClick, disabledItems,
    handleNavClick, handleCancelEdit, editingOfType, type.
  destruct st as [l v [[i ts [f|f|f]]|] flag al]; simpl; intros Hc;
    try subst v; destruct flag, item; simpl;
    try (left; repeat split; reflexivity);
    try (right; repeat split; (left; reflexivity) || (right; split; reflexivity));
    destruct v; simpl;
    try (left; repeat split; reflexivity);
    right; repeat split; (left; reflexivity) || (right; split; reflexivity).
Qed.

Lemma clickTab_outcome_witness :
  let st := setStressLoggedToday true
              (handleEditEntry (symptomEntry "a" (jan1 + 9 * hour) (Some 3) None)
                 (initialState sampleLogs)) in
  (clickTab addStress st = st /\ addStress = addStress
   /\ stressLoggedToday st = true /\ editingOfType stress st = None)
  \/ (activeView (clickTab addStress st) = addStress
      /\ logs (clickTab addStress st) = logs st
      /\ stressLoggedToday (clickTab addStress st) = stressLoggedToday st
      /\ alerts (clickTab addStress st) = alerts st
      /\ (editingEntry (clickTab addStress st) = None
          \/ (addStress = activeView st
              /\ editingEntry (clickTab addStress st) = editingEntry st))).
Proof.
  intros st. refine (clickTab_outcome addStress st _). reflexivity.
Defined.

(** ** Saving through the forms *)

Lemma updateLogEntry_in_place (h : Host) (env : Env) (u e : LogEntry)
  (st st0 : AppState) :
  logs st = logs st0 -> In e (logs st0) -> id u = id e -> type u = type e ->
  editedInPlace st0 (updateLogEntry h env u st) e (timestamp u).
Proof.
  intros Hlogs He Hid Hty. unfold editedInPlace.
  assert (Hin : forall x, In x (logs (updateLogEntry h env u st)) <->
            exists x0, (if String.eqb (id x0) (id u) then u else x0) = x
                       /\ In x0 (logs st0)).
  { intros x. rewrite logs_updateLogEntry, sort_In, in_map_iff, Hlogs.
    reflexivity. }
  split; [|split].
  - exists u. repeat split; try assumption.
    apply Hin. exists e. now rewrite Hid, String.eqb_refl.
  - intros x Hx. rewrite Hin. split.
    + intros (x0 & Hx0 & Hin0).
      destruct (String.eqb_spec (id x0) (id u)); congruence.
    + intros Hin0. exists x. split; [|exact Hin0].
      destruct (String.eqb_spec (id x) (id u)); congruence.
  - apply editingEntry_updateLogEntry.
Qed.

Lemma truthyStr_nonempty (s : string) : s <> "" -> JS.truthyStr s = true.
Proof. destruct s; [congruence|reflexivity]. Qed.

Lemma initialId_some (e : LogEntry) : initialId (Some e) = id e.
Proof. unfold initialId. now destruct (id e). Qed.

Lemma truthyNum_nonzero (z : Z) : z <> 0 -> JS.truthyNum (JS.Num z) = true.
Proof. intros Hz. simpl. now destruct (Z.eqb_spec z 0). Qed.

Lemma updateLogEntry_others (h : Host) (env : Env) (u : LogEntry)
  (st : AppState) :
  Permutation (others (id u) (logs (updateLogEntry h env u st)))
              (others (id u) (logs st)).
Proof.
  rewrite logs_updateLogEntry. unfold others.
  eapply Permutation_trans; [apply Permutation_filter, sort_perm|].
  induction (logs st) as [|e l IH]; simpl; [constructor|].
  destruct (String.eqb (id e) (id u)) eqn:He; simpl.
  - rewrite String.eqb_refl. exact IH.
  - rewrite He. simpl. now constructor.
Qed.

Lemma submitForm_calls (h : Host) (env : Env) (input : FormInput)
  (st : AppState) :
  (exists old u,
     editingEntry st = Some old /\ id u = id old /\ type u = type old
     /\ submitForm h env input st = updateLogEntry h env u st)
  \/ noUpdate env st (submitForm h env input st).
Proof.
  assert (Hnothing : forall P : Prop, P \/ noUpdate env st st)
    by (intros P; right; now left).
  assert (Halert : forall (P : Prop) msg, P \/ noUpdate env st (alert msg st))
    by (intros P msg; right; right; left; now exists msg).
  assert (Hcreate : forall (P : Prop) d,
            P \/ noUpdate env st (createLogEntry env d st))
    by (intros P d; right; right; right; right; now exists d).
  unfold submitForm, renderActiveView.
  destruct (activeView st); cbn [fst]; try apply Hnothing.
  - (* the symptom form *)
    destruct input as [bowel c b u notes dt| |]; try apply Hnothing.
    unfold editingOfType.
    destruct (editingEntry st) as [[i t [f|f|f]]|] eqn:Hed; cbn [type body];
      unfold SymptomForm.handleSubmit, SymptomForm.save, handleSaveSymptom;
      cbn [isEditing initialTimestamp formId formTimestamp formFields];
      cbv zeta; try (cbn [initialId JS.truthyStr andb]; apply Hcreate).
    destruct (parseInputTimestamp h dt) as [ts|]; cbn [JS.isNaN];
      [|apply Halert].
    destruct (JS.truthyStr _ && JS.truthyNum _); [|apply Hcreate].
    left. eexists. eexists. split; [reflexivity|].
    split; [|split; [|reflexivity]]; [apply initialId_some|reflexivity].
  - (* the intake form *)
    destruct input as [|what amount notes dt|]; try apply Hnothing.
    unfold editingOfType, IntakeForm.handleSubmit.
    destruct (negb (JS.truthyStr (JS.trim what))); [apply Halert|].
    destruct (editingEntry st) as [[i t [f|f|f]]|] eqn:Hed; cbn [type body];
      unfold IntakeForm.save, handleSaveIntake;
      cbn [isEditing initialTimestamp formId formTimestamp formFields];
      cbv zeta; try (cbn [initialId JS.truthyStr andb]; apply Hcreate).
    destruct (parseInputTimestamp h dt) as [ts|]; cbn [JS.isNaN];
      [|apply Halert].
    destruct (JS.truthyStr _ && JS.truthyNum _); [|apply Hcreate].
    left. eexists. eexists. split; [reflexivity|].
    split; [|split; [|reflexivity]]; [apply initialId_some|reflexivity].
  - (* the stress form *)
    assert (Hnew : forall (P : Prop) d,
      P \/ noUpdate env st
             (if stressLoggedToday st
              then setActiveView viewLog (alert stressAlready st)
              else createLogEntry env d st)).
    { intros P d. destruct (stressLoggedToday st); [|apply Hcreate].
      right. right. right. left. now exists stressAlready. }
    destruct (stressLoggedToday st && negb (isSome (editingEntry st)));
      cbn [fst]; [apply Hnothing|].
    destruct input as [| |lvl notes dt]; try apply Hnothing.
    unfold editingOfType.
    destruct (editingEntry st) as [[i t [f|f|f]]|] eqn:Hed; cbn [type body];
      unfold StressForm.handleSubmit, StressForm.save, handleSaveStress;
      cbn [isEditing initialTimestamp formId formTimestamp formFields];
      cbv zeta; try (cbn [initialId JS.truthyStr andb]; apply Hnew).
    destruct (parseInputTimestamp h dt) as [ts|]; cbn [JS.isNaN];
      [|apply Halert].
    destruct (JS.truthyStr _ && JS.truthyNum _); [|apply Hnew].
    left. eexists. eexists. split; [reflexivity|].
    split; [|split; [|reflexivity]]; [apply initialId_some|reflexivity].
Qed.

(** C6.  [updateLogEntry] is called by the save handlers only, each on
    the data of its own form, so every update the program issues carries
    the id and the type of the entry under edit.  When that entry is
    stored, the collection afterwards contains an entry with that same id
    and the same type as before whose other fields, the timestamp included,
    are those of the supplied update; no entry with that id but the update
    is left, and the entries with other ids are as they were.  Such an
    update is issued whenever the form of the entry under edit is
    submitted with a date that parses to a number other than 0 (and, in
    the intake form, an item that is not blank), for an entry whose id is
    not empty. *)
Theorem updateLogEntry_replaces (h : Host) (env : Env) (st : AppState) :
  (forall input,
     (exists old u,
        editingEntry st = Some old /\ id u = id old /\ type u = type old
        /\ submitForm h env input st = updateLogEntry h env u st)
     \/ noUpdate env st (submitForm h env input st))
  /\ (forall old u,
        In old (logs st) -> id u = id old -> type u = type old ->
        let st' := updateLogEntry h env u st in
        (exists e, In e (logs st') /\ id e = id old /\ type e = type old
                   /\ timestamp e = timestamp u /\ body e = body u)
        /\ (forall e, In e (logs st') -> id e = id old -> e = u)
        /\ (forall e, id e <> id old -> (In e (logs st') <-> In e (logs st)))
        /\ Permutation (others (id old) (logs st')) (others (id old) (logs st))
        /\ List.length (logs st') = List.length (logs st)
        /\ timestampsNonIncreasing (logs st'))
  /\ (forall input old ts,
        editingEntry st = Some old -> activeView st = formFor (type old) ->
        inputType input = type old -> id old <> "" ->
        parseInputTimestamp h (editedDateTimeOf input) = JS.Num ts ->
        ts <> 0 -> itemGiven input = true ->
        exists u, submitForm h env input st = updateLogEntry h env u st
                  /\ id u = id old /\ type u = type old /\ timestamp u = ts).
Proof.
  split; [intros input; apply submitForm_calls|]. split.
  - intros old u Hold Hid Hty st'.
    destruct (updateLogEntry_effect h env u st old Hold (eq_sym Hid))
      as (Hu & Hsame & Hothers & Hlen & Hsorted).
    fold st' in Hu, Hsame, Hothers, Hlen, Hsorted. rewrite Hid in Hsame, Hothers.
    split; [exists u; now repeat split|].
    split; [exact Hsame|]. split; [exact Hothers|].
    split; [|split; [exact Hlen|exact Hsorted]].
    rewrite <- Hid. apply updateLogEntry_others.
  - intros input old ts Hed Hview Hinput Hid Hparse Hts Hitem.
    pose proof (truthyStr_nonempty _ Hid) as Htid.
    pose proof (truthyNum_nonzero _ Hts) as Htts.
    unfold submitForm, renderActiveView. rewrite Hview.
    unfold editingOfType. rewrite Hed. cbn [isSome negb].
    rewrite andb_false_r.
    destruct old as [i t [f|f|f]]; cbn [type body formFor fst] in *;
      destruct input as [bowel c b u notes dt|what amount notes dt
                        |lvl notes dt];
      try discriminate; cbn [editedDateTimeOf itemGiven] in *.
    + unfold SymptomForm.handleSubmit, SymptomForm.save. cbn [isEditing].
      rewrite Hparse. cbn [JS.isNaN]. cbv zeta. rewrite initialId_some.
      unfold handleSaveSymptom. cbv zeta.
      cbn [formId formTimestamp formFields id]. cbn [id] in Htid.
      rewrite Htid, Htts. cbn [andb].
      eexists. split; [reflexivity|]. now repeat split.
    + unfold IntakeForm.handleSubmit, IntakeForm.save. rewrite Hitem.
      cbn [negb isEditing].
      rewrite Hparse. cbn [JS.isNaN]. cbv zeta. rewrite initialId_some.
      unfold handleSaveIntake. cbv zeta.
      cbn [formId formTimestamp formFields id]. cbn [id] in Htid.
      rewrite Htid, Htts. cbn [andb].
      eexists. split; [reflexivity|]. now repeat split.
    + unfold StressForm.handleSubmit, StressForm.save. cbn [isEditing].
      rewrite Hparse. cbn [JS.isNaN]. cbv zeta. rewrite initialId_some.
      unfold handleSaveStress. cbv zeta.
      cbn [formId formTimestamp formFields id]. cbn [id] in Htid.
      rewrite Htid, Htts. cbn [andb].
      eexists. split; [reflexivity|]. now repeat split.
Qed.

Lemma updateLogEntry_replaces_witness :
  let env := {| now := jan1 + 40 * hour; uuidv4 := "unused" |} in
  let old := symptomEntry "a" (jan1 + 9 * hour) (Some 3) None in
  let st := handleEditEntry old (initialState sampleLogs) in
  let st' := submitForm utcHost env
               (SymptomInput None 4 0 false "" "2024-01-03T02:00") st in
  exists u, st' = updateLogEntry utcHost env u st
            /\ id u = "a" /\ type u = symptom
            /\ timestamp u = jan1 + 50 * hour
            /\ In u (logs st')
            /\ (forall e, id e <> "a" -> (In e (logs st') <-> In e sampleLogs)).
Proof.
  intros env old st st'.
  destruct (updateLogEntry_replaces utcHost env st) as (_ & Heffect & Hedit).
  destruct (Hedit (SymptomInput None 4 0 false "" "2024-01-03T02:00") old
              (jan1 + 50 * hour)) as (u & Hst & Hid & Hty & Hts);
    try reflexivity; try discriminate.
  assert (Hold : In old (logs st)) by (simpl; right; left; reflexivity).
  destruct (Heffect old u Hold Hid Hty) as ((e & He) & _ & Hothers & _ & _).
  exists u. fold st' in Hst. rewrite <- Hst in He, Hothers.
  split; [exact Hst|]. split; [exact Hid|]. split; [exact Hty|].
  split; [exact Hts|]. split; [|exact Hothers].
  destruct He as (He & Heid & _ & Hets & Hebody).
  replace u with e; [exact He|].
  destruct e, u; simpl in *; congruence.
Defined.

(** X12.  Editing through the forms keeps the identity of an entry: when
    an entry of the collection whose id is not empty is opened with
    [handleEditEntry] and its form is submitted with a date that parses to
    a number other than 0, the collection afterwards holds an entry with
    the same id and the same type at the new timestamp, all entries with
    other ids are as before, and the app is back on the list (the intake
    form also asks for an item that is not blank). *)
Theorem edit_through_form_keeps_identity (h : Host) (env : Env)
  (st : AppState) (e : LogEntry) (editedDateTime : string) (ts : Z) :
  In e (logs st) -> id e <> "" ->
  parseInputTimestamp h editedDateTime = JS.Num ts -> ts <> 0 ->
  let st1 := handleEditEntry e st in
  (type e = stress -> forall lvl notes,
     editedInPlace st
       (StressForm.handleSubmit h (handleSaveStress h env)
          (editingOfType stress st1) lvl notes editedDateTime st1) e ts)
  /\ (type e = symptom -> forall bowel c b u notes,
        editedInPlace st
          (SymptomForm.handleSubmit h (handleSaveSymptom h env)
             (editingOfType symptom st1) bowel c b u notes editedDateTime st1)
          e ts)
  /\ (type e = intake -> forall what amount notes,
        JS.truthyStr (JS.trim what) = true ->
        editedInPlace st
          (IntakeForm.handleSubmit h (handleSaveIntake h env)
             (editingOfType intake st1) what amount notes editedDateTime st1)
          e ts).
Proof.
  intros He Hid Hparse Hts st1.
  assert (Hlogs : logs st1 = logs st).
  { unfold st1, handleEditEntry. now destruct (type e). }
  assert (Hed : editingEntry st1 = Some e).
  { unfold st1, handleEditEntry. now destruct (type e). }
  pose proof (truthyStr_nonempty _ Hid) as Htid.
  pose proof (truthyNum_nonzero _ Hts) as Htts.
  split; [|split]; intros Hty.
  - intros lvl notes. unfold editingOfType. rewrite Hed, Hty.
    unfold StressForm.handleSubmit, StressForm.save. simpl isEditing. cbv iota.
    rewrite Hparse. simpl JS.isNaN. cbv iota zeta.
    rewrite initialId_some. unfold handleSaveStress. cbv zeta.
    cbn [formId formTimestamp formFields]. rewrite Htid, Htts. simpl andb.
    cbv iota.
    match goal with
    | |- editedInPlace _ (updateLogEntry _ _ ?u _) _ _ =>
        apply (updateLogEntry_in_place h env u e st1 st Hlogs He)
    end; [reflexivity|]. rewrite Hty. reflexivity.
  - intros bowel c b u notes. unfold editingOfType. rewrite Hed, Hty.
    unfold SymptomForm.handleSubmit, SymptomForm.save. simpl isEditing.
    cbv iota. rewrite Hparse. simpl JS.isNaN. cbv iota zeta.
    rewrite initialId_some. unfold handleSaveSymptom. cbv zeta.
    cbn [formId formTimestamp formFields]. rewrite Htid, Htts. simpl andb.
    cbv iota.
    match goal with
    | |- editedInPlace _ (updateLogEntry _ _ ?u _) _ _ =>
        apply (updateLogEntry_in_place h env u e st1 st Hlogs He)
    end; [reflexivity|]. rewrite Hty. reflexivity.
  - intros what amount notes Hitem. unfold editingOfType. rewrite Hed, Hty.
    unfold IntakeForm.handleSubmit, IntakeForm.save. rewrite Hitem.
    simpl negb. simpl isEditing. cbv iota.
    rewrite Hparse. simpl JS.isNaN. cbv iota zeta.
    rewrite initialId_some. unfold handleSaveIntake. cbv zeta.
    cbn [formId formTimestamp formFields]. rewrite Htid, Htts. simpl andb.
    cbv iota.
    match goal with
    | |- editedInPlace _ (updateLogEntry _ _ ?u _) _ _ =>
        apply (updateLogEntry_in_place h env u e st1 st Hlogs He)
    end; [reflexivity|]. rewrite Hty. reflexivity.
Qed.

Lemma edit_through_form_keeps_identity_witness :
  let env := {| now := jan1 + 40 * hour; uuidv4 := "unused" |} in
  let e := stressEntry "s1" (jan1 + 30 * hour) 2 in
  let st := initialState sampleLogs in
  editedInPlace st
    (StressForm.handleSubmit utcHost (handleSaveStress utcHost env)
       (editingOfType stress (handleEditEntry e st)) 5 "worse"
       "2024-01-01T06:30" (handleEditEntry e st))
    e (jan1 + 6 * hour + 30 * minute).
Proof.
  intros env e st.
  refine (proj1 (edit_through_form_keeps_identity utcHost env st e
                   "2024-01-01T06:30" (jan1 + 6 * hour + 30 * minute)
                   _ _ _ _) _ 5 "worse").
  - simpl. left. reflexivity.
  - discriminate.
  - reflexivity.
  - discriminate.
  - reflexivity.
Defined.

(** X13.  The handlers take a save for an update only when its data
    carries a non-empty id and a timestamp other than 0.  So an edit of a
    symptom entry whose date parses to exactly 0 does not change the entry:
    it stays as it was, and a new entry with a generated id and the current
    time is stored beside it. *)
Theorem edit_to_time_zero_creates_entry (h : Host) (env : Env)
  (st : AppState) (e : LogEntry) (editedDateTime : string) :
  In e (logs st) -> type e = symptom ->
  parseInputTimestamp h editedDateTime = JS.Num 0 ->
  forall bowel c b u notes,
    let st1 := handleEditEntry e st in
    let st' := SymptomForm.handleSubmit h (handleSaveSymptom h env)
                 (editingOfType symptom st1) bowel c b u notes
                 editedDateTime st1 in
    In e (logs st')
    /\ exists n, id n = uuidv4 env /\ timestamp n = now env
                 /\ type n = symptom
                 /\ Permutation (logs st') (logs st ++ [n]).
Proof.
  intros He Hty Hparse bowel c b u notes st1 st'.
  assert (Hlogs : logs st1 = logs st).
  { unfold st1, handleEditEntry. now destruct (type e). }
  assert (Hed : editingEntry st1 = Some e).
  { unfold st1, handleEditEntry. now destruct (type e). }
  assert (Hst' : st' = createLogEntry env
            (withType SymptomBody
               {| formId := initialId (Some e); formTimestamp := JS.Num 0;
                  formFields :=
                    mkSymptom bowel
                      (if c >? 0 then Some c else None)
                      (if b >? 0 then Some b else None)
                      (if u then Some true else None)
                      (JS.orUndefined (JS.trim notes)) |}) st1).
  { unfold st', editingOfType. rewrite Hed, Hty.
    unfold SymptomForm.handleSubmit, SymptomForm.save. simpl isEditing.
    cbv iota. rewrite Hparse. simpl JS.isNaN. cbv iota zeta.
    unfold handleSaveSymptom. cbv zeta. cbn [formId formTimestamp].
    simpl JS.truthyNum. rewrite andb_false_r. reflexivity. }
  rewrite Hst', logs_createLogEntry, Hlogs. split.
  - apply sort_In, in_or_app. now left.
  - eexists. split; [|split; [|split]]; [| | |apply sort_perm]; reflexivity.
Qed.

Lemma edit_to_time_zero_creates_entry_witness :
  let env := {| now := jan1 + 40 * hour; uuidv4 := "copy" |} in
  let e := symptomEntry "a" (jan1 + 9 * hour) (Some 3) None in
  let st := initialState sampleLogs in
  In e (logs (SymptomForm.handleSubmit utcHost (handleSaveSymptom utcHost env)
                (editingOfType symptom (handleEditEntry e st))
                None 3 0 false "" "1970-01-01T00:00" (handleEditEntry e st))).
Proof.
  intros env e st.
  refine (proj1 (edit_to_time_zero_creates_entry utcHost env st e
                   "1970-01-01T00:00" _ _ _ None 3 0 false "")).
  - simpl. right. left. reflexivity.
  - reflexivity.
  - reflexivity.
Defined.

(** ** The stress status, the timer and the reminder *)

Lemma lastStressLog_none (l : list LogEntry) :
  lastStressLog l = None <-> filter isStress l = [].
Proof.
  unfold lastStressLog.
  pose proof (sort_perm byTimestampDesc (filter isStress l)) as Hp.
  destruct (JS.sort byTimestampDesc (filter isStress l)) as [|x s]; simpl.
  - apply Permutation_nil in Hp. rewrite Hp. tauto.
  - split; [discriminate|]. intros Hnil. rewrite Hnil in Hp.
    apply Permutation_sym, Permutation_nil in Hp. discriminate.
Qed.

(** X15.  The stress status depends on the entries only, not on the order
    in which they are stored; and when it holds, some stress entry of the
    collection falls on the local day of the check. *)
Theorem stress_status_of_collection (h : Host) (t : Z) (l l' : list LogEntry) :
  Permutation l l' ->
  stressStatus h t l = stressStatus h t l'
  /\ (stressStatus h t l = true -> stressOnDayOf h t l = true)
  /\ (forall st, stressLoggedToday (checkStressLogStatus h t l st)
                 = stressStatus h t l).
Proof.
  intros Hp. split; [|split].
  - unfold stressStatus.
    destruct (lastStressLog l) as [x|] eqn:Hx;
      destruct (lastStressLog l') as [y|] eqn:Hy.
    + apply lastStressLog_most_recent in Hx, Hy.
      destruct Hx as (Hxin & Hxs & Hxmax). destruct Hy as (Hyin & Hys & Hymax).
      assert (Heq : timestamp x = timestamp y).
      { apply Z.le_antisymm.
        - apply Hymax; [now apply (Permutation_in _ Hp)|exact Hxs].
        - apply Hxmax; [now apply (Permutation_in _ (Permutation_sym Hp))|
                        exact Hys]. }
      now rewrite Heq.
    + exfalso. apply lastStressLog_most_recent in Hx.
      destruct Hx as (Hxin & Hxs & _). apply lastStressLog_none in Hy.
      assert (Hin : In x (filter isStress l')).
      { apply filter_In. split; [now apply (Permutation_in _ Hp)|exact Hxs]. }
      now rewrite Hy in Hin.
    + exfalso. apply lastStressLog_most_recent in Hy.
      destruct Hy as (Hyin & Hys & _). apply lastStressLog_none in Hx.
      assert (Hin : In y (filter isStress l)).
      { apply filter_In. split;
          [now apply (Permutation_in _ (Permutation_sym Hp))|exact Hys]. }
      now rewrite Hx in Hin.
    + reflexivity.
  - unfold stressStatus, stressOnDayOf.
    destruct (lastStressLog l) as [x|] eqn:Hx; [|discriminate].
    intros Ht. apply lastStressLog_most_recent in Hx.
    destruct Hx as (Hxin & Hxs & _).
    apply existsb_exists. exists x. split; [exact Hxin|]. now rewrite Hxs, Ht.
  - reflexivity.
Qed.

Lemma stress_status_of_collection_witness :
  stressStatus utcHost (jan1 + 31 * hour) sampleLogs
  = stressStatus utcHost (jan1 + 31 * hour) (rev sampleLogs).
Proof.
  refine (proj1 (stress_status_of_collection utcHost (jan1 + 31 * hour)
                   sampleLogs (rev sampleLogs) _)).
  apply Permutation_rev.
Defined.

(** X16.  A run of the timer leaves [stressLoggedToday] equal to the
    stress status at that moment (whatever it was before) and touches
    nothing else; so does the effect that follows a change of the
    collection. *)
Theorem timer_refreshes_flag (h : Host) (t : Z) (st : AppState) :
  stressLoggedToday (timerTick h t st) = stressStatus h t (logs st)
  /\ timerTick h t st = setStressLoggedToday (stressStatus h t (logs st)) st
  /\ afterRender h t st = timerTick h t st
  /\ timerTick h t (timerTick h t st) = timerTick h t st.
Proof.
  assert (Htick : timerTick h t st
                  = setStressLoggedToday (stressStatus h t (logs st)) st).
  { unfold timerTick, stressStatus, checkStressLogStatus. cbv zeta.
    destruct st as [l v ed flag al]. simpl.
    destruct (lastStressLog l) as [x|]; simpl.
    - destruct (isToday h t (timestamp x)), flag; reflexivity.
    - destruct flag; reflexivity. }
  split; [now rewrite Htick|]. split; [exact Htick|]. split.
  - rewrite Htick. reflexivity.
  - rewrite Htick. unfold timerTick, stressStatus, checkStressLogStatus.
    cbv zeta. simpl.
    destruct (lastStressLog (logs st)) as [x|]; simpl.
    + destruct (isToday h t (timestamp x)); reflexivity.
    + reflexivity.
Qed.

Section ReminderFacts.
Variable h : Host.
Variable getHours : Z -> Z.
Variable toDateString : Z -> string.

Lemma intervalCallback_cases (t : Z) (rs : ReminderState) :
  let rs' := intervalCallback h getHours toDateString t rs in
  appState rs' = timerTick h t (appState rs)
  /\ notificationPermission rs' = notificationPermission rs
  /\ ((notifications rs' = notifications rs
       /\ (lastNotificationDate rs' = lastNotificationDate rs
           \/ lastNotificationDate rs' = None))
      \/ (notifications rs' = notifications rs ++ [reminderBody]
          /\ lastNotificationDate rs' = Some (toDateString t)
          /\ notificationPermission rs = granted
          /\ 18 <= getHours t
          /\ stressLoggedToday (appState rs) = false
          /\ lastNotificationDate rs <> Some (toDateString t))).
Proof.
  intros rs'. unfold rs', intervalCallback, timerTick. clear rs'. cbv zeta.
  destruct rs as [st perm last shown]. cbn [appState notificationPermission
    lastNotificationDate notifications].
  set (needsReset := match lastStressLog (logs st) with
                     | Some l => negb (isToday h t (timestamp l))
                     | None => true
                     end).
  assert (Hdiff : negb match last with
                       | Some s => String.eqb s (toDateString t)
                       | None => false
                       end = true -> last <> Some (toDateString t)).
  { destruct last as [s|]; [|discriminate].
    destruct (String.eqb_spec s (toDateString t)); [discriminate|congruence]. }
  destruct (Z.geb_spec (getHours t) 18) as [Hh|Hh];
    destruct perm, needsReset, (stressLoggedToday st) eqn:Hflag;
    destruct (negb match last with
                   | Some s => String.eqb s (toDateString t)
                   | None => false
                   end) eqn:Hd;
    cbn [andb negb appState notificationPermission lastNotificationDate
         notifications];
    (split; [reflexivity|split; [reflexivity|]]);
    try (left; split; [reflexivity|];
         first [left; reflexivity
               |right; reflexivity
               |destruct last as [[|c s]|]; simpl; auto]);
    right; repeat split; auto; lia.
Qed.

(** X17.  The reminder is shown at most once per day: of two runs of the
    timer at instants with the same [toDateString], whatever happened to
    the rest of the state in between, at most one shows it.  A run shows
    the reminder only with the permission granted, from 18:00 on and while
    [stressLoggedToday] is clear. *)
Theorem reminder_at_most_once_a_day (t1 t2 : Z) (rs between : ReminderState) :
  toDateString t1 = toDateString t2 ->
  let rs1 := intervalCallback h getHours toDateString t1 rs in
  lastNotificationDate between = lastNotificationDate rs1 ->
  notifications between = notifications rs1 ->
  let rs2 := intervalCallback h getHours toDateString t2 between in
  (notifications rs2 = notifications rs
   \/ notifications rs2 = notifications rs ++ [reminderBody])
  /\ (notifications rs1 <> notifications rs ->
      notificationPermission rs = granted /\ 18 <= getHours t1
      /\ stressLoggedToday (appState rs) = false
      /\ notifications rs2 = notifications rs1).
Proof.
  intros Hday rs1 Hlast Hshown rs2.
  destruct (intervalCallback_cases t1 rs) as (_ & _ & H1).
  destruct (intervalCallback_cases t2 between) as (_ & _ & H2).
  fold rs1 in H1. fold rs2 in H2. rewrite Hshown, Hlast in H2.
  destruct H1 as [(Hn1 & _)|(Hn1 & Hl1 & Hperm & Hhour & Hflag & _)].
  - split.
    + destruct H2 as [(Hn2 & _)|(Hn2 & _)]; rewrite Hn2, Hn1; auto.
    + intros Hne. congruence.
  - assert (Hn2 : notifications rs2 = notifications rs1).
    { destruct H2 as [(Hn2 & _)|(_ & _ & _ & _ & _ & Hl2)]; [exact Hn2|].
      exfalso. apply Hl2. rewrite Hl1. now rewrite Hday. }
    split; [right; now rewrite Hn2|]. intros _. repeat split; assumption.
Qed.

End ReminderFacts.

Lemma reminder_at_most_once_a_day_witness :
  let rs := {| appState := initialState sampleLogs;
               notificationPermission := granted;
               lastNotificationDate := None; notifications := [] |} in
  let tick := intervalCallback utcHost
                (fun t => t mod 86400000 / 3600000)
                (formatTimestampToDateString utcHost) in
  let rs1 := tick (jan1 + 67 * hour) rs in
  let rs2 := tick (jan1 + 68 * hour)
               (withAppState (setActiveView chart) rs1) in
  notifications rs1 = [reminderBody]
  /\ (notifications rs2 = notifications rs
      \/ notifications rs2 = notifications rs ++ [reminderBody]).
Proof.
  intros rs tick' rs1 rs2. split; [reflexivity|].
  refine (proj1 (reminder_at_most_once_a_day utcHost
                   (fun t => t mod 86400000 / 3600000)
                   (formatTimestampToDateString utcHost)
                   (jan1 + 67 * hour) (jan1 + 68 * hour) rs
                   (withAppState (setActiveView chart) rs1) _ _ _));
    reflexivity.
Defined.

(** ** [String.prototype.trim] *)

(** White space at the start goes, whatever follows it. *)
Lemma trimStart_white_space (c : Z) (s : string) :
  In c JS.whiteSpace -> JS.trimStart (JS.utf8 c ++ s) = JS.trimStart s.
Proof.
  unfold JS.whiteSpace. intros Hc.
  repeat (destruct Hc as [<-|Hc]; [reflexivity|]). destruct Hc.
Qed.

Lemma append_assoc (a b c : string) :
  ((a ++ b) ++ c = a ++ (b ++ c))%string.
Proof. induction a as [|x a IH]; simpl; [reflexivity|now rewrite IH]. Qed.

Lemma append_empty (a : string) : (a ++ "")%string = a.
Proof. induction a as [|x a IH]; simpl; [reflexivity|now rewrite IH]. Qed.

Lemma utf8_white_space_shape (c : Z) :
  In c JS.whiteSpace ->
  exists a rest,
    JS.utf8 c = String a rest /\ continuation a = false
    /\ forall b, In b (list_ascii_of_string rest) -> continuation b = true.
Proof.
  unfold JS.whiteSpace. intros Hc.
  repeat (destruct Hc as [<-|Hc];
          [eexists; eexists; split; [reflexivity|]; split; [reflexivity|];
           intros b Hb; simpl in Hb;
           repeat (destruct Hb as [<-|Hb]; [reflexivity|]); destruct Hb|]).
  destruct Hc.
Qed.

Lemma append_split (s1 s2 t1 t2 : string) :
  (s1 ++ s2 = t1 ++ t2)%string ->
  (exists m, t1 = s1 ++ m /\ s2 = m ++ t2)%string
  \/ (exists b m, s1 = t1 ++ String b m /\ t2 = String b m ++ s2)%string.
Proof.
  revert t1. induction s1 as [|a s1 IH]; intros t1 Heq; simpl in Heq.
  - left. exists t1. now split.
  - destruct t1 as [|b t1]; simpl in Heq.
    + right. exists a, s1. now split.
    + injection Heq as <- Heq. destruct (IH t1 Heq) as [(m & -> & ->)|(c & m & -> & ->)].
      * left. exists m. now split.
      * right. exists c, m. now split.
Qed.

(** A white space character at the start of [q ++ w] lies within [q]
    when [w] begins at a character. *)
Lemma white_space_prefix (c : Z) (q w r : string) :
  In c JS.whiteSpace -> atBoundary w -> q <> "" ->
  (q ++ w = JS.utf8 c ++ r)%string ->
  exists q', (q = JS.utf8 c ++ q' /\ r = q' ++ w)%string.
Proof.
  intros Hc Hw Hq Heq.
  destruct (append_split _ _ _ _ (eq_sym Heq)) as [(m & -> & ->)|(b & m & Hu & ->)].
  - now exists m.
  - exfalso. destruct (utf8_white_space_shape c Hc) as (a & rest & Hshape & _ & Hrest).
    rewrite Hshape in Hu. destruct q as [|a' q]; [congruence|].
    simpl in Hu. injection Hu as _ ->. simpl in Hw.
    rewrite Hrest in Hw; [discriminate|].
    clear. induction q as [|x q IH]; simpl; [now left|now right].
Qed.

Lemma trimStart_step (s : string) :
  (exists c r, In c JS.whiteSpace /\ s = (JS.utf8 c ++ r)%string
               /\ JS.trimStart s = JS.trimStart r)
  \/ JS.trimStart s = s.
Proof.
  assert (Hwhite : forall w, JS.isWhiteSpace w = true ->
            exists c, In c JS.whiteSpace /\ w = JS.utf8 c).
  { intros w Hw. unfold JS.isWhiteSpace in Hw. apply existsb_exists in Hw.
    destruct Hw as (c & Hc & Heq). apply String.eqb_eq in Heq. now exists c. }
  destruct s as [|a [|b [|c s3]]]; cbn [JS.trimStart].
  - now right.
  - destruct (JS.isWhiteSpace (String a "")) eqn:H1; [|now right].
    left. destruct (Hwhite _ H1) as (x & Hx & Heq). exists x, "".
    rewrite <- Heq. now repeat split.
  - destruct (JS.isWhiteSpace (String a "")) eqn:H1.
    { left. destruct (Hwhite _ H1) as (x & Hx & Heq). exists x, (String b "").
      rewrite <- Heq. now repeat split. }
    destruct (JS.isWhiteSpace (String a (String b ""))) eqn:H2; [|now right].
    left. destruct (Hwhite _ H2) as (x & Hx & Heq). exists x, "".
    rewrite <- Heq. now repeat split.
  - destruct (JS.isWhiteSpace (String a "")) eqn:H1.
    { left. destruct (Hwhite _ H1) as (x & Hx & Heq).
      exists x, (String b (String c s3)). rewrite <- Heq. now repeat split. }
    destruct (JS.isWhiteSpace (String a (String b ""))) eqn:H2.
    { left. destruct (Hwhite _ H2) as (x & Hx & Heq).
      exists x, (String c s3). rewrite <- Heq. now repeat split. }
    destruct (JS.isWhiteSpace (String a (String b (String c "")))) eqn:H3;
      [|now right].
    left. destruct (Hwhite _ H3) as (x & Hx & Heq). exists x, s3.
    rewrite <- Heq. now repeat split.
Qed.

Lemma trimStart_whiteRun (cs : list Z) (s : string) :
  allWhiteSpace cs -> JS.trimStart (whiteRun cs ++ s) = JS.trimStart s.
Proof.
  induction cs as [|c cs IH]; intros Hcs; [reflexivity|].
  cbn [whiteRun fold_right]. fold (whiteRun cs).
  rewrite append_assoc, trimStart_white_space by (apply Hcs; now left).
  apply IH. intros x Hx. apply Hcs. now right.
Qed.

Lemma whiteRun_atBoundary (cs : list Z) :
  allWhiteSpace cs -> atBoundary (whiteRun cs).
Proof.
  destruct cs as [|c cs]; intros Hcs; [exact I|].
  cbn [whiteRun fold_right].
  destruct (utf8_white_space_shape c) as (a & rest & -> & Ha & _);
    [apply Hcs; now left|exact Ha].
Qed.

Lemma trimEnd_keeps (core w : string) :
  JS.trimStart w = "" ->
  (forall p q, core = (p ++ q)%string -> q <> "" ->
               JS.trimStart (q ++ w) <> "") ->
  JS.trimEnd (core ++ w) = core.
Proof.
  intros Hw. induction core as [|a core IH]; intros Hkeep.
  - destruct w as [|b w]; [reflexivity|]. cbn [append JS.trimEnd].
    now rewrite Hw.
  - cbn [append JS.trimEnd].
    change (String a (core ++ w)) with (String a core ++ w)%string.
    destruct (JS.trimStart (String a core ++ w)) eqn:Hs.
    + exfalso. now apply (Hkeep "" (String a core)).
    + f_equal. apply IH. intros p q -> Hq.
      now apply (Hkeep (String a p) q).
Qed.

Lemma trimEnd_white_space (core w : string) :
  JS.trimStart w = "" -> atBoundary w -> ~ endsWithWhiteSpace core ->
  JS.trimEnd (core ++ w) = core.
Proof.
  intros Hw Hb Hend. apply trimEnd_keeps; [exact Hw|].
  intros p q. remember (String.length q) as n eqn:Hn.
  revert p q Hn. induction n as [n IH] using lt_wf_ind.
  intros p q Hn Hcore Hq Hs.
  destruct (trimStart_step (q ++ w)) as [(c & r & Hc & Heq & Hr)|Hsame].
  - destruct (white_space_prefix c q w r Hc Hb Hq Heq) as (q' & -> & ->).
    destruct q' as [|b q'].
    + apply Hend. exists c, p. split; [exact Hc|].
      now rewrite Hcore, append_empty.
    + assert (Hlt : (String.length (String b q') < n)%nat).
      { rewrite Hn, length_append.
        destruct (utf8_white_space_shape c Hc) as (a & rest & -> & _).
        simpl. apply Nat.lt_succ_r, Nat.le_add_l. }
      apply (IH _ Hlt (p ++ JS.utf8 c)%string (String b q') eq_refl).
      * now rewrite Hcore, append_assoc.
      * discriminate.
      * now rewrite <- Hr.
  - rewrite Hs in Hsame. destruct q; [congruence|discriminate].
Qed.

(** [trim] gives what stands between the white space at the two ends:
    of a run of white space, a text that neither begins nor ends with
    white space, and another run of white space, the text is left as it
    is. *)
Lemma trim_spec (before after : list Z) (core : string) :
  allWhiteSpace before -> allWhiteSpace after ->
  ~ startsWithWhiteSpace core -> ~ endsWithWhiteSpace core ->
  JS.trim (whiteRun before ++ core ++ whiteRun after) = core.
Proof.
  intros Hb Ha Hstart Hend. unfold JS.trim.
  rewrite trimStart_whiteRun by exact Hb.
  assert (Hrun : JS.trimStart (whiteRun after) = "").
  { rewrite <- (append_empty (whiteRun after)).
    now rewrite trimStart_whiteRun. }
  pose proof (whiteRun_atBoundary after Ha) as Hbound.
  destruct core as [|a core].
  - cbn [append]. now rewrite Hrun.
  - destruct (trimStart_step (String a core ++ whiteRun after))
      as [(c & r & Hc & Heq & _)| ->].
    + exfalso. apply Hstart.
      assert (Hne : String a core <> "") by discriminate.
      destruct (white_space_prefix c _ _ r Hc Hbound Hne Heq)
        as (q' & Hq' & _).
      now exists c, q'.
    + now apply trimEnd_white_space.
Qed.

(** A no-break space, an ideographic space and a byte order mark are
    white space like the blank; white space inside the text stays. *)
Lemma trim_examples :
  JS.trim (JS.utf8 0xA0 ++ "green tea" ++ JS.utf8 0x3000 ++ " ") = "green tea"
  /\ JS.trim (JS.utf8 0xFEFF ++ JS.utf8 0xA0 ++ JS.utf8 0x2028) = ""
  /\ JS.trim (JS.utf8 0x200B ++ " ") = JS.utf8 0x200B.
Proof. repeat split. Qed.

(** ** What the forms hand to [onSave] *)

Lemma orUndefined_nonempty (s : string) : JS.orUndefined s <> Some "".
Proof. unfold JS.orUndefined. destruct s; simpl; congruence. Qed.

(** X18.  Whatever the inputs, each form either only alerts, or calls
    [onSave] exactly once with data that is clean: the timestamp is never
    [NaN]; notes and quantity are absent rather than empty; a symptom
    severity is absent or at least 1 and urgency is absent or [true] (a
    severity of 0 is never stored through the form); an intake item is
    trimmed and not empty. *)
Theorem forms_hand_over_clean_data (h : Host) (initialData : option LogEntry)
  (notes editedDateTime : string) :
  (forall lvl,
     (forall onSave st,
        StressForm.handleSubmit h onSave initialData lvl notes editedDateTime st
        = alert invalidDateMessage st)
     \/ exists data,
          (forall onSave st,
             StressForm.handleSubmit h onSave initialData lvl notes
               editedDateTime st = onSave data st)
          /\ formTimestamp data <> JS.NaN
          /\ level (formFields data) = lvl
          /\ stressNotes (formFields data) <> Some "")
  /\ (forall bowel c b u,
        (forall onSave st,
           SymptomForm.handleSubmit h onSave initialData bowel c b u notes
             editedDateTime st = alert invalidDateMessage st)
        \/ exists data,
             (forall onSave st,
                SymptomForm.handleSubmit h onSave initialData bowel c b u notes
                  editedDateTime st = onSave data st)
             /\ formTimestamp data <> JS.NaN
             /\ (forall v, crampsSeverity (formFields data) = Some v ->
                           v = c /\ 1 <= v)
             /\ (forall v, bloatingSeverity (formFields data) = Some v ->
                           v = b /\ 1 <= v)
             /\ urgency (formFields data) <> Some false
             /\ symptomNotes (formFields data) <> Some "")
  /\ (forall what amount,
        (exists msg, forall onSave st,
           IntakeForm.handleSubmit h onSave initialData what amount notes
             editedDateTime st = alert msg st)
        \/ exists data,
             (forall onSave st,
                IntakeForm.handleSubmit h onSave initialData what amount notes
                  editedDateTime st = onSave data st)
             /\ formTimestamp data <> JS.NaN
             /\ item (formFields data) = JS.trim what
             /\ item (formFields data) <> ""
             /\ quantity (formFields data) <> Some ""
             /\ intakeNotes (formFields data) <> Some "").
Proof.
  split; [|split].
  - intros lvl. unfold StressForm.handleSubmit, StressForm.save.
    destruct (isEditing initialData).
    + destruct (parseInputTimestamp h editedDateTime) as [ts|] eqn:Hp; simpl.
      * right. eexists. split; [reflexivity|]. simpl.
        repeat split; [discriminate|apply orUndefined_nonempty].
      * now left.
    + right. eexists. split; [reflexivity|]. simpl.
      repeat split; [discriminate|apply orUndefined_nonempty].
  - intros bowel c b u.
    assert (Hsev : forall x v, (if x >? 0 then Some x else None) = Some v ->
                               v = x /\ 1 <= v).
    { intros x v. destruct (Z.gtb_spec x 0); [|discriminate].
      intros [= <-]. lia. }
    assert (Hurg : (if u then Some true else None) <> Some false)
      by (destruct u; discriminate).
    unfold SymptomForm.handleSubmit, SymptomForm.save.
    destruct (isEditing initialData).
    + destruct (parseInputTimestamp h editedDateTime) as [ts|] eqn:Hp; simpl.
      * right. eexists. split; [reflexivity|]. simpl.
        repeat split; try discriminate; try (eapply Hsev; eassumption);
          auto; try apply orUndefined_nonempty.
      * now left.
    + right. eexists. split; [reflexivity|]. simpl.
      repeat split; try discriminate; try (eapply Hsev; eassumption);
        auto; try apply orUndefined_nonempty.
  - intros what amount. unfold IntakeForm.handleSubmit, IntakeForm.save.
    destruct (JS.truthyStr (JS.trim what)) eqn:Hitem; simpl.
    + assert (Hne : JS.trim what <> "")
        by (intros Heq; rewrite Heq in Hitem; discriminate).
      destruct (isEditing initialData).
      * destruct (parseInputTimestamp h editedDateTime) as [ts|] eqn:Hp; simpl.
        -- right. eexists. split; [reflexivity|]. simpl.
           repeat split; try discriminate; auto; apply orUndefined_nonempty.
        -- left. eexists. reflexivity.
      * right. eexists. split; [reflexivity|]. simpl.
        repeat split; try discriminate; auto; apply orUndefined_nonempty.
    + left. eexists. reflexivity.
Qed.

Lemma trim_whiteRun (cs : list Z) :
  allWhiteSpace cs -> JS.trim (whiteRun cs) = "".
Proof.
  intros Hcs. unfold JS.trim.
  rewrite <- (append_empty (whiteRun cs)).
  now rewrite trimStart_whiteRun.
Qed.

(** X23.  The intake form stores the item without the white space around
    it, whatever kind of white space that is: of an input made of a run of
    white space, a text that neither begins nor ends with white space, and
    another run of white space, the text is what [onSave] gets (when the
    form is not editing, or the edited date parses); when there is no such
    text, the input being white space only, the form asks for the item and
    saves nothing.  A quantity or a note of white space only is handed
    over as absent. *)
Theorem intake_item_between_white_space (h : Host)
  (initialData : option LogEntry) (amount notes editedDateTime : string)
  (before after : list Z) (core : string) :
  allWhiteSpace before -> allWhiteSpace after ->
  ~ startsWithWhiteSpace core -> ~ endsWithWhiteSpace core ->
  let what := (whiteRun before ++ core ++ whiteRun after)%string in
  (core = "" -> forall onSave st,
     IntakeForm.handleSubmit h onSave initialData what amount notes
       editedDateTime st
     = alert "Please enter the item consumed." st)
  /\ (core <> "" ->
      (isEditing initialData = true ->
       JS.isNaN (parseInputTimestamp h editedDateTime) = false) ->
      exists data,
        (forall onSave st,
           IntakeForm.handleSubmit h onSave initialData what amount notes
             editedDateTime st = onSave data st)
        /\ item (formFields data) = core
        /\ (forall cs, allWhiteSpace cs -> amount = whiteRun cs ->
              quantity (formFields data) = None)
        /\ (forall cs, allWhiteSpace cs -> notes = whiteRun cs ->
              intakeNotes (formFields data) = None)).
Proof.
  intros Hb Ha Hstart Hend what.
  assert (Htrim : JS.trim what = core) by now apply trim_spec.
  split.
  - intros Hcore onSave st. unfold IntakeForm.handleSubmit.
    now rewrite Htrim, Hcore.
  - intros Hcore Hdate.
    unfold IntakeForm.handleSubmit, IntakeForm.save. rewrite Htrim.
    rewrite (truthyStr_nonempty _ Hcore). cbn [negb].
    destruct (isEditing initialData).
    + rewrite (Hdate eq_refl). eexists. split; [reflexivity|].
      cbn [formFields item quantity intakeNotes].
      split; [reflexivity|].
      split; intros cs Hcs ->; now rewrite trim_whiteRun.
    + eexists. split; [reflexivity|].
      cbn [formFields item quantity intakeNotes].
      split; [reflexivity|].
      split; intros cs Hcs ->; now rewrite trim_whiteRun.
Qed.

Lemma intake_item_between_white_space_witness :
  let what := (JS.utf8 0xA0 ++ "green tea" ++ JS.utf8 0x3000 ++ " ")%string in
  exists data,
    (forall onSave st,
       IntakeForm.handleSubmit utcHost onSave None what (JS.utf8 0xA0) ""
         "" st = onSave data st)
    /\ item (formFields data) = "green tea"
    /\ quantity (formFields data) = None.
Proof.
  intros what.
  assert (Hb : allWhiteSpace [0xA0])
    by (intros c [<-|[]]; vm_compute; tauto).
  assert (Ha : allWhiteSpace [0x3000; 0x20])
    by (intros c [<-|[<-|[]]]; vm_compute; tauto).
  assert (Hstart : ~ startsWithWhiteSpace "green tea").
  { intros (c & r & Hc & Heq). unfold JS.whiteSpace in Hc.
    repeat (destruct Hc as [<-|Hc]; [discriminate|]). destruct Hc. }
  assert (Hend : ~ endsWithWhiteSpace "green tea").
  { intros (c & r & Hc & Heq). unfold JS.whiteSpace in Hc.
    repeat (destruct Hc as [<-|Hc];
            [destruct r as [|? [|? [|? [|? [|? [|? [|? [|? [|? [|? ?]]]]]]]]]];
             discriminate|]).
    destruct Hc. }
  destruct (proj2 (intake_item_between_white_space utcHost None
                     (JS.utf8 0xA0) "" "" [0xA0] [0x3000; 0x20] "green tea"
                     Hb Ha Hstart Hend))
    as (data & Hsave & Hitem & Hamount & _); try discriminate.
  exists data. split; [exact Hsave|]. split; [exact Hitem|].
  apply (Hamount [0xA0] Hb). reflexivity.
Defined.

(** ** [split], [join], [formatShortDate] and [cn] *)

Lemma split_without_separator (sep : ascii) (s : string) :
  noChar sep s -> JSString.split sep s = [s].
Proof.
  unfold noChar. induction s as [|c s IH]; intros Hs; simpl; [reflexivity|].
  destruct (Ascii.eqb_spec c sep) as [->|_].
  - exfalso. apply (Hs sep); [now left|reflexivity].
  - rewrite IH; [reflexivity|]. intros x Hx. apply Hs. now right.
Qed.

Lemma split_at_separator (sep : ascii) (a b : string) :
  noChar sep a ->
  JSString.split sep (a ++ String sep b) = a :: JSString.split sep b.
Proof.
  unfold noChar. induction a as [|c a IH]; intros Ha; simpl.
  - now rewrite Ascii.eqb_refl.
  - destruct (Ascii.eqb_spec c sep) as [->|_].
    + exfalso. apply (Ha sep); [now left|reflexivity].
    + rewrite IH; [reflexivity|]. intros x Hx. apply Ha. now right.
Qed.

Lemma digitChar_not_hyphen (d : Z) : 0 <= d <= 9 -> JS.digitChar d <> "-"%char.
Proof.
  intros Hd Heq. apply (f_equal (fun c => Z.of_N (N_of_ascii c))) in Heq.
  rewrite digitChar_code in Heq by exact Hd.
  change (Z.of_N (N_of_ascii "-")) with 45 in Heq. lia.
Qed.

Lemma digitsAux_no_hyphen (fuel : nat) (n : Z) (acc : string) :
  noChar "-" acc -> noChar "-" (JS.digitsAux fuel n acc).
Proof.
  revert n acc. induction fuel as [|fuel IH]; intros n acc Hacc; [exact Hacc|].
  rewrite digitsAux_unfold.
  assert (Hmod : 0 <= n mod 10 <= 9)
    by (pose proof (Z.mod_pos_bound n 10); lia).
  assert (Hacc' : noChar "-" (String (JS.digitChar (n mod 10)) acc)).
  { intros c [<-|Hc]; [now apply digitChar_not_hyphen|now apply Hacc]. }
  destruct (n <? 10); [exact Hacc'|now apply IH].
Qed.

Lemma two_digits_no_hyphen (n : Z) :
  0 <= n < 100 -> noChar "-" (JS.padStart 2 "0" (JS.toString n)).
Proof.
  intros Hn. rewrite padStart_two by exact Hn.
  intros c [<-|[<-|[]]]; apply digitChar_not_hyphen;
    Z.div_mod_to_equations; lia.
Qed.

(** X19.  [formatShortDate] turns the date string of a timestamp whose
    local year is not negative into [MM/DD]; the string of a negative year,
    which starts with a hyphen and so has four parts, is returned as it is,
    like every string without a hyphen. *)
Theorem formatShortDate_of_date_string (h : Host) (t : Z) :
  hostInRange h ->
  let d := localTime h t in
  (0 <= getFullYear d ->
   formatShortDate (formatTimestampToDateString h t)
   = (JS.padStart 2 "0" (JS.toString (getMonth d + 1)) ++ "/"
      ++ JS.padStart 2 "0" (JS.toString (getDate d)))%string)
  /\ (getFullYear d < 0 ->
      formatShortDate (formatTimestampToDateString h t)
      = formatTimestampToDateString h t)
  /\ (forall s, noChar "-" s -> formatShortDate s = s).
Proof.
  intros Hh d. destruct (Hh t) as [Hm Hd]. fold d in Hm, Hd.
  pose proof (two_digits_no_hyphen (getMonth d + 1) ltac:(lia)) as HM.
  pose proof (two_digits_no_hyphen (getDate d) ltac:(lia)) as HD.
  unfold formatShortDate, formatTimestampToDateString. cbv zeta. fold d.
  set (M := JS.padStart 2 "0" (JS.toString (getMonth d + 1))) in *.
  set (D := JS.padStart 2 "0" (JS.toString (getDate d))) in *.
  change (JS.toString (getFullYear d) ++ "-" ++ M ++ "-" ++ D)%string
    with (JS.toString (getFullYear d) ++ String "-" (M ++ String "-" D))%string.
  split; [|split].
  - intros Hy. unfold JS.toString. destruct (Z.ltb_spec (getFullYear d) 0); [lia|].
    rewrite split_at_separator
      by (apply digitsAux_no_hyphen; intros c []).
    rewrite split_at_separator by exact HM.
    now rewrite split_without_separator by exact HD.
  - intros Hy. unfold JS.toString. destruct (Z.ltb_spec (getFullYear d) 0); [|lia].
    change (String "-" (JS.digits (- getFullYear d))
            ++ String "-" (M ++ String "-" D))%string
      with ("" ++ String "-" (JS.digits (- getFullYear d)
                              ++ String "-" (M ++ String "-" D)))%string.
    rewrite split_at_separator by (intros c []).
    rewrite split_at_separator
      by (apply digitsAux_no_hyphen; intros c []).
    rewrite split_at_separator by exact HM.
    now rewrite split_without_separator by exact HD.
  - intros s Hs. now rewrite split_without_separator by exact Hs.
Qed.

Lemma formatShortDate_of_date_string_witness :
  formatShortDate (formatTimestampToDateString utcHost (jan1 + 30 * hour))
  = "01/02".
Proof.
  refine (proj1 (formatShortDate_of_date_string utcHost (jan1 + 30 * hour)
                   (fixedZone_in_range 0)) _).
  vm_compute. discriminate.
Defined.

Lemma join_nonempty (sep : string) (x : string) (l : list string) :
  x <> "" -> JSString.join sep (x :: l) <> "".
Proof.
  intros Hx. destruct l as [|y l]; simpl; [exact Hx|].
  destruct x; [congruence|discriminate].
Qed.

Lemma split_join (sep : ascii) (l : list string) :
  l <> [] -> (forall s, In s l -> noChar sep s) ->
  JSString.split sep (JSString.join (String sep "") l) = l.
Proof.
  induction l as [|x l IH]; intros Hne Hall; [congruence|].
  destruct l as [|y l].
  - simpl. apply split_without_separator. apply Hall. now left.
  - change (JSString.join (String sep "") (x :: y :: l))
      with (x ++ String sep (JSString.join (String sep "") (y :: l)))%string.
    rewrite split_at_separator by (apply Hall; now left).
    rewrite IH; [reflexivity|discriminate|].
    intros s Hs. apply Hall. now right.
Qed.

(** X20.  [cn] loses no class: it gives the empty string exactly when no
    argument is a non-empty string, and otherwise splitting its result at
    the spaces gives back the non-empty string arguments, in order, provided
    none of them contains a space itself. *)
Theorem cn_keeps_the_classes (classes : list (option string)) :
  (cn classes = "" <-> truthyClasses classes = [])
  /\ (truthyClasses classes <> [] ->
      (forall s, In (Some s) classes -> noChar " " s) ->
      JSString.split " " (cn classes) = truthyClasses classes)
  /\ (forall s, In s (truthyClasses classes) <->
                In (Some s) classes /\ s <> "").
Proof.
  assert (Hin : forall s, In s (truthyClasses classes) <->
                          In (Some s) classes /\ s <> "").
  { intros s. unfold truthyClasses. rewrite in_flat_map. split.
    - intros ([x|] & Hx & Hs); [|destruct Hs].
      destruct x as [|c x]; simpl in Hs; [destruct Hs|].
      destruct Hs as [<-|[]]. split; [exact Hx|discriminate].
    - intros [Hs Hne]. exists (Some s). split; [exact Hs|].
      destruct s; [congruence|now left]. }
  split; [|split; [|exact Hin]].
  - change (cn classes) with (JSString.join " " (truthyClasses classes)).
    destruct (truthyClasses classes) as [|x l] eqn:Ht.
    + split; reflexivity.
    + split; [|discriminate]. intros Hempty. exfalso.
      apply (join_nonempty " " x l); [|exact Hempty].
      apply (Hin x). now left.
  - intros Hne Hall.
    change (cn classes) with (JSString.join " " (truthyClasses classes)).
    apply split_join; [exact Hne|]. intros s Hs. apply Hall. now apply Hin.
Qed.

Lemma cn_keeps_the_classes_witness :
  JSString.split " " (cn [Some "w-6"; None; Some ""; Some "mb-1"])
  = truthyClasses [Some "w-6"; None; Some ""; Some "mb-1"].
Proof.
  refine (proj1 (proj2 (cn_keeps_the_classes
                          [Some "w-6"; None; Some ""; Some "mb-1"])) _ _).
  - discriminate.
  - intros s Hs. simpl in Hs.
    destruct Hs as [[= <-]|[Hs|[[= <-]|[[= <-]|[]]]]]; try discriminate;
      intros c Hc; simpl in Hc;
      repeat (destruct Hc as [<-|Hc]; [discriminate|]); destruct Hc.
Defined.

(** ** The date field of the edit forms: format and parse *)

Lemma toString_three_digits (n : Z) :
  100 <= n < 1000 ->
  JS.toString n =
  String (JS.digitChar (n / 10 / 10))
    (String (JS.digitChar (n / 10 mod 10))
       (String (JS.digitChar (n mod 10)) "")).
Proof.
  intros Hn. unfold JS.toString, JS.digits.
  destruct (Z.ltb_spec n 0); [lia|].
  destruct (digits_fuel n 2) as [f ->]; [simpl; lia|].
  simpl plus. rewrite !digitsAux_unfold.
  destruct (Z.ltb_spec n 10); [lia|].
  destruct (Z.ltb_spec (n / 10) 10);
    [exfalso; Z.div_mod_to_equations; lia|].
  destruct (Z.ltb_spec (n / 10 / 10) 10);
    [|exfalso; Z.div_mod_to_equations; lia].
  rewrite (Z.mod_small (n / 10 / 10)) by (Z.div_mod_to_equations; lia).
  reflexivity.
Qed.

Lemma padStart_four (n : Z) :
  0 <= n <= 9999 ->
  JS.padStart 4 "0" (JS.toString n) =
  String (JS.digitChar (n / 10 / 10 / 10))
    (String (JS.digitChar (n / 10 / 10 mod 10))
       (String (JS.digitChar (n / 10 mod 10))
          (String (JS.digitChar (n mod 10)) ""))).
Proof.
  intros Hn.
  destruct (Z.lt_ge_cases n 10) as [H1|H1];
    [|destruct (Z.lt_ge_cases n 100) as [H2|H2];
      [|destruct (Z.lt_ge_cases n 1000) as [H3|H3]]].
  - rewrite toString_one_digit by lia.
    replace (n / 10 / 10 / 10) with 0 by (Z.div_mod_to_equations; lia).
    replace (n / 10 / 10 mod 10) with 0 by (Z.div_mod_to_equations; lia).
    replace (n / 10 mod 10) with 0 by (Z.div_mod_to_equations; lia).
    rewrite Z.mod_small by lia. reflexivity.
  - rewrite toString_two_digits by lia.
    replace (n / 10 / 10 / 10) with 0 by (Z.div_mod_to_equations; lia).
    replace (n / 10 / 10 mod 10) with 0 by (Z.div_mod_to_equations; lia).
    rewrite (Z.mod_small (n / 10)) by (Z.div_mod_to_equations; lia).
    reflexivity.
  - rewrite toString_three_digits by lia.
    replace (n / 10 / 10 / 10) with 0 by (Z.div_mod_to_equations; lia).
    rewrite (Z.mod_small (n / 10 / 10)) by (Z.div_mod_to_equations; lia).
    reflexivity.
  - rewrite toString_four_digits by lia. reflexivity.
Qed.

Lemma fromDays_in_range (z : Z) :
  0 <= getMonth (Civil.fromDays z) <= 11 /\
  1 <= getDate (Civil.fromDays z) <= 31.
Proof.
  pose proof (fixedZone_in_range 0 (z * Civil.msPerDay)) as H.
  unfold FixedZone.host, localTime, Civil.day in H.
  replace ((z * Civil.msPerDay - 0 * 60000) / Civil.msPerDay) with z in H;
    [exact H|].
  unfold Civil.msPerDay. Z.div_mod_to_equations. lia.
Qed.

Lemma civil_round_trip (z : Z) :
  Civil.toDays (getFullYear (Civil.fromDays z))
    (getMonth (Civil.fromDays z) + 1) (getDate (Civil.fromDays z)) = z.
Proof.
  unfold Civil.fromDays. cbv zeta. cbn [getFullYear getMonth getDate].
  assert (Hdoe : 0 <= Civil.dayOfEra z <= 146096).
  { unfold Civil.dayOfEra. pose proof (Z.mod_pos_bound (z + 719468) 146097).
    lia. }
  assert (Hera : z + 719468 = 146097 * ((z + 719468) / 146097)
                              + Civil.dayOfEra z).
  { unfold Civil.dayOfEra. apply Z.div_mod. lia. }
  revert Hdoe Hera. generalize (Civil.dayOfEra z) ((z + 719468) / 146097).
  intros doe era Hdoe Hera.
  assert (Hyoe : 0 <= Civil.yearOfEra doe <= 399
                 /\ 0 <= Civil.dayOfYear doe <= 365).
  { unfold Civil.dayOfYear, Civil.yearOfEra. Z.div_mod_to_equations. lia. }
  assert (Hback : Civil.yearOfEra doe * 365 + Civil.yearOfEra doe / 4
                  - Civil.yearOfEra doe / 100 + Civil.dayOfYear doe = doe).
  { unfold Civil.dayOfYear. cbv zeta. lia. }
  revert Hyoe Hback. generalize (Civil.yearOfEra doe) (Civil.dayOfYear doe).
  intros yoe doy [Hyoe Hdoy] Hback.
  unfold Civil.monthIndex, Civil.toDays. cbv zeta.
  set (mp := (5 * doy + 2) / 153).
  assert (Hmp : 0 <= mp <= 11) by (unfold mp; Z.div_mod_to_equations; lia).
  assert (Hd : (153 * mp + 2) / 5 + (doy - (153 * mp + 2) / 5 + 1) - 1 = doy)
    by lia.
  destruct (Z.ltb_spec mp 10) as [Hlt|Hge].
  - replace (mp + 3 - 1 + 1) with (mp + 3) by lia.
    destruct (Z.leb_spec (mp + 3) 2); [lia|].
    replace (mp + 3 - 3) with mp by lia.
    replace ((yoe + era * 400) / 400) with era
      by (Z.div_mod_to_equations; lia).
    replace (yoe + era * 400 - era * 400) with yoe by lia.
    lia.
  - replace (mp - 9 - 1 + 1) with (mp - 9) by lia.
    destruct (Z.leb_spec (mp - 9) 2); [|lia].
    replace (mp - 9 + 9) with mp by lia.
    replace (yoe + era * 400 + 1 - 1) with (yoe + era * 400) by lia.
    replace ((yoe + era * 400) / 400) with era
      by (Z.div_mod_to_equations; lia).
    replace (yoe + era * 400 - era * 400) with yoe by lia.
    lia.
Qed.

Lemma digitValue_digitChar (d : Z) :
  0 <= d <= 9 -> FixedZone.digitValue (JS.digitChar d) = Some d.
Proof.
  intros Hd. unfold FixedZone.digitValue. cbv zeta.
  rewrite digitChar_code by exact Hd.
  destruct (Z.leb_spec 48 (48 + d)); [|lia].
  destruct (Z.leb_spec (48 + d) 57); [|lia].
  cbn [andb]. f_equal. lia.
Qed.

(** X21.  Format and parse of the date field agree: on a host in a fixed
    time zone, for a timestamp whose local year lies in 0..9999, parsing what
    [formatTimestampForInput] puts into the field gives the timestamp back
    with the seconds and milliseconds of the local minute cut off; a value
    outside the range of [Date] is replaced by the current time. *)
Theorem date_field_round_trip (offset now' t : Z) :
  let localMs := t - offset * 60000 in
  (Z.abs t <= maxTime -> Z.abs localMs <= maxTime ->
   0 <= getFullYear (Civil.fromDays (Civil.day localMs)) <= 9999 ->
   parseInputTimestamp (FixedZone.host offset)
     (formatTimestampForInput (fun _ => offset) now' t)
   = JS.Num (t - localMs mod 60000))
  /\ (maxTime < Z.abs t ->
      formatTimestampForInput (fun _ => offset) now' t
      = String.substring 0 16 (toISOString (now' - offset * 60000))).
Proof.
  intros localMs. split.
  - intros Ht Hl Hy.
    unfold formatTimestampForInput, timeClip. cbv zeta.
    destruct (Z.leb_spec (Z.abs t) maxTime); [|lia].
    fold localMs. destruct (Z.leb_spec (Z.abs localMs) maxTime); [|lia].
    unfold toISOString, ExportData.isoDate. cbv zeta.
    set (f := Civil.fromDays (Civil.day localMs)) in *.
    destruct (fromDays_in_range (Civil.day localMs)) as [Hm Hd]. fold f in Hm, Hd.
    pose proof (civil_round_trip (Civil.day localMs)) as Hrt. fold f in Hrt.
    destruct (Z.leb_spec 0 (getFullYear f)); [|lia].
    destruct (Z.leb_spec (getFullYear f) 9999); [|lia]. simpl andb. cbv iota.
    set (ms := localMs mod Civil.msPerDay).
    assert (Hms : 0 <= ms < 86400000)
      by (apply Z.mod_pos_bound; reflexivity).
    rewrite padStart_four by lia.
    rewrite (padStart_two (getMonth f + 1)) by lia.
    rewrite (padStart_two (getDate f)) by lia.
    rewrite (padStart_two (ms / 3600000)) by (Z.div_mod_to_equations; lia).
    rewrite (padStart_two (ms / 60000 mod 60))
      by (Z.div_mod_to_equations; lia).
    cbn [String.append String.substring].
    unfold parseInputTimestamp, FixedZone.host, dateParse, FixedZone.parse.
    cbv beta iota fix delta [list_ascii_of_string FixedZone.number].
    rewrite !digitValue_digitChar by (Z.div_mod_to_equations; lia).
    set (y := 10 * (10 * (10 * (10 * 0 + getFullYear f / 10 / 10 / 10)
                          + getFullYear f / 10 / 10 mod 10)
                    + getFullYear f / 10 mod 10) + getFullYear f mod 10).
    set (m := 10 * (10 * 0 + (getMonth f + 1) / 10) + (getMonth f + 1) mod 10).
    set (d := 10 * (10 * 0 + getDate f / 10) + getDate f mod 10).
    set (hh := 10 * (10 * 0 + ms / 3600000 / 10) + ms / 3600000 mod 10).
    set (mi := 10 * (10 * 0 + ms / 60000 mod 60 / 10) + ms / 60000 mod 60 mod 10).
    assert (Ey : y = getFullYear f) by (unfold y; Z.div_mod_to_equations; lia).
    assert (Em : m = getMonth f + 1) by (unfold m; Z.div_mod_to_equations; lia).
    assert (Ed : d = getDate f) by (unfold d; Z.div_mod_to_equations; lia).
    assert (Eh : hh = ms / 3600000) by (unfold hh; Z.div_mod_to_equations; lia).
    assert (Ei : mi = ms / 60000 mod 60)
      by (unfold mi; Z.div_mod_to_equations; lia).
    rewrite Ey, Em, Ed, Eh, Ei.
    destruct (Z.leb_spec 1 (getMonth f + 1)); [|lia].
    destruct (Z.leb_spec (getMonth f + 1) 12); [|lia].
    destruct (Z.leb_spec 1 (getDate f)); [|lia].
    destruct (Z.leb_spec (getDate f) 31); [|lia].
    destruct (Z.leb_spec (ms / 3600000) 23);
      [|exfalso; Z.div_mod_to_equations; lia].
    destruct (Z.leb_spec (ms / 60000 mod 60) 59);
      [|exfalso; Z.div_mod_to_equations; lia].
    simpl andb. cbv iota. rewrite Hrt. f_equal.
    unfold ms, Civil.day, Civil.msPerDay, localMs.
    Z.div_mod_to_equations. lia.
  - intros Ht. unfold formatTimestampForInput, timeClip. cbv zeta.
    destruct (Z.leb_spec (Z.abs t) maxTime); [lia|reflexivity].
Qed.

Lemma date_field_round_trip_witness :
  parseInputTimestamp (FixedZone.host (-120))
    (formatTimestampForInput (fun _ => -120) jan1 (jan1 + 9 * hour + 12345))
  = JS.Num (jan1 + 9 * hour + 12345
            - (jan1 + 9 * hour + 12345 - -120 * 60000) mod 60000).
Proof.
  refine (proj1 (date_field_round_trip (-120) jan1 (jan1 + 9 * hour + 12345))
            _ _ _); vm_compute; try discriminate.
  split; discriminate.
Defined.
